(** * A shallow embedding of the capitalist-economy simulation

    The simulation engine of [worker_agent_simple.py], [firm_agent_simple.py]
    and [run_simple_simulation.py] is embedded as executable Rocq functions.

    Conventions of the embedding.
    - Python floats are read as exact rationals ([Q]).  Guards, signs,
      orderings and the values the code stores carry over to binary64;
      an identity that holds only by exact cancellation (a sum of
      quotients that is 1, a difference that is 0) does not, and the
      properties below do not rest on one.  Where rounding decides a
      property, the function is embedded a second time on binary64
      numbers ([Binary64]).
    - A Python exception is an explicit [Raise]; every Python [/] goes
      through [pydiv], which raises [ZeroDivisionError] on a zero divisor.
    - The ambient [random] module is an explicit stream of draws in [0,1)
      with a cursor ([Rng]); [uniform], [choice] and [randint] consume one
      draw each.
    - Agents are shared mutable objects.  A reference to a worker (resp. a
      firm) is its position in the model's [worker_agents] (resp.
      [firm_agents]) list, which is where the object lives; a roster or an
      employment list is a list of such references, so aliasing (the same
      worker listed twice) is visible. *)

From Stdlib Require Import QArith ZArith List Bool Lia Lqa Qround.
From Stdlib Require Import Sorting.Mergesort Sorting.Sorted Sorting.Permutation Orders.
From Stdlib Require Floats.PrimFloat Numbers.Cyclic.Int63.Uint63.
Import ListNotations.
Open Scope Q_scope.

(** ** Python values and exceptions *)

(** The exceptions the embedded code can raise.  [DanglingReference] has
    no Python counterpart: it is what dereferencing a position outside the
    agent lists gives, which a Python reference cannot be; well-formed
    worlds ([Invariants.wf]) never reach it. *)
Inductive exn : Type :=
| ZeroDivisionError
| IndexError
| DanglingReference.

Inductive result (A : Type) : Type :=
| Ok (a : A)
| Raise (e : exn).
Arguments Ok {A} a.
Arguments Raise {A} e.

Definition rbind {A B} (r : result A) (k : A -> result B) : result B :=
  match r with
  | Ok a => k a
  | Raise e => Raise e
  end.

Notation "'let?' x ':=' r 'in' k" := (rbind r (fun x => k))
  (at level 10, x name, r at level 100, k at level 200).

Definition Qltb (x y : Q) : bool := negb (Qle_bool y x).
Definition Qgtb (x y : Q) : bool := Qltb y x.
Definition Qgeb (x y : Q) : bool := Qle_bool y x.

(** [a / b] on numbers. *)
Definition pydiv (a b : Q) : result Q :=
  if Qeq_bool b 0 then Raise ZeroDivisionError else Ok (a / b).

(** [max(a, b)] keeps its first argument unless the second is strictly
    greater; [min(a, b)] keeps it unless the second is strictly smaller. *)
Definition pymax (a b : Q) : Q := if Qltb a b then b else a.
Definition pymin (a b : Q) : Q := if Qltb b a then b else a.

(** [sum(xs)] starts from [0] and adds from the left. *)
Definition pysum (xs : list Q) : Q := fold_left Qplus xs 0.

Definition of_nat (n : nat) : Q := inject_Z (Z.of_nat n).

(** [x in xs] and [xs.remove(x)] on lists of references. *)
Definition mem (x : nat) (xs : list nat) : bool := existsb (Nat.eqb x) xs.

Fixpoint remove_first (x : nat) (xs : list nat) : list nat :=
  match xs with
  | [] => []
  | y :: r => if Nat.eqb x y then r else y :: remove_first x r
  end.

Fixpoint set_nth {A} (i : nat) (x : A) (l : list A) : list A :=
  match l, i with
  | [], _ => []
  | _ :: r, O => x :: r
  | y :: r, S j => y :: set_nth j x r
  end.

(** ** The random source *)

Record Rng : Type := mkRng { draws : nat -> Q; cursor : nat }.

Definition advance (g : Rng) : Rng := mkRng (draws g) (S (cursor g)).

(** [random.random()] *)
Definition rng_random (g : Rng) : Q * Rng := (draws g (cursor g), advance g).

(** [random.uniform(a, b)] is [a + (b - a) * random()]. *)
Definition rng_uniform (a b : Q) (g : Rng) : Q * Rng :=
  let (u, g') := rng_random g in (a + (b - a) * u, g').

(** The position drawn by [random.choice] and [random.randint] among [n]
    equally likely ones. *)
Definition rng_below (n : nat) (g : Rng) : nat * Rng :=
  let (u, g') := rng_random g in (Z.to_nat (Qfloor (u * of_nat n)), g').

(** Every draw lies in [0,1), as [random.random()] promises. *)
Definition rng_ok (g : Rng) : Prop := forall n, 0 <= draws g n /\ draws g n < 1.

(** ** Workers: [worker_agent_simple.py] *)

Module SimpleWorkerAgent.

Inductive Skill : Type := low | medium | high.

Definition Skill_eqb (a b : Skill) : bool :=
  match a, b with
  | low, low | medium, medium | high, high => true
  | _, _ => false
  end.

Record Worker : Type := mkWorker {
  unique_id : Z;
  work_hours : Q;
  skill_level : Skill;
  worked_overtime : Q;
  wage : Q;
  is_employed : bool;
  employer : option nat;
  wealth : Q;
  debt : Q;
  total_wages_earned : Q;
  total_taxes_paid : Q;
  weeks_unemployed : Z;
  financial_stress : Q;
  debt_capacity : Q;
  interest_rate : Q;
  is_bankrupt : bool;
  productivity : Q;
  owns_firm : bool;
  basic_needs : Q
}.

(** Attribute assignments [self.f = v]. *)
Definition set_wage (v : Q) (w : Worker) : Worker :=
  mkWorker (unique_id w) (work_hours w) (skill_level w) (worked_overtime w)
    v (is_employed w) (employer w) (wealth w) (debt w)
    (total_wages_earned w) (total_taxes_paid w) (weeks_unemployed w)
    (financial_stress w) (debt_capacity w) (interest_rate w) (is_bankrupt w)
    (productivity w) (owns_firm w) (basic_needs w).

Definition set_is_employed (v : bool) (w : Worker) : Worker :=
  mkWorker (unique_id w) (work_hours w) (skill_level w) (worked_overtime w)
    (wage w) v (employer w) (wealth w) (debt w)
    (total_wages_earned w) (total_taxes_paid w) (weeks_unemployed w)
    (financial_stress w) (debt_capacity w) (interest_rate w) (is_bankrupt w)
    (productivity w) (owns_firm w) (basic_needs w).

Definition set_employer (v : option nat) (w : Worker) : Worker :=
  mkWorker (unique_id w) (work_hours w) (skill_level w) (worked_overtime w)
    (wage w) (is_employed w) v (wealth w) (debt w)
    (total_wages_earned w) (total_taxes_paid w) (weeks_unemployed w)
    (financial_stress w) (debt_capacity w) (interest_rate w) (is_bankrupt w)
    (productivity w) (owns_firm w) (basic_needs w).

Definition set_wealth (v : Q) (w : Worker) : Worker :=
  mkWorker (unique_id w) (work_hours w) (skill_level w) (worked_overtime w)
    (wage w) (is_employed w) (employer w) v (debt w)
    (total_wages_earned w) (total_taxes_paid w) (weeks_unemployed w)
    (financial_stress w) (debt_capacity w) (interest_rate w) (is_bankrupt w)
    (productivity w) (owns_firm w) (basic_needs w).

Definition set_debt (v : Q) (w : Worker) : Worker :=
  mkWorker (unique_id w) (work_hours w) (skill_level w) (worked_overtime w)
    (wage w) (is_employed w) (employer w) (wealth w) v
    (total_wages_earned w) (total_taxes_paid w) (weeks_unemployed w)
    (financial_stress w) (debt_capacity w) (interest_rate w) (is_bankrupt w)
    (productivity w) (owns_firm w) (basic_needs w).

Definition set_total_wages_earned (v : Q) (w : Worker) : Worker :=
  mkWorker (unique_id w) (work_hours w) (skill_level w) (worked_overtime w)
    (wage w) (is_employed w) (employer w) (wealth w) (debt w)
    v (total_taxes_paid w) (weeks_unemployed w)
    (financial_stress w) (debt_capacity w) (interest_rate w) (is_bankrupt w)
    (productivity w) (owns_firm w) (basic_needs w).

Definition set_total_taxes_paid (v : Q) (w : Worker) : Worker :=
  mkWorker (unique_id w) (work_hours w) (skill_level w) (worked_overtime w)
    (wage w) (is_employed w) (employer w) (wealth w) (debt w)
    (total_wages_earned w) v (weeks_unemployed w)
    (financial_stress w) (debt_capacity w) (interest_rate w) (is_bankrupt w)
    (productivity w) (owns_firm w) (basic_needs w).

Definition set_weeks_unemployed (v : Z) (w : Worker) : Worker :=
  mkWorker (unique_id w) (work_hours w) (skill_level w) (worked_overtime w)
    (wage w) (is_employed w) (employer w) (wealth w) (debt w)
    (total_wages_earned w) (total_taxes_paid w) v
    (financial_stress w) (debt_capacity w) (interest_rate w) (is_bankrupt w)
    (productivity w) (owns_firm w) (basic_needs w).

Definition set_financial_stress (v : Q) (w : Worker) : Worker :=
  mkWorker (unique_id w) (work_hours w) (skill_level w) (worked_overtime w)
    (wage w) (is_employed w) (employer w) (wealth w) (debt w)
    (total_wages_earned w) (total_taxes_paid w) (weeks_unemployed w)
    v (debt_capacity w) (interest_rate w) (is_bankrupt w)
    (productivity w) (owns_firm w) (basic_needs w).

Definition set_is_bankrupt (v : bool) (w : Worker) : Worker :=
  mkWorker (unique_id w) (work_hours w) (skill_level w) (worked_overtime w)
    (wage w) (is_employed w) (employer w) (wealth w) (debt w)
    (total_wages_earned w) (total_taxes_paid w) (weeks_unemployed w)
    (financial_stress w) (debt_capacity w) (interest_rate w) v
    (productivity w) (owns_firm w) (basic_needs w).

(** [_determine_skill_level] *)
Definition _determine_skill_level (g : Rng) : Skill * Rng :=
  let (rand, g) := rng_random g in
  if Qltb rand 0.65 then (low, g)
  else if Qltb rand 0.85 then (medium, g)
  else (high, g).

(** [_get_initial_wealth] *)
Definition _get_initial_wealth (s : Skill) (g : Rng) : Q * Rng :=
  match s with
  | high => rng_uniform 5000 25000 g
  | medium => rng_uniform 1500 8000 g
  | low => rng_uniform 0 2000 g
  end.

(** [_get_productivity] *)
Definition _get_productivity (s : Skill) (g : Rng) : Q * Rng :=
  match s with
  | high => rng_uniform 1.3 1.8 g
  | medium => rng_uniform 1.0 1.4 g
  | low => rng_uniform 0.7 1.2 g
  end.

(** [_determine_firm_ownership] *)
Definition _determine_firm_ownership (s : Skill) (g : Rng) : bool * Rng :=
  let ownership_chance :=
    match s with high => 0.15 | medium => 0.05 | low => 0.01 end in
  let (u, g) := rng_random g in (Qltb u ownership_chance, g).

(** [SimpleWorkerAgent.__init__(unique_id, model, work_hours=40)] *)
Definition init (uid : Z) (hours : Q) (g : Rng) : Worker * Rng :=
  let (skill, g) := _determine_skill_level g in
  let (wealth0, g) := _get_initial_wealth skill g in
  let debt0 := if Qltb wealth0 0 then pymax 0 (- wealth0) else 0 in
  let wealth1 := if Qgtb debt0 0 then 0 else wealth0 in
  let (capacity, g) := rng_uniform 5000 15000 g in
  let (rate, g) := rng_uniform 0.10 0.26 g in
  let (prod, g) := _get_productivity skill g in
  let (owner, g) := _determine_firm_ownership skill g in
  let skill_multiplier :=
    match skill with low => 0.8 | medium => 1.0 | high => 1.3 end in
  (mkWorker uid hours skill 0 0 false None wealth1 debt0 0 0 0%Z 0
     capacity rate false prod owner (500 * skill_multiplier), g).

(** An infinite ratio, [float('inf')], next to the finite ones. *)
Inductive ratio : Type := Finite (q : Q) | Infinite.

(** [get_debt_to_income_ratio] *)
Definition get_debt_to_income_ratio (w : Worker) : result ratio :=
  if Qeq_bool (wage w) 0 then
    Ok (if Qgtb (debt w) 0 then Infinite else Finite 0)
  else
    let annual_income := wage w * 52 in
    if Qgtb annual_income 0 then
      let? r := pydiv (debt w) annual_income in Ok (Finite r)
    else Ok Infinite.

(** [get_productivity] and [get_productive_value] *)
Definition get_productivity (w : Worker) : Q := productivity w.

Definition get_productive_value (w : Worker) : Q :=
  let base_value_per_hour := 25.0 in
  work_hours w * get_productivity w * base_value_per_hour.

(** [get_exploitation_rate] *)
Definition get_exploitation_rate (w : Worker) : result Q :=
  if Qeq_bool (wage w) 0 then Ok 0
  else
    let value_produced := get_productive_value w in
    if Qgtb value_produced 0 then
      let? r := pydiv (wage w) value_produced in Ok (1 - r)
    else Ok 0.

(** [get_tax_rate] *)
Definition get_tax_rate (w : Worker) (g : Rng) : Q * Rng :=
  match skill_level w with
  | high => rng_uniform 0.20 0.30 g
  | medium => rng_uniform 0.12 0.20 g
  | low => rng_uniform 0.05 0.12 g
  end.

Definition base_reservation (s : Skill) : Q :=
  match s with high => 20.0 | medium => 12.0 | low => 8.0 end.

(** The two desperation multipliers of [get_reservation_wage]. *)
Definition desperation_factor (w : Worker) : Q :=
  pymin 0.7 (1 - inject_Z (weeks_unemployed w) * 0.05).

Definition debt_desperation (w : Worker) : result Q :=
  let? r := pydiv (debt w) (debt_capacity w) in Ok (pymax 0.6 (1 - r * 0.4)).

(** [get_reservation_wage] *)
Definition get_reservation_wage (w : Worker) : result Q :=
  let reservation_hourly := base_reservation (skill_level w) in
  let reservation_hourly :=
    if negb (is_employed w) && (4 <? weeks_unemployed w)%Z
    then reservation_hourly * desperation_factor w
    else reservation_hourly in
  let? reservation_hourly :=
    (if Qgtb (debt w) 0
     then let? d := debt_desperation w in Ok (reservation_hourly * d)
     else Ok reservation_hourly) in
  Ok (reservation_hourly * work_hours w).

(** [work_for_firm(firm, wage_rate)]; [firm_profit] is [firm.profit] as the
    call reads it.  The Python return value ([None] on the early return,
    the value produced otherwise) comes first. *)
Definition work_for_firm (firm : nat) (firm_profit : Q) (wage_rate : Q)
    (w : Worker) (g : Rng) : option Q * Worker * Rng :=
  if is_employed w then (None, w, g)
  else
    let w := set_is_employed true w in
    let w := set_employer (Some firm) w in
    let w := set_wage wage_rate w in
    let w := set_weeks_unemployed 0%Z w in
    let value_produced := get_productive_value w in
    let gross_pay := wage w * work_hours w in
    let (tax_rate, g) := get_tax_rate w g in
    let taxes := gross_pay * tax_rate in
    let net_pay := gross_pay - taxes in
    let w := set_wealth (wealth w + net_pay) w in
    let w := set_total_wages_earned (total_wages_earned w + gross_pay) w in
    let w := set_total_taxes_paid (total_taxes_paid w + taxes) w in
    if owns_firm w && Qgtb firm_profit 0 then
      let (ownership_share, g) := rng_uniform 0.01 0.05 g in
      let dividend := firm_profit * ownership_share in
      (Some value_produced, set_wealth (wealth w + dividend) w, g)
    else (Some value_produced, w, g).

(** [lose_job] *)
Definition lose_job (w : Worker) : Worker :=
  set_wage 0 (set_employer None (set_is_employed false w)).

(** [get_unmet_needs] *)
Definition get_unmet_needs (w : Worker) : Q :=
  let affordable_needs := pymin (wealth w) (basic_needs w) in
  basic_needs w - affordable_needs.

(** [handle_debt_mechanics]; sums and differences are exact here, on
    binary64 numbers each is rounded. *)
Definition handle_debt_mechanics (w : Worker) : Worker :=
  if Qgtb (debt w) 0 then
    let weekly_interest := debt w * (interest_rate w / 52) in
    let w := set_debt (debt w + weekly_interest) w in
    let min_payment := pymax (debt w * 0.02) 20 in
    let w :=
      if Qgeb (wealth w) min_payment then
        let payment := pymin min_payment (debt w) in
        let w := set_wealth (wealth w - payment) w in
        set_debt (debt w - payment) w
      else w in
    if Qgtb (debt w) (debt_capacity w)
       && Qgtb (get_unmet_needs w) (basic_needs w * 2)
    then set_debt (debt_capacity w) (set_is_bankrupt true w)
    else w
  else w.

(** [calculate_financial_stress]: the stress is stored and returned. *)
Definition calculate_financial_stress (w : Worker) : result (Q * Worker) :=
  let stress_factors := if negb (is_employed w) then [0.4] else [] in
  let? stress_factors :=
    (if Qgtb (debt w) 0
     then let? debt_ratio := pydiv (debt w) (debt_capacity w) in
          Ok (stress_factors ++ [debt_ratio * 0.3])
     else Ok stress_factors) in
  let? unmet_ratio := pydiv (get_unmet_needs w) (basic_needs w) in
  let stress_factors := stress_factors ++ [pymin unmet_ratio 1.0 * 0.3] in
  let stress := pymin (pysum stress_factors) 1.0 in
  Ok (stress, set_financial_stress stress w).

(** The needs payment at the head of [step]. *)
Definition pay_basic_needs (w : Worker) : Worker :=
  if negb (is_employed w) then
    let w := set_weeks_unemployed (weeks_unemployed w + 1)%Z w in
    let needs_cost := basic_needs w in
    if Qgeb (wealth w) needs_cost then set_wealth (wealth w - needs_cost) w
    else
      let shortfall := needs_cost - wealth w in
      set_wealth 0 (set_debt (debt w + shortfall) w)
  else
    let needs_cost := basic_needs w in
    if Qgeb (wealth w) needs_cost then set_wealth (wealth w - needs_cost) w
    else w.

Definition decay_rate (s : Skill) : Q :=
  match s with high => 0.02 | medium => 0.03 | low => 0.05 end.

(** The wealth decay and the investment growth at the tail of [step]. *)
Definition wealth_decay (w : Worker) : Worker :=
  if negb (is_employed w) && Qgtb (wealth w) 0
  then set_wealth (wealth w * (1 - decay_rate (skill_level w))) w
  else w.

Definition wealth_growth (w : Worker) (g : Rng) : Worker * Rng :=
  if Skill_eqb (skill_level w) high && Qgtb (wealth w) 10000 then
    let (u, g) := rng_random g in
    if Qltb u 0.3 then
      let (factor, g) := rng_uniform 1.001 1.003 g in
      (set_wealth (wealth w * factor) w, g)
    else (w, g)
  else (w, g).

(** [step] *)
Definition step (w : Worker) (g : Rng) : result (Worker * Rng) :=
  let? sw := calculate_financial_stress w in
  let w := snd sw in
  let w := pay_basic_needs w in
  let w := handle_debt_mechanics w in
  let w := wealth_decay w in
  Ok (wealth_growth w g).

End SimpleWorkerAgent.

(** ** Firms and the model: the objects *)

Module FirmState.
Import SimpleWorkerAgent.

(** A dictionary keyed by the three skill levels. *)
Record SkillMap : Type := mkSkillMap { at_high : Q; at_medium : Q; at_low : Q }.

Definition lookup (m : SkillMap) (s : Skill) : Q :=
  match s with high => at_high m | medium => at_medium m | low => at_low m end.

Definition bump (m : SkillMap) (s : Skill) : SkillMap :=
  match s with
  | high => mkSkillMap (at_high m + 1) (at_medium m) (at_low m)
  | medium => mkSkillMap (at_high m) (at_medium m + 1) (at_low m)
  | low => mkSkillMap (at_high m) (at_medium m) (at_low m + 1)
  end.

Record Firm : Type := mkFirm {
  unique_id : Z;
  capital : Q;
  profit : Q;
  total_surplus_value : Q;
  wages_paid : Q;
  taxes_paid : Q;
  workers : list nat;
  max_workers : Z;
  preferred_skill_mix : SkillMap;
  wage_rates : SkillMap;
  tax_rate : Q;
  wage_share : Q;
  surplus_value_rate : Q;
  productivity_factor : Q;
  base_wage_rate : Q;
  demand_multiplier : Q;
  hiring_aggressiveness : Q;
  firing_threshold : Q
}.

Definition set_capital (v : Q) (f : Firm) : Firm :=
  mkFirm (unique_id f) v (profit f) (total_surplus_value f) (wages_paid f)
    (taxes_paid f) (workers f) (max_workers f) (preferred_skill_mix f)
    (wage_rates f) (tax_rate f) (wage_share f) (surplus_value_rate f)
    (productivity_factor f) (base_wage_rate f) (demand_multiplier f)
    (hiring_aggressiveness f) (firing_threshold f).

Definition set_profit (v : Q) (f : Firm) : Firm :=
  mkFirm (unique_id f) (capital f) v (total_surplus_value f) (wages_paid f)
    (taxes_paid f) (workers f) (max_workers f) (preferred_skill_mix f)
    (wage_rates f) (tax_rate f) (wage_share f) (surplus_value_rate f)
    (productivity_factor f) (base_wage_rate f) (demand_multiplier f)
    (hiring_aggressiveness f) (firing_threshold f).

Definition set_total_surplus_value (v : Q) (f : Firm) : Firm :=
  mkFirm (unique_id f) (capital f) (profit f) v (wages_paid f)
    (taxes_paid f) (workers f) (max_workers f) (preferred_skill_mix f)
    (wage_rates f) (tax_rate f) (wage_share f) (surplus_value_rate f)
    (productivity_factor f) (base_wage_rate f) (demand_multiplier f)
    (hiring_aggressiveness f) (firing_threshold f).

Definition set_wages_paid (v : Q) (f : Firm) : Firm :=
  mkFirm (unique_id f) (capital f) (profit f) (total_surplus_value f) v
    (taxes_paid f) (workers f) (max_workers f) (preferred_skill_mix f)
    (wage_rates f) (tax_rate f) (wage_share f) (surplus_value_rate f)
    (productivity_factor f) (base_wage_rate f) (demand_multiplier f)
    (hiring_aggressiveness f) (firing_threshold f).

Definition set_taxes_paid (v : Q) (f : Firm) : Firm :=
  mkFirm (unique_id f) (capital f) (profit f) (total_surplus_value f)
    (wages_paid f) v (workers f) (max_workers f) (preferred_skill_mix f)
    (wage_rates f) (tax_rate f) (wage_share f) (surplus_value_rate f)
    (productivity_factor f) (base_wage_rate f) (demand_multiplier f)
    (hiring_aggressiveness f) (firing_threshold f).

Definition set_workers (v : list nat) (f : Firm) : Firm :=
  mkFirm (unique_id f) (capital f) (profit f) (total_surplus_value f)
    (wages_paid f) (taxes_paid f) v (max_workers f) (preferred_skill_mix f)
    (wage_rates f) (tax_rate f) (wage_share f) (surplus_value_rate f)
    (productivity_factor f) (base_wage_rate f) (demand_multiplier f)
    (hiring_aggressiveness f) (firing_threshold f).

End FirmState.

Module ModelState.
Import SimpleWorkerAgent FirmState.

Record Model : Type := mkModel {
  num_workers : Z;
  num_firms : Z;
  num_owners : Z;
  price_index : Q;
  inflation_rate : Q;
  employed_workers : list nat;
  unemployed_workers : list nat;
  worker_agents : list Worker;
  firm_agents : list Firm
}.

Definition set_price_index (v : Q) (m : Model) : Model :=
  mkModel (num_workers m) (num_firms m) (num_owners m) v (inflation_rate m)
    (employed_workers m) (unemployed_workers m) (worker_agents m)
    (firm_agents m).

Definition set_employed_workers (v : list nat) (m : Model) : Model :=
  mkModel (num_workers m) (num_firms m) (num_owners m) (price_index m)
    (inflation_rate m) v (unemployed_workers m) (worker_agents m)
    (firm_agents m).

Definition set_unemployed_workers (v : list nat) (m : Model) : Model :=
  mkModel (num_workers m) (num_firms m) (num_owners m) (price_index m)
    (inflation_rate m) (employed_workers m) v (worker_agents m)
    (firm_agents m).

Definition set_worker_agents (v : list Worker) (m : Model) : Model :=
  mkModel (num_workers m) (num_firms m) (num_owners m) (price_index m)
    (inflation_rate m) (employed_workers m) (unemployed_workers m) v
    (firm_agents m).

Definition set_firm_agents (v : list Firm) (m : Model) : Model :=
  mkModel (num_workers m) (num_firms m) (num_owners m) (price_index m)
    (inflation_rate m) (employed_workers m) (unemployed_workers m)
    (worker_agents m) v.

(** The whole mutable world of a run: the model with its agents, and the
    random source. *)
Record World : Type := mkWorld { model : Model; rng : Rng }.

(** Computations that read and write the world and may raise. *)
Definition M (A : Type) : Type := World -> result (A * World).

Definition ret {A} (a : A) : M A := fun s => Ok (a, s).

Definition bind {A B} (m : M A) (k : A -> M B) : M B :=
  fun s => match m s with
           | Ok (a, s') => k a s'
           | Raise e => Raise e
           end.

Definition lift {A} (r : result A) : M A :=
  fun s => match r with Ok a => Ok (a, s) | Raise e => Raise e end.

Definition raise {A} (e : exn) : M A := fun _ => Raise e.

Definition get_model : M Model := fun s => Ok (model s, s).

Definition modify_model (f : Model -> Model) : M unit :=
  fun s => Ok (tt, mkWorld (f (model s)) (rng s)).

Definition with_rng {A} (f : Rng -> A * Rng) : M A :=
  fun s => let (a, g) := f (rng s) in Ok (a, mkWorld (model s) g).

Definition random : M Q := with_rng rng_random.
Definition uniform (a b : Q) : M Q := with_rng (rng_uniform a b).

(** [random.choice(xs)] *)
Definition choice (xs : list nat) : M nat :=
  bind (with_rng (rng_below (length xs))) (fun k =>
  match nth_error xs k with
  | Some x => ret x
  | None => raise IndexError
  end).

(** Dereferencing a worker or a firm, and writing the object back. *)
Definition worker_at (i : nat) : M Worker :=
  fun s => match nth_error (worker_agents (model s)) i with
           | Some w => Ok (w, s)
           | None => Raise DanglingReference
           end.

Definition set_worker (i : nat) (w : Worker) : M unit :=
  modify_model (fun m => set_worker_agents (set_nth i w (worker_agents m)) m).

Definition firm_at (i : nat) : M Firm :=
  fun s => match nth_error (firm_agents (model s)) i with
           | Some f => Ok (f, s)
           | None => Raise DanglingReference
           end.

Definition set_firm (i : nat) (f : Firm) : M unit :=
  modify_model (fun m => set_firm_agents (set_nth i f (firm_agents m)) m).

End ModelState.

Declare Scope world_scope.
Delimit Scope world_scope with world.
Notation "x <- m ;; k" := (ModelState.bind m (fun x => k))
  (at level 61, m at next level, right associativity) : world_scope.
Notation "m ;; k" := (ModelState.bind m (fun _ => k))
  (at level 61, right associativity) : world_scope.

(** ** Firms: [firm_agent_simple.py] *)

Module SimpleFirmAgent.
Import SimpleWorkerAgent FirmState ModelState.
Local Open Scope world_scope.

(** [_determine_skill_preferences]; the quotients are exact here, on
    binary64 numbers each is rounded and their sum need not be 1. *)
Definition _determine_skill_preferences (g : Rng) : result (SkillMap * Rng) :=
  let (h, g) := rng_uniform 0.1 0.3 g in
  let (m, g) := rng_uniform 0.2 0.4 g in
  let (l, g) := rng_uniform 0.4 0.7 g in
  let total := pysum [h; m; l] in
  let? h' := pydiv h total in
  let? m' := pydiv m total in
  let? l' := pydiv l total in
  Ok (mkSkillMap h' m' l', g).

(** [SimpleFirmAgent.__init__(unique_id, model)] *)
Definition init (uid : Z) (g : Rng) : result (Firm * Rng) :=
  let (capital0, g) := rng_uniform 50000 200000 g in
  let (k, g) := rng_below 51 g in
  let max_workers0 := (30 + Z.of_nat k)%Z in
  let? pg := _determine_skill_preferences g in
  let (prefs, g) := pg in
  let (rate_high, g) := rng_uniform 25 45 g in
  let (rate_medium, g) := rng_uniform 15 25 g in
  let (rate_low, g) := rng_uniform 8 18 g in
  let (tax, g) := rng_uniform 0.20 0.35 g in
  let (share, g) := rng_uniform 0.65 0.75 g in
  let (prod_factor, g) := rng_uniform 0.9 1.1 g in
  let (base_rate, g) := rng_uniform 12.0 20.0 g in
  let (demand, g) := rng_uniform 0.9 1.1 g in
  let (aggressiveness, g) := rng_uniform 0.4 0.6 g in
  let (threshold, g) := rng_uniform 0.1 0.2 g in
  Ok (mkFirm uid capital0 0 0 0 0 [] max_workers0 prefs
        (mkSkillMap rate_high rate_medium rate_low) tax share (1 - share)
        prod_factor base_rate demand aggressiveness threshold, g).

(** The counting loop of [get_current_skill_mix]. *)
Fixpoint count_skills (roster : list nat) (skill_counts : SkillMap) : M SkillMap :=
  match roster with
  | [] => ret skill_counts
  | worker :: rest =>
      w <- worker_at worker ;;
      count_skills rest (bump skill_counts (skill_level w))
  end.

(** [get_current_skill_mix]; the quotients are exact here, on binary64
    numbers each is rounded and their sum need not be 1. *)
Definition get_current_skill_mix (self : nat) : M SkillMap :=
  f <- firm_at self ;;
  match workers f with
  | [] => ret (mkSkillMap 0 0 0)
  | _ =>
      skill_counts <- count_skills (workers f) (mkSkillMap 0 0 0) ;;
      let total := of_nat (length (workers f)) in
      h <- lift (pydiv (at_high skill_counts) total) ;;
      m <- lift (pydiv (at_medium skill_counts) total) ;;
      l <- lift (pydiv (at_low skill_counts) total) ;;
      ret (mkSkillMap h m l)
  end.

(** [calculate_worker_wage_offer(worker)] *)
Definition calculate_worker_wage_offer (self worker : nat) : M Q :=
  f <- firm_at self ;;
  w <- worker_at worker ;;
  let base_hourly_rate := lookup (wage_rates f) (skill_level w) in
  current_mix <- get_current_skill_mix self ;;
  wage_multiplier <-
    (if Qltb (lookup current_mix (skill_level w))
             (lookup (preferred_skill_mix f) (skill_level w))
     then uniform 1.1 1.3
     else uniform 0.8 1.0) ;;
  let final_hourly_rate := base_hourly_rate * wage_multiplier in
  let weekly_wage := final_hourly_rate * work_hours w in
  reservation <- lift (get_reservation_wage w) ;;
  ret (pymax weekly_wage reservation).

(** [worker.work_for_firm(self, wage_rate)] on the shared worker object. *)
Definition call_work_for_firm (self worker : nat) (wage_rate : Q) : M (option Q) :=
  f <- firm_at self ;;
  w <- worker_at worker ;;
  r <- with_rng (fun g =>
         let '(v, w', g') := work_for_firm self (profit f) wage_rate w g in
         ((v, w'), g')) ;;
  set_worker worker (snd r) ;;
  ret (fst r).

(** [hire_worker(worker, hourly_wage)] *)
Definition hire_worker (self worker : nat) (hourly_wage : Q) : M bool :=
  f <- firm_at self ;;
  set_firm self (set_workers (workers f ++ [worker]) f) ;;
  call_work_for_firm self worker hourly_wage ;;
  m <- get_model ;;
  (if mem worker (unemployed_workers m)
   then modify_model
          (fun m => set_unemployed_workers
                      (remove_first worker (unemployed_workers m)) m)
   else ret tt) ;;
  m <- get_model ;;
  (if negb (mem worker (employed_workers m))
   then modify_model
          (fun m => set_employed_workers (employed_workers m ++ [worker]) m)
   else ret tt) ;;
  ret true.

(** [fire_worker(worker)] *)
Definition fire_worker (self worker : nat) : M bool :=
  f <- firm_at self ;;
  if mem worker (workers f) then
    set_firm self (set_workers (remove_first worker (workers f)) f) ;;
    w <- worker_at worker ;;
    set_worker worker (lose_job w) ;;
    m <- get_model ;;
    (if mem worker (employed_workers m)
     then modify_model
            (fun m => set_employed_workers
                        (remove_first worker (employed_workers m)) m)
     else ret tt) ;;
    m <- get_model ;;
    (if negb (mem worker (unemployed_workers m))
     then modify_model
            (fun m => set_unemployed_workers
                        (unemployed_workers m ++ [worker]) m)
     else ret tt) ;;
    ret true
  else ret false.

(** [should_hire_worker(worker)]: on a favourable draw the worker is hired
    here, at the weekly offer. *)
Definition should_hire_worker (self worker : nat) : M bool :=
  f <- firm_at self ;;
  if negb (mem worker (workers f)) then
    if (max_workers f <=? Z.of_nat (length (workers f)))%Z then ret false
    else
      w <- worker_at worker ;;
      current_mix <- get_current_skill_mix self ;;
      let preferred_count := lookup (preferred_skill_mix f) (skill_level w) in
      let current_count := lookup current_mix (skill_level w) in
      let hire_probability :=
        if Qltb current_count preferred_count then 0.8 else 0.3 in
      let hire_probability :=
        if Qgtb (profit f) 0 then hire_probability * 1.5
        else if Qltb (profit f) (-1000) then hire_probability * 0.3
        else hire_probability in
      u <- random ;;
      if Qltb u hire_probability then
        offer <- calculate_worker_wage_offer self worker ;;
        hire_worker self worker offer ;;
        ret true
      else ret false
  else ret false.

(** The firing half of [_make_employment_decisions]. *)
Definition firing_decision (self : nat) : M unit :=
  f <- firm_at self ;;
  if Qltb (profit f) (-500) && (5 <? length (workers f))%nat then
    let fire_probability := 0.45 in
    u <- random ;;
    if Qltb u fire_probability then
      worker_to_fire <- choice (workers f) ;;
      fire_worker self worker_to_fire ;;
      ret tt
    else ret tt
  else ret tt.

(** The body of [for _ in range(min(3, len(unemployed_workers)))], run
    [k] more times on the local copy of the unemployed list. *)
Fixpoint hiring_loop (self : nat) (k : nat) (unemployed_workers : list nat) : M unit :=
  match k with
  | O => ret tt
  | S k' =>
      f <- firm_at self ;;
      if (max_workers f <=? Z.of_nat (length (workers f)))%Z then ret tt
      else
        potential_worker <- choice unemployed_workers ;;
        hired <- should_hire_worker self potential_worker ;;
        if hired then
          wage_offer <- calculate_worker_wage_offer self potential_worker ;;
          w <- worker_at potential_worker ;;
          reservation <- lift (get_reservation_wage w) ;;
          if Qgeb wage_offer reservation then
            hourly <- lift (pydiv wage_offer (work_hours w)) ;;
            hire_worker self potential_worker hourly ;;
            hiring_loop self k' (remove_first potential_worker unemployed_workers)
          else hiring_loop self k' unemployed_workers
        else hiring_loop self k' unemployed_workers
  end.

(** The hiring half of [_make_employment_decisions]. *)
Definition hiring_decision (self : nat) : M unit :=
  f <- firm_at self ;;
  if (Z.of_nat (length (workers f)) <? max_workers f)%Z then
    m <- get_model ;;
    let unemployed_workers := ModelState.unemployed_workers m in
    match unemployed_workers with
    | [] => ret tt
    | _ => hiring_loop self (Nat.min 3 (length unemployed_workers))
             unemployed_workers
    end
  else ret tt.

(** [_make_employment_decisions] *)
Definition _make_employment_decisions (self : nat) : M unit :=
  firing_decision self ;;
  hiring_decision self.

(** The production loop of [step], [for worker in self.workers], carrying
    [total_production_value]. *)
Fixpoint produce (self : nat) (roster : list nat) (total_production_value : Q) : M Q :=
  match roster with
  | [] => ret total_production_value
  | worker :: rest =>
      w <- worker_at worker ;;
      let worker_value := get_productive_value w in
      let total_production_value := total_production_value + worker_value in
      wage_offer <- calculate_worker_wage_offer self worker ;;
      hourly <- lift (pydiv wage_offer (work_hours w)) ;;
      call_work_for_firm self worker hourly ;;
      w <- worker_at worker ;;
      f <- firm_at self ;;
      set_firm self (set_wages_paid (wages_paid f + wage w) f) ;;
      produce self rest total_production_value
  end.

(** The settlement of [step] after the production loop. *)
Definition settle (self : nat) (total_production_value : Q) : M unit :=
  f <- firm_at self ;;
  let f := set_total_surplus_value (total_production_value - wages_paid f) f in
  let gross_profit := total_surplus_value f in
  let f := set_taxes_paid (pymax 0 (gross_profit * tax_rate f)) f in
  let f := set_profit (gross_profit - taxes_paid f) f in
  let f := set_capital (capital f + profit f) f in
  set_firm self f.

(** [step] *)
Definition step (self : nat) : M unit :=
  f <- firm_at self ;;
  set_firm self (set_wages_paid 0 (set_total_surplus_value 0 f)) ;;
  f <- firm_at self ;;
  total_production_value <- produce self (workers f) 0 ;;
  settle self total_production_value ;;
  _make_employment_decisions self.

(** [get_total_surplus_value] and [get_exploitation_rate] *)
Definition get_total_surplus_value (f : Firm) : Q := total_surplus_value f.

Definition get_exploitation_rate (f : Firm) : result Q :=
  let total_value := total_surplus_value f + wages_paid f in
  if Qgtb total_value 0 then pydiv (total_surplus_value f) total_value
  else Ok 0.

End SimpleFirmAgent.

(** ** The economy: [run_simple_simulation.py] *)

(** [sorted] on numbers: the Standard Library's stable merge sort under
    [<=]. *)
Module QOrder <: TotalLeBool.
Definition t := Q.
Definition leb := Qle_bool.
Lemma leb_total : forall a b, leb a b = true \/ leb b a = true.
Proof.
  intros a b. unfold leb. rewrite !Qle_bool_iff.
  destruct (Qlt_le_dec a b) as [H | H]; [left; apply Qlt_le_weak, H | right; exact H].
Qed.
End QOrder.

Module QSort := Sort QOrder.

Module SimpleCapitalistModel.
Import SimpleWorkerAgent FirmState ModelState.
Local Open Scope world_scope.

Definition sorted (xs : list Q) : list Q := QSort.sort xs.

(** [enumerate(xs)] *)
Definition enumerate {A} (xs : list A) : list (nat * A) :=
  combine (seq 0 (length xs)) xs.

Definition get_workers (m : Model) : list Worker := worker_agents m.
Definition get_firms (m : Model) : list Firm := firm_agents m.

(** [get_wage_share] *)
Definition get_wage_share (m : Model) : result Q :=
  let total_wages := pysum (map wage (get_workers m)) in
  let total_surplus :=
    pysum (map SimpleFirmAgent.get_total_surplus_value (get_firms m)) in
  let total_output := total_wages + total_surplus in
  if Qgtb total_output 0 then pydiv total_wages total_output else Ok 0.

(** The accumulation loop of [get_avg_exploitation_rate]. *)
Fixpoint sum_exploitation (ws : list Worker) (total_exploitation : Q) : result Q :=
  match ws with
  | [] => Ok total_exploitation
  | worker :: rest =>
      let value_produced := get_productive_value worker in
      if Qgtb value_produced 0 then
        let? r := pydiv (wage worker) value_produced in
        let exploitation_rate := 1 - r in
        sum_exploitation rest (total_exploitation + exploitation_rate)
      else sum_exploitation rest total_exploitation
  end.

(** [get_avg_exploitation_rate] *)
Definition get_avg_exploitation_rate (m : Model) : result Q :=
  let employed := filter is_employed (get_workers m) in
  match employed with
  | [] => Ok 0
  | _ =>
      let? total_exploitation := sum_exploitation employed 0 in
      pydiv total_exploitation (of_nat (length employed))
  end.

(** The collection loop of [get_avg_debt_to_income]. *)
Fixpoint collect_ratios (ws : list Worker) (ratios : list Q) : result (list Q) :=
  match ws with
  | [] => Ok ratios
  | worker :: rest =>
      let? r := get_debt_to_income_ratio worker in
      match r with
      | Finite q => collect_ratios rest (ratios ++ [q])
      | Infinite => collect_ratios rest ratios
      end
  end.

(** [get_avg_debt_to_income] *)
Definition get_avg_debt_to_income (m : Model) : result Q :=
  let employed :=
    filter (fun w => is_employed w && Qgtb (wage w) 0) (get_workers m) in
  match employed with
  | [] => Ok 0
  | _ =>
      let? ratios := collect_ratios employed [] in
      match ratios with
      | [] => Ok 0
      | _ => pydiv (pysum ratios) (of_nat (length ratios))
      end
  end.

(** [compute_gini], in exact arithmetic; [Binary64.compute_gini] is the
    same expression on binary64 numbers. *)
Definition compute_gini (m : Model) : result Q :=
  let workers_wealth := map wealth (worker_agents m) in
  let x := sorted workers_wealth in
  let n := length x in
  let? B :=
    pydiv
      (pysum (map (fun ix => snd ix * inject_Z (Z.of_nat n - Z.of_nat (fst ix)))
                  (enumerate x)))
      (of_nat n * pysum x) in
  let? inv_n := pydiv 1 (of_nat n) in
  Ok (1 + inv_n - 2 * B).

(** What [datacollector.collect] does to the agents: the reporter of the
    average financial stress calls [calculate_financial_stress] on the
    workers in turn, and [collect] swallows whatever a reporter raises.
    The recorded rows belong to the collector, not to the model. *)
Fixpoint collect_stress (ws : list Worker) : list Worker :=
  match ws with
  | [] => []
  | w :: rest =>
      match calculate_financial_stress w with
      | Ok (_, w') => w' :: collect_stress rest
      | Raise _ => w :: rest
      end
  end.

Definition collect : M unit :=
  modify_model (fun m => set_worker_agents (collect_stress (worker_agents m)) m).

(** The two creation loops of [__init__]. *)
Fixpoint create_workers (n : nat) (i : Z) (g : Rng) : list Worker * Rng :=
  match n with
  | O => ([], g)
  | S n' =>
      let (worker, g) := SimpleWorkerAgent.init i 40 g in
      let (rest, g) := create_workers n' (i + 1)%Z g in
      (worker :: rest, g)
  end.

Fixpoint create_firms (n : nat) (uid : Z) (g : Rng) : result (list Firm * Rng) :=
  match n with
  | O => Ok ([], g)
  | S n' =>
      let? fg := SimpleFirmAgent.init uid g in
      let (firm, g) := fg in
      let? rg := create_firms n' (uid + 1)%Z g in
      let (rest, g) := rg in
      Ok (firm :: rest, g)
  end.

(** [SimpleCapitalistModel.__init__(num_workers, num_firms, num_owners=0)];
    [range(n)] is empty for [n <= 0].  The last division is the one in the
    closing log line, [firm_owners/num_workers*100]. *)
Definition init (num_workers num_firms num_owners : Z) (g : Rng) : result World :=
  let (ws, g) := create_workers (Z.to_nat num_workers) 0%Z g in
  let? fg := create_firms (Z.to_nat num_firms) num_workers g in
  let (fs, g) := fg in
  let m := mkModel num_workers num_firms num_owners 1.0 0.02
             [] (seq 0 (Z.to_nat num_workers)) ws fs in
  let? r := collect (mkWorld m g) in
  let world := snd r in
  let firm_owners :=
    length (filter owns_firm (get_workers (model world))) in
  let? _ := pydiv (of_nat firm_owners) (inject_Z num_workers) in
  Ok world.

(** [worker.step()] on the shared worker object. *)
Definition call_worker_step (i : nat) : M unit :=
  w <- worker_at i ;;
  r <- (fun s => match SimpleWorkerAgent.step w (rng s) with
                 | Ok (w', g') => Ok (w', mkWorld (model s) g')
                 | Raise e => Raise e
                 end) ;;
  set_worker i r.

Fixpoint step_workers (refs : list nat) : M unit :=
  match refs with
  | [] => ret tt
  | i :: rest => call_worker_step i ;; step_workers rest
  end.

Fixpoint step_firms (refs : list nat) : M unit :=
  match refs with
  | [] => ret tt
  | i :: rest => SimpleFirmAgent.step i ;; step_firms rest
  end.

Section Step.

(** [x ** (1/52)], which has no rational value in general. *)
Variable root52 : Q -> Q.

(** [step] *)
Definition step : M unit :=
  m <- get_model ;;
  let weekly_inflation := root52 (1 + inflation_rate m) - 1 in
  noise <- uniform (-0.001) 0.001 ;;
  modify_model
    (fun m => set_price_index
                (price_index m * (1 + weekly_inflation + noise)) m) ;;
  m <- get_model ;;
  step_workers (seq 0 (length (worker_agents m))) ;;
  step_firms (seq 0 (length (firm_agents m))) ;;
  collect.

(** [for step in range(num_steps): model.step()] *)
Fixpoint run (num_steps : nat) : M unit :=
  match num_steps with
  | O => ret tt
  | S k => step ;; run k
  end.

End Step.

End SimpleCapitalistModel.

(** ** Concrete workers and economies *)

Module Scenarios.
Import SimpleWorkerAgent FirmState ModelState.

(** A fresh worker as [__init__] leaves it, with the drawn attributes
    given. *)
Definition fresh_worker (uid : Z) (skill : Skill) (wealth0 capacity rate prod : Q)
    (needs : Q) : Worker :=
  mkWorker uid 40 skill 0 0 false None wealth0 0 0 0 0%Z 0
    capacity rate false prod false needs.

(** Scenario A: two workers with wealth 1000 and no debt. *)
Definition scenario_A : Model :=
  mkModel 2 1 0 1.0 0.02 [] [0%nat; 1%nat]
    [fresh_worker 0 medium 1000 6000 0.13 1.2 500;
     fresh_worker 1 medium 1000 9000 0.20 1.1 500]
    [].

(** Scenario B: an unemployed worker with no wealth, no debt and weekly
    needs of 500, at the top interest rate. *)
Definition scenario_B : Worker := fresh_worker 0 medium 0 6000 0.26 1.2 500.

(** A low-skill worker twenty weeks out of work, without debt. *)
Definition long_unemployed : Worker :=
  set_weeks_unemployed 20%Z (fresh_worker 0 low 0 6000 0.13 1.0 400).

(** A worker in a job. *)
Definition employed_worker : Worker :=
  set_wage 15 (set_employer (Some 0%nat) (set_is_employed true
    (fresh_worker 0 low 300 6000 0.13 1.0 400))).

Definition constant_rng (u : Q) : Rng := mkRng (fun _ => u) 0.

(** A stand-in for [x ** (1/52)]: its value at 1.02, the only argument
    [step] passes, to six digits. *)
Definition root52 (x : Q) : Q := 1.000381.

(** A small economy that goes broke: [SimpleCapitalistModel(2, 1)] where
    the twelve draws of the two workers are 0.1 (low skill, wealth 200) and
    every later draw is 0.9 (so the firm hires no one in the first week). *)
Definition broke_rng : Rng :=
  mkRng (fun n => if (n <? 12)%nat then 0.1 else 0.9) 0.

Definition broke_economy : result World :=
  let? w := SimpleCapitalistModel.init 2 1 0 broke_rng in
  let? r := SimpleCapitalistModel.step root52 w in
  Ok (snd r).


(** A low-skill worker on the payroll of firm 0, with a stored wage. *)
Definition hired_worker (uid : Z) : Worker :=
  set_wage 400 (set_employer (Some 0%nat) (set_is_employed true
    (fresh_worker uid low 300 6000 0.13 1.0 400))).

(** A firm with the given roster, capacity and last profit. *)
Definition a_firm (uid : Z) (roster : list nat) (capacity : Z) (profit0 : Q) : Firm :=
  mkFirm uid 100000 profit0 0 0 0 roster capacity
    (mkSkillMap 0.2 0.3 0.5) (mkSkillMap 30 20 10) 0.25 0.7 0.3 1 15 1 0.5 0.15.

(** Scenario D: a firm with a roster of six and a last profit of -600. *)
Definition scenario_D : World :=
  mkWorld
    (mkModel 6 1 0 1.0 0.02 [0; 1; 2; 3; 4; 5]%nat []
       (map hired_worker [0; 1; 2; 3; 4; 5]%Z)
       [a_firm 6 [0; 1; 2; 3; 4; 5]%nat 40 (-600)])
    (constant_rng 0.1).

Definition scenario_D_after_firing : World :=
  match SimpleFirmAgent.firing_decision 0 scenario_D with
  | Ok (_, s) => s
  | Raise _ => scenario_D
  end.

(** A firm one place short of its capacity of 31: fifteen workers, each
    listed twice on the roster as the hiring loop left them, and one
    unemployed worker in the economy. *)
Definition crowded : World :=
  mkWorld
    (mkModel 16 1 0 1.0 0.02
       [0; 1; 2; 3; 4; 5; 6; 7; 8; 9; 10; 11; 12; 13; 14]%nat [15%nat]
       (map hired_worker [0; 1; 2; 3; 4; 5; 6; 7; 8; 9; 10; 11; 12; 13; 14]%Z
        ++ [fresh_worker 15 low 300 6000 0.13 1.0 400])
       [a_firm 16
          [0; 0; 1; 1; 2; 2; 3; 3; 4; 4; 5; 5; 6; 6; 7; 7; 8; 8; 9; 9;
           10; 10; 11; 11; 12; 12; 13; 13; 14; 14]%nat
          31 0])
    (constant_rng 0.1).


(** A hiring boom: [SimpleCapitalistModel(18, 1)] where the 108 draws of
    the eighteen workers are 0.9 (high skill, no debt) and every later draw
    is 0.1, which gives the firm a capacity of [30 + 5 = 35] and makes it
    accept every candidate; [boom_economy weeks] is the economy after that
    many calls of [model.step()]. *)
Definition boom_rng : Rng :=
  mkRng (fun n => if (n <? 108)%nat then 0.9 else 0.1) 0.

Definition boom_economy (weeks : nat) : result World :=
  let? w := SimpleCapitalistModel.init 18 1 0 boom_rng in
  let? r := SimpleCapitalistModel.run root52 weeks w in
  Ok (snd r).

End Scenarios.

(** ** The Gini estimator as the specification words it *)

Module Specification.

(** [sigma n f] is the sum of [f i] over [0 <= i < n]. *)
Fixpoint sigma (n : nat) (f : nat -> Q) : Q :=
  match n with
  | O => 0
  | S k => sigma k f + f k
  end.

(** For [x[0..n-1]]: with [B] the sum of [x[i] * (n - i)] over [n] times the
    sum of [x], the estimate is [1 + 1/n - 2 B]. *)
Definition gini_estimator (x : list Q) : result Q :=
  let n := length x in
  let? B := pydiv (sigma n (fun i => nth i x 0 * (of_nat n - of_nat i)))
                  (of_nat n * sigma n (fun i => nth i x 0)) in
  let? inv_n := pydiv 1 (of_nat n) in
  Ok (1 + inv_n - 2 * B).

(** Two outcomes agree: the same exception, or equal numbers. *)
Definition result_eq (a b : result Q) : Prop :=
  match a, b with
  | Ok p, Ok q => p == q
  | Raise e, Raise e' => e = e'
  | _, _ => False
  end.

End Specification.

(** ** Invariants *)

Module Invariants.
Import SimpleWorkerAgent FirmState ModelState.

(** The non-negativity invariant of a worker. *)
Definition nonneg (w : Worker) : Prop := 0 <= wealth w /\ 0 <= debt w.

(** What [SimpleWorkerAgent.__init__] guarantees about the attributes that
    are never assigned again: 40 hours, an interest rate in [0.10, 0.26], a
    debt capacity in [5000, 15000] and positive weekly needs. *)
Definition worker_params_ok (w : Worker) : Prop :=
  0 < work_hours w /\ 0 <= interest_rate w /\ 0 < debt_capacity w /\
  0 < basic_needs w.

Definition worker_ok (w : Worker) : Prop := nonneg w /\ worker_params_ok w.

(** The attributes of a worker that no method assigns. *)
Definition same_params (w w' : Worker) : Prop :=
  SimpleWorkerAgent.unique_id w' = SimpleWorkerAgent.unique_id w /\
  work_hours w' = work_hours w /\
  skill_level w' = skill_level w /\
  debt_capacity w' = debt_capacity w /\
  interest_rate w' = interest_rate w /\
  productivity w' = productivity w /\
  owns_firm w' = owns_firm w /\
  basic_needs w' = basic_needs w.

(** What [SimpleFirmAgent.__init__] guarantees about the wage table, and
    that the roster refers to workers of the model. *)
Definition firm_ok (n : nat) (f : Firm) : Prop :=
  0 <= at_high (wage_rates f) /\ 0 <= at_medium (wage_rates f) /\
  0 <= at_low (wage_rates f) /\
  Forall (fun i => (i < n)%nat) (workers f).

(** A well-formed world of [n] workers and [k] firms: draws in [0,1),
    every worker within its invariant, every firm well-formed, and the
    unemployed list referring to workers of the model. *)
Definition wf (n k : nat) (s : World) : Prop :=
  rng_ok (rng s) /\
  length (worker_agents (model s)) = n /\
  length (firm_agents (model s)) = k /\
  Forall worker_ok (worker_agents (model s)) /\
  Forall (firm_ok n) (firm_agents (model s)) /\
  Forall (fun i => (i < n)%nat) (unemployed_workers (model s)).

Definition world_ok (s : World) : Prop :=
  wf (length (worker_agents (model s))) (length (firm_agents (model s))) s.

(** [wp m Q s]: run from [s], the computation [m] returns, with a value
    and a final world that satisfy [Q]. *)
Definition wp {A} (m : M A) (Q : A -> World -> Prop) (s : World) : Prop :=
  match m s with
  | Ok (a, s') => Q a s'
  | Raise _ => False
  end.

(** The roster of the firm behind a reference (empty for a dangling one). *)
Definition roster (self : nat) (s : World) : list nat :=
  match nth_error (firm_agents (model s)) self with
  | Some f => workers f
  | None => []
  end.

(** The same conditions as a check that computes. *)
Definition worker_okb (w : Worker) : bool :=
  Qle_bool 0 (wealth w) && Qle_bool 0 (debt w) && Qltb 0 (work_hours w) &&
  Qle_bool 0 (interest_rate w) && Qltb 0 (debt_capacity w) &&
  Qltb 0 (basic_needs w).

Definition firm_okb (n : nat) (f : Firm) : bool :=
  Qle_bool 0 (at_high (wage_rates f)) && Qle_bool 0 (at_medium (wage_rates f)) &&
  Qle_bool 0 (at_low (wage_rates f)) &&
  forallb (fun i => (i <? n)%nat) (workers f).

Definition wf_check (n k : nat) (m : Model) : bool :=
  (length (worker_agents m) =? n)%nat && (length (firm_agents m) =? k)%nat &&
  forallb worker_okb (worker_agents m) && forallb (firm_okb n) (firm_agents m) &&
  forallb (fun i => (i <? n)%nat) (unemployed_workers m).

(** Runs in which firing is the only thing that changes the roster of the
    firm [self]: any number of firing decisions, with arbitrary changes of
    the world in between that leave that roster as it is. *)
Inductive firing_only (self : nat) : World -> World -> Prop :=
| firing_only_refl (s : World) : firing_only self s s
| firing_only_fire (s s1 s2 : World) :
    firing_only self s s1 ->
    SimpleFirmAgent.firing_decision self s1 = Ok (tt, s2) ->
    firing_only self s s2
| firing_only_other (s s1 s2 : World) :
    firing_only self s s1 ->
    roster self s2 = roster self s1 ->
    firing_only self s s2.

(** The wage fields stored on the workers of a roster, added up. *)
Fixpoint stored_wages (ws : list Worker) (refs : list nat) : Q :=
  match refs with
  | [] => 0
  | i :: rest =>
      match nth_error ws i with
      | Some w => wage w + stored_wages ws rest
      | None => stored_wages ws rest
      end
  end.

(** The value the workers of a roster produce, added up. *)
Fixpoint produced_value (ws : list Worker) (refs : list nat) : Q :=
  match refs with
  | [] => 0
  | i :: rest =>
      match nth_error ws i with
      | Some w => get_productive_value w + produced_value ws rest
      | None => produced_value ws rest
      end
  end.

End Invariants.

(** ** What a method leaves alone *)

Module Frames.
Import SimpleWorkerAgent FirmState ModelState.

(** The employment side of a worker: status, employer, wage and the two
    running totals. *)
Definition same_job (w w' : Worker) : Prop :=
  is_employed w' = is_employed w /\ employer w' = employer w /\
  wage w' = wage w /\
  total_wages_earned w' = total_wages_earned w /\
  total_taxes_paid w' = total_taxes_paid w.

End Frames.

(** ** More of the reporting: [get_unemployment_stats], [get_real_wage] *)

Module Reports.
Import SimpleWorkerAgent FirmState ModelState SimpleCapitalistModel.

(** The dictionary [get_unemployment_stats] returns. *)
Record UnemploymentStats : Type := mkUnemploymentStats {
  total_workers : nat;
  unemployed_count : nat;
  employed_count : nat;
  unemployment_rate : Q;
  long_term_unemployed : nat;
  long_term_unemployment_rate : Q
}.

(** [sum(1 for w in self.unemployed_workers if w.weeks_unemployed > 12)],
    over the references of the list. *)
Fixpoint count_long_term (ws : list Worker) (refs : list nat) (acc : nat)
    : result nat :=
  match refs with
  | [] => Ok acc
  | i :: rest =>
      match nth_error ws i with
      | Some w =>
          count_long_term ws rest
            (if (12 <? weeks_unemployed w)%Z then (acc + 1)%nat else acc)
      | None => Raise DanglingReference
      end
  end.

(** [get_unemployment_stats] *)
Definition get_unemployment_stats (m : Model) : result UnemploymentStats :=
  let total_workers := length (get_workers m) in
  let unemployed_count := length (unemployed_workers m) in
  let employed_count := length (employed_workers m) in
  let? long_term_unemployed :=
    count_long_term (worker_agents m) (unemployed_workers m) 0 in
  let? unemployment_rate :=
    if (0 <? total_workers)%nat
    then pydiv (of_nat unemployed_count) (of_nat total_workers) else Ok 0 in
  let? long_term_unemployment_rate :=
    if (0 <? total_workers)%nat
    then pydiv (of_nat long_term_unemployed) (of_nat total_workers) else Ok 0 in
  Ok (mkUnemploymentStats total_workers unemployed_count employed_count
        unemployment_rate long_term_unemployed long_term_unemployment_rate).

(** [SimpleWorkerAgent.get_real_wage], for a worker of the model [m]: the
    model always has a [price_index], so the division is the branch
    taken. *)
Definition get_real_wage (m : Model) (w : Worker) : result Q :=
  pydiv (wage w) (price_index m).

End Reports.

(** ** What a run keeps *)

Module Ledger.
Import SimpleWorkerAgent FirmState ModelState Invariants.

(** The books of a worker: the wage is not negative, and the taxes paid
    over a lifetime lie between 5% and 30% of the wages earned, the two
    ends of the tax brackets. *)
Definition worker_books (w : Worker) : Prop :=
  0 <= wage w /\
  0.05 * total_wages_earned w <= total_taxes_paid w /\
  total_taxes_paid w <= 0.30 * total_wages_earned w.

(** A worker then and now: the attributes set at construction, the
    bankruptcy flag, and the running totals, which only grow. *)
Definition worker_history (w w' : Worker) : Prop :=
  same_params w w' /\ is_bankrupt w' = is_bankrupt w /\
  total_wages_earned w <= total_wages_earned w' /\
  total_taxes_paid w <= total_taxes_paid w'.

(** The books of a firm: the wage bill is not negative, and the roster
    has at most one entry more than the capacity. *)
Definition firm_books (f : Firm) : Prop :=
  0 <= wages_paid f /\
  (Z.of_nat (length (workers f)) <= max_workers f + 1)%Z.

(** The attributes of a firm that no method assigns. *)
Definition firm_static (f f' : Firm) : Prop :=
  FirmState.unique_id f' = FirmState.unique_id f /\
  max_workers f' = max_workers f /\
  preferred_skill_mix f' = preferred_skill_mix f /\
  wage_rates f' = wage_rates f /\
  tax_rate f' = tax_rate f /\
  wage_share f' = wage_share f /\
  surplus_value_rate f' = surplus_value_rate f /\
  productivity_factor f' = productivity_factor f /\
  base_wage_rate f' = base_wage_rate f /\
  demand_multiplier f' = demand_multiplier f /\
  hiring_aggressiveness f' = hiring_aggressiveness f /\
  firing_threshold f' = firing_threshold f.

(** The two employment lists of the model list every worker exactly
    once between them. *)
Definition partitioned (m : Model) : Prop :=
  Permutation (employed_workers m ++ unemployed_workers m)
    (seq 0 (length (worker_agents m))).

(** The attributes of the model that the agents never assign. *)
Definition same_header (m m' : Model) : Prop :=
  num_workers m' = num_workers m /\ num_firms m' = num_firms m /\
  num_owners m' = num_owners m /\ price_index m' = price_index m /\
  inflation_rate m' = inflation_rate m.

(** A sound world: well-formed, with every worker's and every firm's
    books in order and the employment lists a partition. *)
Definition sound (n k : nat) (s : World) : Prop :=
  wf n k s /\
  Forall worker_books (worker_agents (model s)) /\
  Forall firm_books (firm_agents (model s)) /\
  partitioned (model s).

(** A sound world reached from the workers [ws0], the firms [fs0] and the
    header of [h]. *)
Definition tracked (ws0 : list Worker) (fs0 : list Firm) (h : Model)
    (s : World) : Prop :=
  sound (length ws0) (length fs0) s /\
  Forall2 worker_history ws0 (worker_agents (model s)) /\
  Forall2 firm_static fs0 (firm_agents (model s)) /\
  same_header h (model s).

End Ledger.

(** ** [compute_gini] on binary64 numbers *)

Module Binary64.
Import PrimFloat.

(** An [int] (one below [2 ** 63] in size) where Python converts it to a
    float. *)
Definition of_int (z : Z) : float :=
  if (z <? 0)%Z then PrimFloat.opp (of_uint63 (Uint63.of_Z (- z)))
  else of_uint63 (Uint63.of_Z z).

Definition of_nat (n : nat) : float := of_int (Z.of_nat n).

(** [a / b] on floats. *)
Definition pydiv (a b : float) : result float :=
  if PrimFloat.eqb b 0%float then Raise ZeroDivisionError
  else Ok (PrimFloat.div a b).

(** [sum(xs)], rounding after every addition. *)
Definition pysum (xs : list float) : float :=
  fold_left PrimFloat.add xs 0%float.

(** [sorted] on floats: ascending and stable. *)
Fixpoint insert (a : float) (l : list float) : list float :=
  match l with
  | [] => [a]
  | b :: r => if PrimFloat.leb a b then a :: l else b :: insert a r
  end.

Fixpoint sorted (l : list float) : list float :=
  match l with
  | [] => []
  | a :: r => insert a (sorted r)
  end.

(** [compute_gini], on the list [workers_wealth] of the workers' wealth
    values. *)
Definition compute_gini (workers_wealth : list float) : result float :=
  let x := sorted workers_wealth in
  let n := length x in
  let? B :=
    pydiv
      (pysum (map (fun ix => PrimFloat.mul (snd ix)
                               (of_int (Z.of_nat n - Z.of_nat (fst ix))))
                  (SimpleCapitalistModel.enumerate x)))
      (PrimFloat.mul (of_nat n) (pysum x)) in
  let? inv_n := pydiv 1%float (of_nat n) in
  Ok (PrimFloat.sub (PrimFloat.add 1%float inv_n) (PrimFloat.mul 2%float B)).

(** Scenario A: two workers with wealth 1000. *)
Definition scenario_A_wealth : list float := [1000%float; 1000%float].

(** Two workers with wealth 0.1, which as a binary64 number is
    [0x1.999999999999ap-4]. *)
Definition a_dime : float := 0x1.999999999999ap-4%float.
Definition two_dimes : list float := [a_dime; a_dime].

(** [-2 ** -52], about [-2.22e-16]. *)
Definition minus_ulp : float := (-0x1p-52)%float.

Definition zero : float := 0%float.

End Binary64.

(** ** An economy with a stale roster entry *)

Module StaleListing.
Import SimpleWorkerAgent FirmState ModelState.
Local Open Scope world_scope.

(** The six draws of one worker's [__init__]: skill, initial wealth,
    credit capacity, interest rate, productivity, firm ownership. *)
Definition worker_draws (skill wealth0 prod : Q) : list Q :=
  [skill; wealth0; 0.5; 0.5; prod; 0.5].

(** The fifteen draws of one firm's [__init__]; [randint(30, 80)] comes
    out as 55, and the high and medium wage rates sit at the top of their
    ranges. *)
Definition firm_draws (rate_low : Q) : list Q :=
  [0.5; 0.5; 0.5; 0.5; 0.5; 0.99; 0.99; rate_low;
   0.5; 0.5; 0.5; 0.5; 0.5; 0.5; 0.5].

(** [SimpleCapitalistModel(4, 2)]: worker 0 is high-skilled with wealth
    5000, workers 1, 2 and 3 are low-skilled with wealth 1800. *)
Definition construction : list Q :=
  worker_draws 0.9 0 0 ++ worker_draws 0.1 0.9 0 ++ worker_draws 0.1 0.9 0
  ++ worker_draws 0.1 0.9 0 ++ firm_draws 0.5 ++ firm_draws 0.99.

(** Week 1: firm 0 turns three candidates down; firm 1 hires workers 0, 1
    and 2, each of whom [hire_worker] lists twice. *)
Definition week_1 : list Q :=
  [0.5] ++ [0; 0.9; 0; 0.9; 0; 0.9]
  ++ [0; 0.1; 0.99; 0.5; 0.5] ++ [0; 0.1; 0.99; 0.5; 0.5]
  ++ [0; 0.1; 0.99; 0.5; 0.5].

(** Week 2: firm 0 turns worker 3 down; firm 1 closes the week at a loss
    below -500, fires worker 1, which removes one of their two listings,
    and hires worker 3. *)
Definition week_2 : list Q :=
  [0.5; 0.5] ++ [0; 0.9] ++ [0.5; 0.5; 0.5; 0.5; 0.5; 0.5] ++ [0.1; 0.4]
  ++ [0; 0.01; 0.99; 0.5; 0.5] ++ [0].

(** Week 3, when firm 0 hires worker 1, and firm 1 then fires them through
    the listing it still holds and hires them back. *)
Definition week_3_two_hires : list Q :=
  [0.5; 0.5] ++ [0; 0.1; 0.5; 0.5; 0.5]
  ++ [0.5; 0.5; 0.5; 0.5; 0.5; 0.5; 0.5] ++ [0.1; 0.3]
  ++ [0; 0.01; 0.5; 0.5; 0.5].

(** Week 3, when no firm hires or fires. *)
Definition week_3_no_hire : list Q :=
  [0.5; 0.5] ++ [0; 0.9]
  ++ [0.5; 0.5; 0.5; 0.5; 0.5; 0.5; 0.5; 0.5] ++ [0.9] ++ [0].

(** The generator that returns the listed draws in turn, and 0.5 after
    them. *)
Definition stream (l : list Q) : Rng := mkRng (fun n => nth n l 0.5) 0.

Definition two_hires_rng : Rng :=
  stream (construction ++ week_1 ++ week_2 ++ week_3_two_hires).

Definition no_hire_rng : Rng :=
  stream (construction ++ week_1 ++ week_2 ++ week_3_no_hire).

(** [SimpleCapitalistModel(4, 2)] after that many calls of
    [model.step()]. *)
Definition economy (g : Rng) (weeks : nat) : result World :=
  let? w := SimpleCapitalistModel.init 4 2 0 g in
  let? r := SimpleCapitalistModel.run Scenarios.root52 weeks w in
  Ok (snd r).

(** [SimpleCapitalistModel.step] up to its loop over the firms: the price
    index and the workers' steps. *)
Definition before_firms (root52 : Q -> Q) : M unit :=
  m <- get_model ;;
  let weekly_inflation := root52 (1 + inflation_rate m) - 1 in
  noise <- uniform (-0.001) 0.001 ;;
  modify_model
    (fun m => set_price_index
                (price_index m * (1 + weekly_inflation + noise)) m) ;;
  m <- get_model ;;
  SimpleCapitalistModel.step_workers (seq 0 (length (worker_agents m))).

(** [SimpleFirmAgent.step] up to its production loop: the two resets. *)
Definition before_production (self : nat) : M unit :=
  f <- firm_at self ;;
  set_firm self (set_wages_paid 0 (set_total_surplus_value 0 f)).

(** The worker object and the roster a reference stands for. *)
Definition worker (i : nat) (s : World) : option Worker :=
  nth_error (worker_agents (model s)) i.

Definition roster (self : nat) (s : World) : option (list nat) :=
  option_map workers (nth_error (firm_agents (model s)) self).

End StaleListing.

(** * Properties *)

(** ** Comparisons, [pymax], [pymin] and [pydiv] *)

Lemma Qltb_true (x y : Q) : Qltb x y = true <-> x < y.
Proof.
  unfold Qltb. rewrite negb_true_iff. split; intros H.
  - apply Qnot_le_lt. intros Hle. apply Qle_bool_iff in Hle. congruence.
  - destruct (Qle_bool y x) eqn:E; [|reflexivity].
    apply Qle_bool_iff in E. exfalso. apply (Qlt_not_le _ _ H E).
Qed.

Lemma Qltb_false (x y : Q) : Qltb x y = false <-> y <= x.
Proof.
  unfold Qltb. rewrite negb_false_iff. apply Qle_bool_iff.
Qed.

Lemma Qgtb_true (x y : Q) : Qgtb x y = true <-> y < x.
Proof. apply Qltb_true. Qed.

Lemma Qgtb_false (x y : Q) : Qgtb x y = false <-> x <= y.
Proof. apply Qltb_false. Qed.

Lemma Qgeb_true (x y : Q) : Qgeb x y = true <-> y <= x.
Proof. apply Qle_bool_iff. Qed.

Lemma Qgeb_false (x y : Q) : Qgeb x y = false <-> x < y.
Proof.
  unfold Qgeb. split; intros H.
  - apply Qnot_le_lt. intros Hle. apply Qle_bool_iff in Hle. congruence.
  - destruct (Qle_bool y x) eqn:E; [|reflexivity].
    apply Qle_bool_iff in E. exfalso. apply (Qlt_not_le _ _ H E).
Qed.

(** Case analysis on every comparison in sight, each branch carrying the
    inequality it stands for. *)
Ltac qtest t :=
  let E := fresh "E" in
  destruct t eqn:E;
  [ first [ apply Qltb_true in E | apply Qgtb_true in E | apply Qgeb_true in E ]
  | first [ apply Qltb_false in E | apply Qgtb_false in E | apply Qgeb_false in E ] ].

Ltac qcase :=
  match goal with
  | |- context [Qltb ?a ?b] => qtest (Qltb a b)
  | |- context [Qgtb ?a ?b] => qtest (Qgtb a b)
  | |- context [Qgeb ?a ?b] => qtest (Qgeb a b)
  end.

(** Settle a comparison whose outcome follows from the context. *)
Ltac decided t b :=
  let E := fresh "E" in
  assert (E : t = b);
  [ first [ apply Qltb_true | apply Qltb_false | apply Qgtb_true
          | apply Qgtb_false | apply Qgeb_true | apply Qgeb_false ]
  | rewrite E; clear E ].

(** Reduce the field reads of updated worker, firm and model records, and
    nothing else. *)
Ltac wproj :=
  cbn [SimpleWorkerAgent.unique_id SimpleWorkerAgent.work_hours
       SimpleWorkerAgent.skill_level SimpleWorkerAgent.worked_overtime
       SimpleWorkerAgent.wage SimpleWorkerAgent.is_employed
       SimpleWorkerAgent.employer SimpleWorkerAgent.wealth
       SimpleWorkerAgent.debt SimpleWorkerAgent.total_wages_earned
       SimpleWorkerAgent.total_taxes_paid SimpleWorkerAgent.weeks_unemployed
       SimpleWorkerAgent.financial_stress SimpleWorkerAgent.debt_capacity
       SimpleWorkerAgent.interest_rate SimpleWorkerAgent.is_bankrupt
       SimpleWorkerAgent.productivity SimpleWorkerAgent.owns_firm
       SimpleWorkerAgent.basic_needs
       SimpleWorkerAgent.set_wage SimpleWorkerAgent.set_is_employed
       SimpleWorkerAgent.set_employer SimpleWorkerAgent.set_wealth
       SimpleWorkerAgent.set_debt SimpleWorkerAgent.set_total_wages_earned
       SimpleWorkerAgent.set_total_taxes_paid
       SimpleWorkerAgent.set_weeks_unemployed
       SimpleWorkerAgent.set_financial_stress
       SimpleWorkerAgent.set_is_bankrupt fst snd] in *.

Ltac mproj :=
  cbn [ModelState.model ModelState.rng ModelState.num_workers
       ModelState.num_firms ModelState.num_owners ModelState.price_index
       ModelState.inflation_rate ModelState.employed_workers
       ModelState.unemployed_workers ModelState.worker_agents
       ModelState.firm_agents ModelState.set_price_index
       ModelState.set_employed_workers ModelState.set_unemployed_workers
       ModelState.set_worker_agents ModelState.set_firm_agents
       FirmState.unique_id FirmState.capital FirmState.profit
       FirmState.total_surplus_value FirmState.wages_paid
       FirmState.taxes_paid FirmState.workers FirmState.max_workers
       FirmState.preferred_skill_mix FirmState.wage_rates FirmState.tax_rate
       FirmState.set_capital FirmState.set_profit
       FirmState.set_total_surplus_value FirmState.set_wages_paid
       FirmState.set_taxes_paid FirmState.set_workers fst snd] in *.

(** Open a goal [wf n k s] into its six conditions. *)
Ltac wf_split := split; [|split; [|split; [|split; [|split]]]].

Lemma pymax_le_l (a b : Q) : a <= pymax a b.
Proof. unfold pymax. qcase; lra. Qed.

Lemma pymax_le_r (a b : Q) : b <= pymax a b.
Proof. unfold pymax. qcase; lra. Qed.

Lemma pymin_le_l (a b : Q) : pymin a b <= a.
Proof. unfold pymin. qcase; lra. Qed.

Lemma pymin_le_r (a b : Q) : pymin a b <= b.
Proof. unfold pymin. qcase; lra. Qed.

Lemma pymin_glb (a b c : Q) : c <= a -> c <= b -> c <= pymin a b.
Proof. unfold pymin. intros. qcase; lra. Qed.

Lemma pydiv_ok (a b : Q) : ~ b == 0 -> pydiv a b = Ok (a / b).
Proof.
  intros H. unfold pydiv. destruct (Qeq_bool b 0) eqn:E; [|reflexivity].
  apply Qeq_bool_iff in E. contradiction.
Qed.

Lemma pydiv_zero (a b : Q) : b == 0 -> pydiv a b = Raise ZeroDivisionError.
Proof.
  intros H. unfold pydiv. apply Qeq_bool_iff in H. rewrite H. reflexivity.
Qed.

Lemma Qdiv_nonneg (a b : Q) : 0 <= a -> 0 < b -> 0 <= a / b.
Proof.
  intros Ha Hb. unfold Qdiv. apply Qmult_le_0_compat; [exact Ha|].
  apply Qlt_le_weak, Qinv_lt_0_compat, Hb.
Qed.

(** ** The random source *)

Lemma rng_ok_advance (g : Rng) : rng_ok g -> rng_ok (advance g).
Proof. intros H n. apply (H n). Qed.

Lemma rng_random_ok (g : Rng) :
  rng_ok g ->
  rng_ok (snd (rng_random g)) /\ 0 <= fst (rng_random g) /\ fst (rng_random g) < 1.
Proof. intros H. split; [apply rng_ok_advance, H | apply (H (cursor g))]. Qed.

Lemma rng_uniform_ok (a b : Q) (g : Rng) :
  rng_ok g -> a <= b ->
  rng_ok (snd (rng_uniform a b g)) /\
  a <= fst (rng_uniform a b g) /\ fst (rng_uniform a b g) <= b.
Proof.
  intros H Hab. unfold rng_uniform, rng_random. cbn.
  destruct (H (cursor g)) as [H0 H1].
  split; [apply rng_ok_advance, H|]. split; nra.
Qed.

Lemma rng_below_ok (n : nat) (g : Rng) :
  rng_ok g -> (0 < n)%nat ->
  rng_ok (snd (rng_below n g)) /\ (fst (rng_below n g) < n)%nat.
Proof.
  intros H Hn. unfold rng_below, rng_random. cbn.
  destruct (H (cursor g)) as [H0 H1].
  split; [apply rng_ok_advance, H|].
  set (u := draws g (cursor g)) in *.
  assert (Hpos : 0 < of_nat n).
  { unfold of_nat. change 0 with (inject_Z 0). rewrite <- Zlt_Qlt. lia. }
  assert (Hlt : u * of_nat n < of_nat n) by nra.
  assert (Hge : 0 <= u * of_nat n) by nra.
  assert (Hf : (Qfloor (u * of_nat n) < Z.of_nat n)%Z).
  { rewrite Zlt_Qlt. eapply Qle_lt_trans; [apply Qfloor_le | exact Hlt]. }
  assert (Hf0 : (0 <= Qfloor (u * of_nat n))%Z).
  { change 0%Z with (Qfloor 0). apply Qfloor_resp_le, Hge. }
  apply Nat2Z.inj_lt. rewrite Z2Nat.id; assumption.
Qed.

(** ** Workers *)

Section WorkerFacts.
Import SimpleWorkerAgent Invariants.

Lemma same_params_refl (w : Worker) : same_params w w.
Proof. repeat split. Qed.

Lemma same_params_trans (a b c : Worker) :
  same_params a b -> same_params b c -> same_params a c.
Proof.
  unfold same_params. intros (?&?&?&?&?&?&?&?) (?&?&?&?&?&?&?&?).
  repeat split; congruence.
Qed.

Lemma worker_params_ok_same (w w' : Worker) :
  same_params w w' -> worker_params_ok w -> worker_params_ok w'.
Proof.
  unfold same_params, worker_params_ok.
  intros (_&Hh&_&Hc&Hi&_&_&Hb). rewrite Hh, Hc, Hi, Hb. exact (fun H => H).
Qed.

Lemma decay_rate_bounds (s : Skill) : 0 <= decay_rate s /\ decay_rate s <= 1.
Proof. destruct s; cbn; split; lra. Qed.

Lemma get_tax_rate_ok (w : Worker) (g : Rng) :
  rng_ok g ->
  rng_ok (snd (get_tax_rate w g)) /\
  0 <= fst (get_tax_rate w g) /\ fst (get_tax_rate w g) <= 1.
Proof.
  intros Hg. unfold get_tax_rate.
  destruct (skill_level w);
    match goal with
    | |- context [rng_uniform ?a ?b g] =>
        destruct (rng_uniform_ok a b g Hg ltac:(lra)) as (H1 & H2 & H3)
    end; (split; [exact H1 | split; lra]).
Qed.

(** *** [work_for_firm] *)

Lemma work_for_firm_employed (firm : nat) (p r : Q) (w : Worker) (g : Rng) :
  is_employed w = true -> work_for_firm firm p r w g = (None, w, g).
Proof. intros H. unfold work_for_firm. rewrite H. reflexivity. Qed.

Lemma work_for_firm_employs (firm : nat) (p r : Q) (w : Worker) (g : Rng) :
  is_employed (snd (fst (work_for_firm firm p r w g))) = true.
Proof.
  unfold work_for_firm. destruct (is_employed w) eqn:E; [exact E|].
  wproj. destruct (get_tax_rate _ g) as [t g1].
  destruct (owns_firm w && Qgtb p 0).
  - destruct (rng_uniform 0.01 0.05 g1). reflexivity.
  - reflexivity.
Qed.

Lemma work_for_firm_keeps_employer (firm : nat) (p r : Q) (w : Worker) (g : Rng) :
  is_employed w = false ->
  employer (snd (fst (work_for_firm firm p r w g))) = Some firm /\
  wage (snd (fst (work_for_firm firm p r w g))) = r.
Proof.
  intros E. unfold work_for_firm. rewrite E.
  wproj. destruct (get_tax_rate _ g) as [t g1].
  destruct (owns_firm w && Qgtb p 0).
  - destruct (rng_uniform 0.01 0.05 g1). split; reflexivity.
  - split; reflexivity.
Qed.

Lemma work_for_firm_same_params (firm : nat) (p r : Q) (w : Worker) (g : Rng) :
  same_params w (snd (fst (work_for_firm firm p r w g))).
Proof.
  unfold work_for_firm. destruct (is_employed w); [apply same_params_refl|].
  wproj. destruct (get_tax_rate _ g) as [t g1].
  destruct (owns_firm w && Qgtb p 0).
  - destruct (rng_uniform 0.01 0.05 g1). repeat split.
  - repeat split.
Qed.

Lemma work_for_firm_ok (firm : nat) (p r : Q) (w : Worker) (g : Rng) :
  rng_ok g -> worker_ok w -> 0 <= r ->
  worker_ok (snd (fst (work_for_firm firm p r w g))) /\
  rng_ok (snd (work_for_firm firm p r w g)).
Proof.
  intros Hg [[Hw Hd] Hp] Hr.
  split.
  2:{ unfold work_for_firm. destruct (is_employed w); [exact Hg|].
      destruct (get_tax_rate_ok (set_weeks_unemployed 0
        (set_wage r (set_employer (Some firm) (set_is_employed true w)))) g Hg)
        as (Hg1 & _).
      destruct (get_tax_rate _ g) as [t g1]. cbn [snd] in Hg1.
      destruct (owns_firm _ && Qgtb p 0).
      - destruct (rng_uniform_ok 0.01 0.05 g1 Hg1 ltac:(lra)) as (Hg2 & _).
        destruct (rng_uniform 0.01 0.05 g1). exact Hg2.
      - exact Hg1. }
  split; [|eapply worker_params_ok_same; [apply work_for_firm_same_params|exact Hp]].
  destruct Hp as (Hh & _).
  unfold work_for_firm. destruct (is_employed w); [split; assumption|].
  destruct (get_tax_rate_ok (set_weeks_unemployed 0
    (set_wage r (set_employer (Some firm) (set_is_employed true w)))) g Hg)
    as (Hg1 & Ht0 & Ht1).
  destruct (get_tax_rate _ g) as [t g1]. wproj.
  assert (Hgross : 0 <= r * work_hours w) by (apply Qmult_le_0_compat; lra).
  assert (Hnet : 0 <= r * work_hours w - r * work_hours w * t).
  { assert (0 <= r * work_hours w * (1 - t)) by (apply Qmult_le_0_compat; lra). lra. }
  destruct (owns_firm w && Qgtb p 0) eqn:Eo.
  - apply andb_true_iff in Eo. destruct Eo as [_ Ep]. apply Qgtb_true in Ep.
    destruct (rng_uniform_ok 0.01 0.05 g1 Hg1 ltac:(lra)) as (_ & Hs0 & Hs1).
    destruct (rng_uniform 0.01 0.05 g1) as [share g2]. unfold nonneg. wproj.
    split; [nra | exact Hd].
  - unfold nonneg. wproj. split; [lra | exact Hd].
Qed.

(** *** [get_reservation_wage] *)

Lemma desperation_factor_le (w : Worker) : desperation_factor w <= 0.7.
Proof. unfold desperation_factor. apply pymin_le_l. Qed.

Lemma debt_desperation_ge (w : Worker) (d : Q) :
  debt_desperation w = Ok d -> 0.6 <= d.
Proof.
  unfold debt_desperation. destruct (pydiv (debt w) (debt_capacity w)); cbn; [|discriminate].
  intros [= <-]. apply pymax_le_l.
Qed.

Lemma get_reservation_wage_total (w : Worker) :
  worker_params_ok w -> exists r, get_reservation_wage w = Ok r.
Proof.
  intros (_ & _ & Hc & _). unfold get_reservation_wage, debt_desperation.
  destruct (Qgtb (debt w) 0); cbn; [|eauto].
  rewrite pydiv_ok by lra. cbn. eauto.
Qed.

(** *** [step] *)

Lemma get_unmet_needs_nonneg (w : Worker) : 0 <= get_unmet_needs w.
Proof.
  unfold get_unmet_needs. pose proof (pymin_le_r (wealth w) (basic_needs w)). lra.
Qed.

Lemma calculate_financial_stress_total (w : Worker) :
  worker_params_ok w ->
  exists s, calculate_financial_stress w = Ok (s, set_financial_stress s w).
Proof.
  intros (_ & _ & Hc & Hb). unfold calculate_financial_stress.
  destruct (Qgtb (debt w) 0); cbn.
  - rewrite (pydiv_ok (debt w)) by lra. cbn.
    rewrite (pydiv_ok (get_unmet_needs w)) by lra. cbn. eauto.
  - rewrite (pydiv_ok (get_unmet_needs w)) by lra. cbn. eauto.
Qed.

Lemma pay_basic_needs_same_params (w : Worker) : same_params w (pay_basic_needs w).
Proof.
  unfold pay_basic_needs. destruct (is_employed w); cbn [negb]; wproj;
    destruct (Qgeb (wealth w) (basic_needs w)); repeat split.
Qed.

Lemma pay_basic_needs_nonneg (w : Worker) : nonneg w -> nonneg (pay_basic_needs w).
Proof.
  intros [Hw Hd]. unfold pay_basic_needs, nonneg.
  destruct (is_employed w); cbn [negb]; wproj; qcase; wproj; split; lra.
Qed.

Lemma handle_debt_mechanics_same_params (w : Worker) :
  same_params w (handle_debt_mechanics w).
Proof.
  unfold handle_debt_mechanics. destruct (Qgtb (debt w) 0); [|apply same_params_refl].
  wproj. destruct (Qgeb (wealth w) _); wproj;
    match goal with |- context [if ?c then _ else _] => destruct c end;
    repeat split.
Qed.

Lemma handle_debt_mechanics_nonneg (w : Worker) :
  nonneg w -> 0 <= interest_rate w -> 0 <= debt_capacity w ->
  nonneg (handle_debt_mechanics w).
Proof.
  intros [Hw Hd] Hi Hc. unfold handle_debt_mechanics.
  qcase; [|split; assumption]. wproj.
  set (d1 := debt w + debt w * (interest_rate w / 52)).
  assert (Hd1 : 0 <= d1).
  { unfold d1. assert (0 <= interest_rate w / 52) by (apply Qdiv_nonneg; lra). nra. }
  pose proof (pymin_le_l (pymax (d1 * 0.02) 20) d1) as Hp1.
  pose proof (pymin_le_r (pymax (d1 * 0.02) 20) d1) as Hp2.
  qtest (Qgeb (wealth w) (pymax (d1 * 0.02) 20)); wproj;
    match goal with |- context [if ?c then _ else _] => destruct c end;
    unfold nonneg; wproj; split; lra.
Qed.

Lemma wealth_decay_same_params (w : Worker) : same_params w (wealth_decay w).
Proof.
  unfold wealth_decay. destruct (negb (is_employed w) && Qgtb (wealth w) 0);
    repeat split.
Qed.

Lemma wealth_decay_nonneg (w : Worker) : nonneg w -> nonneg (wealth_decay w).
Proof.
  intros [Hw Hd]. unfold wealth_decay.
  destruct (negb (is_employed w) && Qgtb (wealth w) 0); [|split; assumption].
  unfold nonneg. wproj. destruct (decay_rate_bounds (skill_level w)).
  split; [nra | exact Hd].
Qed.

Lemma wealth_growth_ok (w : Worker) (g : Rng) :
  rng_ok g -> nonneg w ->
  nonneg (fst (wealth_growth w g)) /\ same_params w (fst (wealth_growth w g)) /\
  rng_ok (snd (wealth_growth w g)).
Proof.
  intros Hg [Hw Hd]. unfold wealth_growth.
  destruct (Skill_eqb (skill_level w) high && Qgtb (wealth w) 10000);
    [|cbn [fst snd]; split; [split; assumption | split; [apply same_params_refl | assumption]]].
  destruct (rng_random_ok g Hg) as (Hg1 & _).
  destruct (rng_random g) as [u g1]. cbn [fst snd] in *.
  destruct (Qltb u 0.3); [|cbn [fst snd]; split; [split; assumption | split; [apply same_params_refl | assumption]]].
  destruct (rng_uniform_ok 1.001 1.003 g1 Hg1 ltac:(lra)) as (Hg2 & Hf0 & Hf1).
  destruct (rng_uniform 1.001 1.003 g1) as [factor g2]. cbn [fst snd] in *.
  unfold nonneg. wproj.
  split; [split; [nra | exact Hd] | split; [repeat split | exact Hg2]].
Qed.

(** One week of a worker within the invariant ends within it, and
    [step] returns. *)
Lemma worker_step_ok (w : Worker) (g : Rng) :
  rng_ok g -> worker_ok w ->
  exists w' g', SimpleWorkerAgent.step w g = Ok (w', g') /\
                worker_ok w' /\ same_params w w' /\ rng_ok g'.
Proof.
  intros Hg [Hn Hp]. unfold SimpleWorkerAgent.step.
  destruct (calculate_financial_stress_total w Hp) as [s ->]. cbn [rbind snd].
  set (w0 := set_financial_stress s w).
  assert (Hn0 : nonneg w0) by exact Hn.
  assert (Hs0 : same_params w w0) by (repeat split).
  set (w1 := pay_basic_needs w0).
  assert (Hn1 : nonneg w1) by (apply pay_basic_needs_nonneg, Hn0).
  assert (Hs1 : same_params w w1).
  { eapply same_params_trans; [exact Hs0 | apply pay_basic_needs_same_params]. }
  set (w2 := handle_debt_mechanics w1).
  assert (Hp1 : worker_params_ok w1) by (eapply worker_params_ok_same; eauto).
  assert (Hn2 : nonneg w2).
  { destruct Hp1 as (_ & ? & ? & _). apply handle_debt_mechanics_nonneg; [assumption| |]; lra. }
  assert (Hs2 : same_params w w2).
  { eapply same_params_trans; [exact Hs1 | apply handle_debt_mechanics_same_params]. }
  set (w3 := wealth_decay w2).
  assert (Hn3 : nonneg w3) by (apply wealth_decay_nonneg, Hn2).
  assert (Hs3 : same_params w w3).
  { eapply same_params_trans; [exact Hs2 | apply wealth_decay_same_params]. }
  destruct (wealth_growth_ok w3 g Hg Hn3) as (Hn4 & Hs4 & Hg4).
  destruct (wealth_growth w3 g) as [w4 g4] eqn:E4. cbn [fst snd] in *.
  exists w4, g4. split; [reflexivity|].
  assert (Hs : same_params w w4) by (eapply same_params_trans; eauto).
  split; [|split; assumption].
  split; [exact Hn4 | eapply worker_params_ok_same; eauto].
Qed.

End WorkerFacts.

(** ** The aggregate queries of the economy *)

Section Aggregates.
Import SimpleWorkerAgent FirmState ModelState SimpleCapitalistModel.
Import Specification Scenarios.

Lemma of_nat_S (n : nat) : of_nat (S n) == of_nat n + 1.
Proof.
  unfold of_nat. rewrite Nat2Z.inj_succ, <- Z.add_1_r, inject_Z_plus. reflexivity.
Qed.

Lemma of_nat_nonneg (n : nat) : 0 <= of_nat n.
Proof.
  unfold of_nat. change 0 with (inject_Z 0). rewrite <- Zle_Qle. lia.
Qed.

Lemma of_nat_pos (n : nat) : (0 < n)%nat -> 0 < of_nat n.
Proof.
  intros H. unfold of_nat. change 0 with (inject_Z 0). rewrite <- Zlt_Qlt. lia.
Qed.

Lemma inject_Z_sub (a b : nat) :
  inject_Z (Z.of_nat a - Z.of_nat b) == of_nat a - of_nat b.
Proof.
  unfold of_nat, Z.sub. rewrite inject_Z_plus, inject_Z_opp. reflexivity.
Qed.

Lemma pysum_snoc (xs : list Q) (a : Q) : pysum (xs ++ [a]) = pysum xs + a.
Proof. unfold pysum. rewrite fold_left_app. reflexivity. Qed.

Lemma sigma_ext (n : nat) (f h : nat -> Q) :
  (forall i, (i < n)%nat -> f i == h i) -> sigma n f == sigma n h.
Proof.
  induction n as [|k IH]; intros H; cbn [sigma]; [reflexivity|].
  rewrite IH by (intros i Hi; apply H; lia). rewrite (H k) by lia. reflexivity.
Qed.

Lemma sigma_scale (n : nat) (c : Q) (f : nat -> Q) :
  sigma n (fun i => c * f i) == c * sigma n f.
Proof.
  induction n as [|k IH]; cbn [sigma]; [ring|]. rewrite IH. ring.
Qed.

Lemma sigma_const (n : nat) (c : Q) : sigma n (fun _ => c) == of_nat n * c.
Proof.
  induction n as [|k IH]; [cbn [sigma]; change (of_nat 0) with 0; ring|].
  cbn [sigma]. rewrite IH, of_nat_S. ring.
Qed.

(** The weights [n - i] over [i < k] add up to [k (2n - k + 1) / 2]. *)
Lemma sigma_weights (n k : nat) :
  2 * sigma k (fun i => of_nat n - of_nat i)
  == of_nat k * (2 * of_nat n - of_nat k + 1).
Proof.
  induction k as [|k IH]; [cbn [sigma]; change (of_nat 0) with 0; ring|].
  cbn [sigma]. rewrite of_nat_S.
  setoid_replace (2 * (sigma k (fun i => of_nat n - of_nat i) + (of_nat n - of_nat k)))
    with (2 * sigma k (fun i => of_nat n - of_nat i) + 2 * (of_nat n - of_nat k))
    by ring.
  rewrite IH. ring.
Qed.

Lemma combine_append {A B} (l1 l2 : list A) (k1 k2 : list B) :
  length l1 = length k1 ->
  combine (l1 ++ l2) (k1 ++ k2) = combine l1 k1 ++ combine l2 k2.
Proof.
  revert k1. induction l1 as [|a l1 IH]; intros [|b k1] H; try discriminate.
  - reflexivity.
  - cbn. f_equal. apply IH. injection H as H. exact H.
Qed.

Lemma enumerate_snoc {A} (xs : list A) (a : A) :
  enumerate (xs ++ [a]) = enumerate xs ++ [(length xs, a)].
Proof.
  unfold enumerate. rewrite length_app. cbn [length].
  rewrite Nat.add_1_r, seq_S. cbn [Nat.add].
  rewrite combine_append by (rewrite length_seq; reflexivity). reflexivity.
Qed.

(** The generator sum of [compute_gini] is the indexed sum of the
    specification. *)
Lemma pysum_enumerate (w : nat -> Q) (xs : list Q) :
  pysum (map (fun ix => snd ix * w (fst ix)) (enumerate xs))
  == sigma (length xs) (fun i => nth i xs 0 * w i).
Proof.
  induction xs as [|a xs IH] using rev_ind; [reflexivity|].
  rewrite enumerate_snoc, map_app, length_app. cbn [map length fst snd].
  rewrite pysum_snoc, Nat.add_1_r. cbn [sigma].
  rewrite IH. rewrite nth_middle.
  apply Qplus_comp; [|reflexivity].
  apply sigma_ext. intros i Hi. rewrite app_nth1 by exact Hi. reflexivity.
Qed.

Lemma pysum_sigma (xs : list Q) :
  pysum xs == sigma (length xs) (fun i => nth i xs 0).
Proof.
  induction xs as [|a xs IH] using rev_ind; [reflexivity|].
  rewrite pysum_snoc, length_app, Nat.add_1_r. cbn [length sigma].
  rewrite IH, nth_middle.
  apply Qplus_comp; [|reflexivity].
  apply sigma_ext. intros i Hi. rewrite app_nth1 by exact Hi. reflexivity.
Qed.

Lemma pydiv_comp (a a' b b' : Q) :
  a == a' -> b == b' -> result_eq (pydiv a b) (pydiv a' b').
Proof.
  intros Ha Hb. unfold pydiv.
  destruct (Qeq_bool b 0) eqn:E, (Qeq_bool b' 0) eqn:E'; cbn.
  - reflexivity.
  - apply Qeq_bool_iff in E. rewrite Hb in E. apply Qeq_bool_iff in E. congruence.
  - apply Qeq_bool_iff in E'. rewrite <- Hb in E'. apply Qeq_bool_iff in E'. congruence.
  - apply Qeq_bool_neq in E. rewrite Ha, Hb. reflexivity.
Qed.

Lemma sorted_ascending (xs : list Q) : Sorted Qle (sorted xs).
Proof.
  unfold sorted. pose proof (QSort.Sorted_sort xs) as H.
  induction H as [|a l Hl IH Hd]; constructor; [exact IH|].
  destruct Hd as [|b l' Hb]; constructor.
  apply Qle_bool_iff. exact Hb.
Qed.

Lemma sorted_permutation (xs : list Q) : Permutation xs (sorted xs).
Proof. apply QSort.Permuted_sort. Qed.

Lemma compute_gini_refines (m : Model) :
  result_eq (compute_gini m) (gini_estimator (sorted (map wealth (worker_agents m)))).
Proof.
  unfold compute_gini, gini_estimator.
  set (x := sorted (map wealth (worker_agents m))).
  set (n := length x).
  assert (Hnum :
    pysum (map (fun ix => snd ix * inject_Z (Z.of_nat n - Z.of_nat (fst ix)))
               (enumerate x))
    == sigma n (fun i => nth i x 0 * (of_nat n - of_nat i))).
  { rewrite (pysum_enumerate (fun i => inject_Z (Z.of_nat n - Z.of_nat i)) x).
    apply sigma_ext. intros i _. rewrite inject_Z_sub. reflexivity. }
  assert (Hden : of_nat n * pysum x == of_nat n * sigma n (fun i => nth i x 0)).
  { rewrite pysum_sigma. reflexivity. }
  pose proof (pydiv_comp _ _ _ _ Hnum Hden) as HB.
  destruct (pydiv (pysum _) (of_nat n * pysum x)) as [B|e];
    destruct (pydiv (sigma n _) (of_nat n * sigma n _)) as [B'|e'];
    cbn [rbind]; cbn [result_eq] in HB; try contradiction.
  - destruct (pydiv 1 (of_nat n)) as [v|e]; cbn [rbind result_eq]; [|reflexivity].
    rewrite HB. reflexivity.
  - cbn [result_eq]. exact HB.
Qed.

Lemma nth_all_equal (c : Q) (xs : list Q) (i : nat) :
  Forall (fun v => v == c) xs -> (i < length xs)%nat -> nth i xs 0 == c.
Proof.
  intros H. revert i. induction H as [|a l Ha Hl IH]; intros i Hi; cbn in Hi; [lia|].
  destruct i; cbn; [exact Ha | apply IH; lia].
Qed.

(** On values that are all [c], the estimator's two sums are [c n (n+1)/2]
    and [n c]. *)
Lemma estimator_sums_equal (c : Q) (x : list Q) :
  Forall (fun v => v == c) x ->
  2 * sigma (length x) (fun i => nth i x 0 * (of_nat (length x) - of_nat i))
  == c * (of_nat (length x) * (of_nat (length x) + 1)) /\
  sigma (length x) (fun i => nth i x 0) == of_nat (length x) * c.
Proof.
  intros H. split.
  - rewrite (sigma_ext _ _ (fun i => c * (of_nat (length x) - of_nat i))).
    + rewrite sigma_scale.
      setoid_replace (2 * (c * sigma (length x) (fun i => of_nat (length x) - of_nat i)))
        with (c * (2 * sigma (length x) (fun i => of_nat (length x) - of_nat i)))
        by ring.
      rewrite sigma_weights. ring.
    + intros i Hi. rewrite (nth_all_equal c x i H Hi). reflexivity.
  - rewrite (sigma_ext _ _ (fun _ => c)); [apply sigma_const|].
    intros i Hi. apply (nth_all_equal c x i H Hi).
Qed.

Lemma estimator_equal_values (c : Q) (x : list Q) :
  0 < c -> x <> [] -> Forall (fun v => v == c) x ->
  exists r, gini_estimator x = Ok r /\ r == 0.
Proof.
  intros Hc Hne H.
  assert (Hn : 0 < of_nat (length x)).
  { apply of_nat_pos. destruct x; [congruence | cbn; lia]. }
  destruct (estimator_sums_equal c x H) as [H1 H2].
  unfold gini_estimator.
  set (n := of_nat (length x)) in *.
  set (S1 := sigma (length x) (fun i => nth i x 0 * (n - of_nat i))) in *.
  set (S2 := sigma (length x) (fun i => nth i x 0)) in *.
  assert (Hden : ~ n * S2 == 0).
  { rewrite H2. intros E. assert (0 < n * (n * c)) by (repeat apply Qmult_lt_0_compat; assumption). lra. }
  rewrite (pydiv_ok S1) by exact Hden. cbn [rbind].
  rewrite (pydiv_ok 1) by lra. cbn [rbind].
  eexists. split; [reflexivity|].
  assert (HS1 : S1 == c * (n * (n + 1)) / 2).
  { setoid_replace S1 with ((2 * S1) / 2) by field. rewrite H1. reflexivity. }
  rewrite HS1, H2. field. split; lra.
Qed.

Lemma estimator_zero_values (x : list Q) :
  Forall (fun v => v == 0) x -> gini_estimator x = Raise ZeroDivisionError.
Proof.
  intros H. destruct (estimator_sums_equal 0 x H) as [_ H2].
  unfold gini_estimator. rewrite pydiv_zero; [reflexivity|].
  rewrite H2. ring.
Qed.

Lemma sorted_all_equal (c : Q) (xs : list Q) :
  Forall (fun v => v == c) xs -> Forall (fun v => v == c) (sorted xs).
Proof.
  intros H. eapply Permutation_Forall; [apply sorted_permutation | exact H].
Qed.

Lemma wealth_all_equal (c : Q) (ws : list Worker) :
  Forall (fun w => wealth w == c) ws -> Forall (fun v => v == c) (map wealth ws).
Proof. intros H. induction H; constructor; assumption. Qed.

(** The defect behind C2 in general: when every worker's wealth is 0,
    [compute_gini] divides by [n * sum(x) = 0]. *)
Lemma compute_gini_zero_wealth (m : Model) :
  Forall (fun w => wealth w == 0) (worker_agents m) ->
  compute_gini m = Raise ZeroDivisionError.
Proof.
  intros H. pose proof (compute_gini_refines m) as Href.
  rewrite estimator_zero_values in Href
    by (apply sorted_all_equal, wealth_all_equal, H).
  destruct (compute_gini m) as [q|e]; cbn in Href; [contradiction | congruence].
Qed.

(** C1 as stated fails on binary64 numbers: for two workers who both hold
    0.1, [compute_gini] returns [-2 ** -52], not 0.  The numerator sum
    [0.1 * 2 + 0.1 * 1] rounds to [0.30000000000000004], so [2 * B] is
    one unit in the last place above [1.5 = 1 + 1/2]. *)
Lemma compute_gini_of_two_dimes_is_not_0 :
  Binary64.compute_gini Binary64.two_dimes = Ok Binary64.minus_ulp /\
  PrimFloat.ltb Binary64.minus_ulp Binary64.zero = true /\
  Binary64.compute_gini Binary64.two_dimes <> Ok Binary64.zero.
Proof.
  split; [vm_compute; reflexivity|].
  split; [vm_compute; reflexivity|].
  vm_compute. intros H. discriminate H.
Qed.

(** C1, amended: [compute_gini] sorts the workers' wealth values ascending
    and evaluates the estimator [1 + 1/n - 2B] of the specification on the
    sorted values (the same number, or the same exception).  In exact
    arithmetic the estimator is 0 on a non-empty population whose wealth
    values all equal one positive number; on binary64 numbers
    [compute_gini] returns exactly 0 in Scenario A, two workers with wealth
    1000. *)
Theorem compute_gini_is_the_estimator (m : Model) :
  let x := sorted (map wealth (worker_agents m)) in
  Permutation (map wealth (worker_agents m)) x /\
  Sorted Qle x /\
  result_eq (compute_gini m) (gini_estimator x) /\
  (forall c : Q,
      0 < c -> worker_agents m <> [] ->
      Forall (fun w => wealth w == c) (worker_agents m) ->
      exists r, gini_estimator x = Ok r /\ r == 0) /\
  Binary64.compute_gini Binary64.scenario_A_wealth = Ok Binary64.zero.
Proof.
  intros x. split; [apply sorted_permutation|].
  split; [apply sorted_ascending|].
  split; [apply compute_gini_refines|].
  split; [|vm_compute; reflexivity].
  intros c Hc Hne H. apply (estimator_equal_values c x Hc).
  - intros E. apply Hne.
    pose proof (Permutation_length (sorted_permutation (map wealth (worker_agents m)))) as HL.
    fold x in HL. rewrite E, length_map in HL.
    destruct (worker_agents m); [reflexivity | discriminate].
  - apply sorted_all_equal, wealth_all_equal, H.
Qed.

Lemma compute_gini_scenario_A :
  exists r,
    gini_estimator (sorted (map wealth (worker_agents scenario_A))) = Ok r /\
    r == 0.
Proof.
  apply (proj1 (proj2 (proj2 (proj2 (compute_gini_is_the_estimator scenario_A)))) 1000).
  - reflexivity.
  - discriminate.
  - repeat constructor.
Defined.

(** The other three aggregate queries return on every model. *)
Lemma get_wage_share_total (m : Model) : exists q, get_wage_share m = Ok q.
Proof.
  unfold get_wage_share. qcase; [|eauto].
  rewrite pydiv_ok by lra. eauto.
Qed.

Lemma sum_exploitation_total (ws : list Worker) (acc : Q) :
  exists q, sum_exploitation ws acc = Ok q.
Proof.
  revert acc. induction ws as [|w ws IH]; intros acc; cbn [sum_exploitation]; [eauto|].
  qcase; [|apply IH].
  rewrite pydiv_ok by lra. cbn [rbind]. apply IH.
Qed.

Lemma get_avg_exploitation_rate_total (m : Model) :
  exists q, get_avg_exploitation_rate m = Ok q.
Proof.
  unfold get_avg_exploitation_rate.
  destruct (filter is_employed (get_workers m)) as [|w ws] eqn:E; [eauto|].
  destruct (sum_exploitation_total (w :: ws) 0) as [q ->]. cbn [rbind].
  rewrite pydiv_ok; [eauto|].
  pose proof (of_nat_pos (length (w :: ws)) ltac:(cbn; lia)). lra.
Qed.

Lemma get_debt_to_income_ratio_total (w : Worker) :
  0 < wage w -> exists q, get_debt_to_income_ratio w = Ok (Finite q).
Proof.
  intros H. unfold get_debt_to_income_ratio.
  destruct (Qeq_bool (wage w) 0) eqn:E.
  - apply Qeq_bool_iff in E. lra.
  - qcase; [|lra]. rewrite pydiv_ok by lra. cbn [rbind]. eauto.
Qed.

Lemma collect_ratios_total (ws : list Worker) (acc : list Q) :
  Forall (fun w => 0 < wage w) ws ->
  exists qs, collect_ratios ws acc = Ok qs.
Proof.
  intros H. revert acc. induction H as [|w ws Hw _ IH]; intros acc;
    cbn [collect_ratios]; [eauto|].
  destruct (get_debt_to_income_ratio_total w Hw) as [q ->]. cbn [rbind]. apply IH.
Qed.

Lemma get_avg_debt_to_income_total (m : Model) :
  exists q, get_avg_debt_to_income m = Ok q.
Proof.
  unfold get_avg_debt_to_income.
  set (keep := fun w => is_employed w && Qgtb (wage w) 0).
  assert (H : Forall (fun w => 0 < wage w) (filter keep (get_workers m))).
  { apply Forall_forall. intros w Hw. apply filter_In in Hw. destruct Hw as [_ Hw].
    unfold keep in Hw. apply andb_true_iff in Hw. destruct Hw as [_ Hw].
    apply Qgtb_true in Hw. exact Hw. }
  destruct (filter keep (get_workers m)) as [|w ws]; [eauto|].
  destruct (collect_ratios_total (w :: ws) [] H) as [qs ->]. cbn [rbind].
  destruct qs as [|q qs]; [eauto|].
  rewrite pydiv_ok; [eauto|].
  pose proof (of_nat_pos (length (q :: qs)) ltac:(cbn; lia)). lra.
Qed.

(** C2, at an economy the code reaches: [SimpleCapitalistModel(2, 1)] with
    two low-skill workers of initial wealth 200 whom the firm does not hire
    in the first week.  After one [model.step()] both have spent their
    wealth on needs, every wealth is 0, and [compute_gini()] raises
    [ZeroDivisionError] where the claim promises a sentinel; the three
    sibling queries return 0 on the same economy. *)
Theorem compute_gini_raises_when_all_broke :
  exists world,
    broke_economy = Ok world /\
    map wealth (worker_agents (model world)) = [0; 0] /\
    compute_gini (model world) = Raise ZeroDivisionError /\
    get_wage_share (model world) = Ok 0 /\
    get_avg_exploitation_rate (model world) = Ok 0 /\
    get_avg_debt_to_income (model world) = Ok 0.
Proof.
  eexists. split; [vm_compute; reflexivity|].
  repeat split; vm_compute; reflexivity.
Qed.

End Aggregates.

(** ** Reasoning about computations on the world *)

Section WorldLogic.
Import SimpleWorkerAgent FirmState ModelState Invariants.
Local Open Scope world_scope.

Lemma wp_ret {A} (a : A) (Q : A -> World -> Prop) (s : World) :
  Q a s -> wp (ret a) Q s.
Proof. exact (fun H => H). Qed.

Lemma wp_bind {A B} (m : M A) (k : A -> M B) (Q : B -> World -> Prop) (s : World) :
  wp m (fun a s' => wp (k a) Q s') s -> wp (bind m k) Q s.
Proof.
  unfold wp, bind. destruct (m s) as [[a s']|e]; exact (fun H => H).
Qed.

Lemma wp_mono {A} (m : M A) (P Q : A -> World -> Prop) (s : World) :
  wp m P s -> (forall a s', P a s' -> Q a s') -> wp m Q s.
Proof.
  unfold wp. destruct (m s) as [[a s']|e]; [|exact (fun H _ => H)].
  intros H HPQ. apply HPQ, H.
Qed.

Lemma wp_run {A} (m : M A) (Q : A -> World -> Prop) (s : World) :
  wp m Q s <-> exists a s', m s = Ok (a, s') /\ Q a s'.
Proof.
  unfold wp. split.
  - destruct (m s) as [[a s']|e]; [eauto | contradiction].
  - intros (a & s' & -> & H). exact H.
Qed.

Lemma wp_lift {A} (r : result A) (a : A) (Q : A -> World -> Prop) (s : World) :
  r = Ok a -> Q a s -> wp (lift r) Q s.
Proof. intros -> H. exact H. Qed.

Lemma wp_get_model (Q : Model -> World -> Prop) (s : World) :
  Q (model s) s -> wp get_model Q s.
Proof. exact (fun H => H). Qed.

Lemma wp_modify_model (f : Model -> Model) (Q : unit -> World -> Prop) (s : World) :
  Q tt (mkWorld (f (model s)) (rng s)) -> wp (modify_model f) Q s.
Proof. exact (fun H => H). Qed.

Lemma wp_with_rng {A} (f : Rng -> A * Rng) (Q : A -> World -> Prop) (s : World) :
  Q (fst (f (rng s))) (mkWorld (model s) (snd (f (rng s)))) ->
  wp (with_rng f) Q s.
Proof. unfold wp, with_rng. destruct (f (rng s)). exact (fun H => H). Qed.

Lemma wp_worker_at (i : nat) (w : Worker) (Q : Worker -> World -> Prop) (s : World) :
  nth_error (worker_agents (model s)) i = Some w -> Q w s -> wp (worker_at i) Q s.
Proof. unfold wp, worker_at. intros ->. exact (fun H => H). Qed.

Lemma wp_firm_at (i : nat) (f : Firm) (Q : Firm -> World -> Prop) (s : World) :
  nth_error (firm_agents (model s)) i = Some f -> Q f s -> wp (firm_at i) Q s.
Proof. unfold wp, firm_at. intros ->. exact (fun H => H). Qed.

Lemma wp_set_worker (i : nat) (w : Worker) (Q : unit -> World -> Prop) (s : World) :
  Q tt (mkWorld (set_worker_agents (set_nth i w (worker_agents (model s))) (model s))
                (rng s)) ->
  wp (set_worker i w) Q s.
Proof. exact (fun H => H). Qed.

Lemma wp_set_firm (i : nat) (f : Firm) (Q : unit -> World -> Prop) (s : World) :
  Q tt (mkWorld (set_firm_agents (set_nth i f (firm_agents (model s))) (model s))
                (rng s)) ->
  wp (set_firm i f) Q s.
Proof. exact (fun H => H). Qed.

(** *** Lists updated in place *)

Lemma length_set_nth {A} (i : nat) (x : A) (l : list A) :
  length (set_nth i x l) = length l.
Proof.
  revert i. induction l as [|y l IH]; intros [|i]; cbn; try reflexivity.
  f_equal. apply IH.
Qed.

Lemma nth_error_set_nth_eq {A} (i : nat) (x : A) (l : list A) :
  (i < length l)%nat -> nth_error (set_nth i x l) i = Some x.
Proof.
  revert i. induction l as [|y l IH]; intros [|i] H; cbn in *; try lia.
  - reflexivity.
  - apply IH. lia.
Qed.

Lemma nth_error_set_nth_neq {A} (i j : nat) (x : A) (l : list A) :
  i <> j -> nth_error (set_nth i x l) j = nth_error l j.
Proof.
  revert i j. induction l as [|y l IH]; intros [|i] [|j] H; cbn; try reflexivity.
  - congruence.
  - apply IH. congruence.
Qed.

Lemma set_nth_same {A} (i : nat) (x : A) (l : list A) :
  nth_error l i = Some x -> set_nth i x l = l.
Proof.
  revert i. induction l as [|y l IH]; intros [|i] H; cbn in *; try reflexivity.
  - congruence.
  - f_equal. apply IH, H.
Qed.

Lemma Forall_set_nth {A} (P : A -> Prop) (i : nat) (x : A) (l : list A) :
  Forall P l -> P x -> Forall P (set_nth i x l).
Proof.
  intros H Hx. revert i. induction H as [|y l Hy Hl IH]; intros [|i]; cbn;
    constructor; auto.
Qed.

Lemma Forall_nth_error {A} (P : A -> Prop) (l : list A) (i : nat) (x : A) :
  Forall P l -> nth_error l i = Some x -> P x.
Proof.
  intros H Hx. apply nth_error_In in Hx. rewrite Forall_forall in H. auto.
Qed.

Lemma nth_error_lt {A} (l : list A) (i : nat) :
  (i < length l)%nat -> exists x, nth_error l i = Some x.
Proof.
  intros H. destruct (nth_error l i) eqn:E; [eauto|].
  apply nth_error_None in E. lia.
Qed.

Lemma remove_first_incl (x y : nat) (xs : list nat) :
  In y (remove_first x xs) -> In y xs.
Proof.
  induction xs as [|z xs IH]; cbn; [exact (fun H => H)|].
  destruct (Nat.eqb x z); cbn; intuition.
Qed.

Lemma length_remove_first (x : nat) (xs : list nat) :
  In x xs -> S (length (remove_first x xs)) = length xs.
Proof.
  induction xs as [|z xs IH]; cbn; [contradiction|].
  destruct (Nat.eqb_spec x z) as [->|Hne]; [reflexivity|].
  intros [E|H]; [congruence|]. cbn. f_equal. apply IH, H.
Qed.

Lemma Forall_remove_first (P : nat -> Prop) (x : nat) (xs : list nat) :
  Forall P xs -> Forall P (remove_first x xs).
Proof.
  rewrite !Forall_forall. intros H y Hy. apply H. eapply remove_first_incl, Hy.
Qed.

Lemma Forall_snoc {A} (P : A -> Prop) (x : A) (xs : list A) :
  Forall P xs -> P x -> Forall P (xs ++ [x]).
Proof. intros H Hx. apply Forall_app. split; [exact H | constructor; auto]. Qed.

End WorldLogic.

(** ** Firms acting on the world *)

Section FirmFacts.
Import SimpleWorkerAgent FirmState ModelState Invariants SimpleFirmAgent.
Local Open Scope world_scope.

Lemma wf_same_model (n k : nat) (s s' : World) :
  wf n k s -> model s' = model s -> rng_ok (rng s') -> wf n k s'.
Proof.
  unfold wf. intros (_ & H) E Hg. rewrite E. split; assumption.
Qed.

Lemma wf_set_worker (n k : nat) (s : World) (i : nat) (w : Worker) :
  wf n k s -> worker_ok w ->
  wf n k (mkWorld (set_worker_agents (set_nth i w (worker_agents (model s))) (model s))
                  (rng s)).
Proof.
  unfold wf. intros (Hg & Hn & Hk & Hw & Hf & Hu) Hok. mproj.
  rewrite length_set_nth. wf_split; try assumption.
  apply Forall_set_nth; assumption.
Qed.

Lemma wf_set_firm (n k : nat) (s : World) (i : nat) (f : Firm) :
  wf n k s -> firm_ok n f ->
  wf n k (mkWorld (set_firm_agents (set_nth i f (firm_agents (model s))) (model s))
                  (rng s)).
Proof.
  unfold wf. intros (Hg & Hn & Hk & Hw & Hf & Hu) Hok. mproj.
  rewrite length_set_nth. wf_split; try assumption.
  apply Forall_set_nth; assumption.
Qed.

Lemma wf_set_unemployed (n k : nat) (s : World) (l : list nat) :
  wf n k s -> Forall (fun i => (i < n)%nat) l ->
  wf n k (mkWorld (set_unemployed_workers l (model s)) (rng s)).
Proof.
  unfold wf. intros (Hg & Hn & Hk & Hw & Hf & Hu) Hl. mproj.
  wf_split; assumption.
Qed.

Lemma wf_set_employed (n k : nat) (s : World) (l : list nat) :
  wf n k s -> wf n k (mkWorld (set_employed_workers l (model s)) (rng s)).
Proof.
  unfold wf. intros (Hg & Hn & Hk & Hw & Hf & Hu). mproj.
  wf_split; assumption.
Qed.

Lemma wf_firm (n k : nat) (s : World) (self : nat) :
  wf n k s -> (self < k)%nat ->
  exists f, nth_error (firm_agents (model s)) self = Some f /\ firm_ok n f.
Proof.
  intros (_ & _ & Hk & _ & Hf & _) Hs.
  destruct (nth_error_lt (firm_agents (model s)) self ltac:(lia)) as [f E].
  exists f. split; [exact E | eapply Forall_nth_error; eauto].
Qed.

Lemma wf_worker (n k : nat) (s : World) (i : nat) :
  wf n k s -> (i < n)%nat ->
  exists w, nth_error (worker_agents (model s)) i = Some w /\ worker_ok w.
Proof.
  intros (_ & Hn & _ & Hw & _) Hi.
  destruct (nth_error_lt (worker_agents (model s)) i ltac:(lia)) as [w E].
  exists w. split; [exact E | eapply Forall_nth_error; eauto].
Qed.

Lemma wf_rng_ok (n k : nat) (s : World) : wf n k s -> rng_ok (rng s).
Proof. intros H. apply H. Qed.

Lemma wf_unemployed (n k : nat) (s : World) :
  wf n k s -> Forall (fun i => (i < n)%nat) (unemployed_workers (model s)).
Proof. intros H. apply H. Qed.

(** *** Reading the skill mix and making an offer *)

Lemma count_skills_spec (n k : nat) (roster : list nat) (acc : SkillMap)
    (Q : SkillMap -> World -> Prop) (s : World) :
  wf n k s -> Forall (fun i => (i < n)%nat) roster ->
  (forall c, Q c s) -> wp (count_skills roster acc) Q s.
Proof.
  intros Hwf Hr HQ. revert acc.
  induction Hr as [|i roster Hi _ IH]; intros acc; cbn [count_skills].
  - apply wp_ret, HQ.
  - destruct (wf_worker n k s i Hwf Hi) as (w & Hw & _).
    apply wp_bind, (wp_worker_at i w); [exact Hw|]. apply IH.
Qed.

Lemma get_current_skill_mix_spec (n k self : nat)
    (Q : SkillMap -> World -> Prop) (s : World) :
  wf n k s -> (self < k)%nat ->
  (forall mix, Q mix s) -> wp (get_current_skill_mix self) Q s.
Proof.
  intros Hwf Hs HQ. unfold get_current_skill_mix.
  destruct (wf_firm n k s self Hwf Hs) as (f & Hf & Hfok).
  apply wp_bind, (wp_firm_at self f); [exact Hf|].
  destruct (workers f) as [|i roster] eqn:E; [apply wp_ret, HQ|].
  assert (Hr : Forall (fun i => (i < n)%nat) (i :: roster)).
  { rewrite <- E. apply Hfok. }
  assert (Hlen : ~ of_nat (length (i :: roster)) == 0).
  { pose proof (of_nat_pos (length (i :: roster)) ltac:(cbn; lia)). lra. }
  apply wp_bind, (count_skills_spec n k); [exact Hwf | exact Hr|].
  intros c.
  apply wp_bind, (wp_lift _ _ _ _ (pydiv_ok _ _ Hlen)).
  apply wp_bind, (wp_lift _ _ _ _ (pydiv_ok _ _ Hlen)).
  apply wp_bind, (wp_lift _ _ _ _ (pydiv_ok _ _ Hlen)).
  apply wp_ret, HQ.
Qed.

Lemma wp_uniform (a b : Q) (Q : Q -> World -> Prop) (s : World) :
  rng_ok (rng s) -> a <= b ->
  (forall u g, rng_ok g -> a <= u -> u <= b -> Q u (mkWorld (model s) g)) ->
  wp (uniform a b) Q s.
Proof.
  intros Hg Hab HQ. unfold uniform. apply wp_with_rng.
  destruct (rng_uniform_ok a b (rng s) Hg Hab) as (H1 & H2 & H3).
  apply HQ; assumption.
Qed.

Lemma wp_random (Q : Q -> World -> Prop) (s : World) :
  rng_ok (rng s) ->
  (forall u g, rng_ok g -> Q u (mkWorld (model s) g)) ->
  wp random Q s.
Proof.
  intros Hg HQ. unfold random. apply wp_with_rng.
  destruct (rng_random_ok (rng s) Hg) as (H1 & _). apply HQ, H1.
Qed.

Lemma wp_choice (xs : list nat) (Q : nat -> World -> Prop) (s : World) :
  rng_ok (rng s) -> xs <> [] ->
  (forall x g, rng_ok g -> In x xs -> Q x (mkWorld (model s) g)) ->
  wp (choice xs) Q s.
Proof.
  intros Hg Hne HQ. unfold choice.
  assert (Hlen : (0 < length xs)%nat) by (destruct xs; [congruence | cbn; lia]).
  destruct (rng_below_ok (length xs) (rng s) Hg Hlen) as (Hg' & Hlt).
  apply wp_bind, wp_with_rng.
  destruct (nth_error_lt xs _ Hlt) as [x Hx]. rewrite Hx.
  apply wp_ret, HQ; [exact Hg' | eapply nth_error_In, Hx].
Qed.

Lemma lookup_nonneg (m : SkillMap) (sk : Skill) :
  0 <= at_high m -> 0 <= at_medium m -> 0 <= at_low m -> 0 <= lookup m sk.
Proof. destruct sk; cbn; auto. Qed.

(** A wage offer is computed without touching the model, and is never
    negative. *)
Lemma calculate_worker_wage_offer_spec (n k self worker : nat)
    (Q : Q -> World -> Prop) (s : World) :
  wf n k s -> (self < k)%nat -> (worker < n)%nat ->
  (forall offer s', model s' = model s -> rng_ok (rng s') -> 0 <= offer ->
                    Q offer s') ->
  wp (calculate_worker_wage_offer self worker) Q s.
Proof.
  intros Hwf Hs Hi HQ. unfold calculate_worker_wage_offer.
  destruct (wf_firm n k s self Hwf Hs) as (f & Hf & (Hh & Hm & Hl & _)).
  destruct (wf_worker n k s worker Hwf Hi) as (w & Hw & (_ & Hp)).
  apply wp_bind, (wp_firm_at self f); [exact Hf|].
  apply wp_bind, (wp_worker_at worker w); [exact Hw|].
  apply wp_bind, (get_current_skill_mix_spec n k); [exact Hwf | exact Hs|].
  intros mix.
  pose proof (lookup_nonneg (wage_rates f) (skill_level w) Hh Hm Hl) as Hbase.
  destruct (get_reservation_wage_total w Hp) as [r Hr].
  assert (Hhours : 0 < work_hours w) by apply Hp.
  assert (Hfin : forall mult g, rng_ok g -> 0 <= mult ->
    wp (reservation <- lift (get_reservation_wage w) ;;
        ret (pymax (lookup (wage_rates f) (skill_level w) * mult * work_hours w)
               reservation)) Q (mkWorld (model s) g)).
  { intros mult g Hg Hmult.
    apply wp_bind, (wp_lift _ r); [exact Hr|]. apply wp_ret, HQ; [reflexivity | exact Hg|].
    eapply Qle_trans; [|apply pymax_le_l].
    repeat apply Qmult_le_0_compat; lra. }
  apply wp_bind.
  destruct (Qltb _ _).
  - apply wp_uniform; [apply Hwf | lra|]. intros u g Hg H1 H2. apply Hfin; [exact Hg | lra].
  - apply wp_uniform; [apply Hwf | lra|]. intros u g Hg H1 H2. apply Hfin; [exact Hg | lra].
Qed.

(** *** Hiring and firing keep the world well-formed *)

(** The call [worker.work_for_firm(self, wage_rate)] rewrites the one
    worker object in place. *)
Lemma call_work_for_firm_run (self worker : nat) (r : Q) (s : World)
    (f : Firm) (w : Worker) :
  nth_error (firm_agents (model s)) self = Some f ->
  nth_error (worker_agents (model s)) worker = Some w ->
  call_work_for_firm self worker r s =
  Ok (fst (fst (work_for_firm self (profit f) r w (rng s))),
      mkWorld (set_worker_agents
                 (set_nth worker
                    (snd (fst (work_for_firm self (profit f) r w (rng s))))
                    (worker_agents (model s)))
                 (model s))
              (snd (work_for_firm self (profit f) r w (rng s)))).
Proof.
  intros Hf Hw.
  unfold call_work_for_firm, bind, firm_at, worker_at, with_rng, set_worker,
    modify_model, ret.
  rewrite Hf, Hw.
  destruct (work_for_firm self (profit f) r w (rng s)) as [[v w'] g'].
  reflexivity.
Qed.

Lemma call_work_for_firm_employed (self worker : nat) (r : Q) (s : World)
    (f : Firm) (w : Worker) :
  nth_error (firm_agents (model s)) self = Some f ->
  nth_error (worker_agents (model s)) worker = Some w ->
  is_employed w = true ->
  call_work_for_firm self worker r s = Ok (None, s).
Proof.
  intros Hf Hw E.
  rewrite (call_work_for_firm_run self worker r s f w Hf Hw).
  rewrite (work_for_firm_employed self (profit f) r w (rng s) E). cbn [fst snd].
  rewrite (set_nth_same worker w _ Hw).
  destruct s as [[] g]. reflexivity.
Qed.

Lemma call_work_for_firm_spec (n k self worker : nat) (r : Q)
    (Q : option Q -> World -> Prop) (s : World) :
  wf n k s -> (self < k)%nat -> (worker < n)%nat -> 0 <= r ->
  (forall v s', wf n k s' ->
                firm_agents (model s') = firm_agents (model s) ->
                unemployed_workers (model s') = unemployed_workers (model s) ->
                employed_workers (model s') = employed_workers (model s) ->
                Q v s') ->
  wp (call_work_for_firm self worker r) Q s.
Proof.
  intros Hwf Hs Hi Hr HQ.
  destruct (wf_firm n k s self Hwf Hs) as (f & Hf & _).
  destruct (wf_worker n k s worker Hwf Hi) as (w & Hw & Hok).
  unfold wp. rewrite (call_work_for_firm_run self worker r s f w Hf Hw).
  destruct (work_for_firm_ok self (profit f) r w (rng s) (wf_rng_ok _ _ _ Hwf) Hok Hr)
    as (Hok' & Hg').
  apply HQ; try reflexivity.
  eapply wf_same_model with
    (s := mkWorld (set_worker_agents
                     (set_nth worker
                        (snd (fst (work_for_firm self (profit f) r w (rng s))))
                        (worker_agents (model s)))
                     (model s)) (rng s));
    [apply wf_set_worker; assumption | reflexivity | exact Hg'].
Qed.

Lemma firm_ok_hire (n : nat) (f : Firm) (worker : nat) :
  firm_ok n f -> (worker < n)%nat ->
  firm_ok n (set_workers (workers f ++ [worker]) f).
Proof.
  unfold firm_ok. intros (Hh & Hm & Hl & Hr) Hi. mproj.
  repeat split; try assumption. apply Forall_snoc; assumption.
Qed.

Lemma firm_ok_fire (n : nat) (f : Firm) (worker : nat) :
  firm_ok n f -> firm_ok n (set_workers (remove_first worker (workers f)) f).
Proof.
  unfold firm_ok. intros (Hh & Hm & Hl & Hr). mproj.
  repeat split; try assumption. apply Forall_remove_first, Hr.
Qed.

Lemma hire_worker_spec (n k self worker : nat) (r : Q)
    (Q : bool -> World -> Prop) (s : World) :
  wf n k s -> (self < k)%nat -> (worker < n)%nat -> 0 <= r ->
  (forall b s', wf n k s' -> Q b s') ->
  wp (hire_worker self worker r) Q s.
Proof.
  intros Hwf Hs Hi Hr HQ. unfold hire_worker.
  destruct (wf_firm n k s self Hwf Hs) as (f & Hf & Hfok).
  apply wp_bind, (wp_firm_at self f); [exact Hf|].
  apply wp_bind, wp_set_firm.
  apply wp_bind, (call_work_for_firm_spec n k); try assumption.
  { apply wf_set_firm; [exact Hwf | apply firm_ok_hire; assumption]. }
  intros v s1 Hwf1 _ _ _.
  apply wp_bind, wp_get_model.
  apply wp_bind with (Q := Q).
  assert (Hemp : forall s2, wf n k s2 ->
    wp (m <- get_model ;;
        (if negb (mem worker (employed_workers m))
         then modify_model
                (fun m => set_employed_workers (employed_workers m ++ [worker]) m)
         else ret tt) ;;
        ret true) Q s2).
  { intros s2 Hwf2. apply wp_bind, wp_get_model. apply wp_bind.
    destruct (negb (mem worker (employed_workers (model s2)))).
    - apply wp_modify_model, wp_ret, HQ, wf_set_employed, Hwf2.
    - apply wp_ret, wp_ret, HQ, Hwf2. }
  destruct (mem worker (unemployed_workers (model s1))).
  - apply wp_modify_model, Hemp, wf_set_unemployed; [exact Hwf1|].
    apply Forall_remove_first, (wf_unemployed n k), Hwf1.
  - apply wp_ret, Hemp, Hwf1.
Qed.

Lemma lose_job_ok (w : Worker) : worker_ok w -> worker_ok (lose_job w).
Proof. exact (fun H => H). Qed.

Lemma fire_worker_spec (n k self worker : nat)
    (Q : bool -> World -> Prop) (s : World) :
  wf n k s -> (self < k)%nat -> (worker < n)%nat ->
  (forall b s', wf n k s' -> Q b s') ->
  wp (fire_worker self worker) Q s.
Proof.
  intros Hwf Hs Hi HQ. unfold fire_worker.
  destruct (wf_firm n k s self Hwf Hs) as (f & Hf & Hfok).
  apply wp_bind, (wp_firm_at self f); [exact Hf|].
  destruct (mem worker (workers f)); [|apply wp_ret, HQ, Hwf].
  apply wp_bind, wp_set_firm.
  assert (Hwf1 : wf n k (mkWorld (set_firm_agents
            (set_nth self (set_workers (remove_first worker (workers f)) f)
               (firm_agents (model s))) (model s)) (rng s))).
  { apply wf_set_firm; [exact Hwf | apply firm_ok_fire, Hfok]. }
  destruct (wf_worker n k _ worker Hwf1 Hi) as (w & Hw & Hok).
  apply wp_bind, (wp_worker_at worker w); [exact Hw|].
  apply wp_bind, wp_set_worker.
  match goal with
  | |- wp _ _ ?st => assert (Hwf2 : wf n k st)
      by (apply (wf_set_worker n k _ worker (lose_job w) Hwf1), lose_job_ok, Hok);
      revert Hwf2; generalize st; intros s2 Hwf2
  end.
  apply wp_bind, wp_get_model.
  apply wp_bind with (Q := Q).
  assert (Hun : forall s3, wf n k s3 ->
    wp (m <- get_model ;;
        (if negb (mem worker (unemployed_workers m))
         then modify_model
                (fun m => set_unemployed_workers (unemployed_workers m ++ [worker]) m)
         else ret tt) ;;
        ret true) Q s3).
  { intros s3 Hwf3. apply wp_bind, wp_get_model. apply wp_bind.
    destruct (negb (mem worker (unemployed_workers (model s3)))).
    - apply wp_modify_model, wp_ret, HQ, wf_set_unemployed; [exact Hwf3|].
      apply Forall_snoc; [apply (wf_unemployed n k), Hwf3 | exact Hi].
    - apply wp_ret, wp_ret, HQ, Hwf3. }
  destruct (mem worker (employed_workers (model s2))).
  - apply wp_modify_model, Hun, wf_set_employed, Hwf2.
  - apply wp_ret, Hun, Hwf2.
Qed.

Lemma should_hire_worker_spec (n k self worker : nat)
    (Q : bool -> World -> Prop) (s : World) :
  wf n k s -> (self < k)%nat -> (worker < n)%nat ->
  (forall b s', wf n k s' -> Q b s') ->
  wp (should_hire_worker self worker) Q s.
Proof.
  intros Hwf Hs Hi HQ. unfold should_hire_worker.
  destruct (wf_firm n k s self Hwf Hs) as (f & Hf & Hfok).
  apply wp_bind, (wp_firm_at self f); [exact Hf|].
  destruct (negb (mem worker (workers f))); [|apply wp_ret, HQ, Hwf].
  destruct (max_workers f <=? Z.of_nat (length (workers f)))%Z;
    [apply wp_ret, HQ, Hwf|].
  destruct (wf_worker n k s worker Hwf Hi) as (w & Hw & _).
  apply wp_bind, (wp_worker_at worker w); [exact Hw|].
  apply wp_bind, (get_current_skill_mix_spec n k); [exact Hwf | exact Hs|].
  intros mix.
  apply wp_bind, wp_random; [apply Hwf|]. intros u g Hg.
  assert (Hwf1 : wf n k (mkWorld (model s) g))
    by (eapply wf_same_model; [exact Hwf | reflexivity | exact Hg]).
  match goal with |- wp (if ?c then _ else _) _ _ => destruct c end;
    [|apply wp_ret, HQ, Hwf1].
  apply wp_bind, (calculate_worker_wage_offer_spec n k); try assumption.
  intros offer s2 Hm2 Hg2 Hoffer.
  assert (Hwf2 : wf n k s2) by (eapply wf_same_model; eassumption).
  apply wp_bind, (hire_worker_spec n k); try assumption.
  intros b s3 Hwf3. apply wp_ret, HQ, Hwf3.
Qed.

Lemma firing_decision_spec (n k self : nat) (Q : unit -> World -> Prop) (s : World) :
  wf n k s -> (self < k)%nat ->
  (forall s', wf n k s' -> Q tt s') ->
  wp (firing_decision self) Q s.
Proof.
  intros Hwf Hs HQ. unfold firing_decision.
  destruct (wf_firm n k s self Hwf Hs) as (f & Hf & Hfok).
  apply wp_bind, (wp_firm_at self f); [exact Hf|].
  destruct (Qltb (profit f) (-500) && (5 <? length (workers f))%nat) eqn:E;
    [|apply wp_ret, HQ, Hwf].
  apply andb_true_iff in E. destruct E as [_ E]. apply Nat.ltb_lt in E.
  apply wp_bind, wp_random; [apply Hwf|]. intros u g Hg.
  assert (Hwf1 : wf n k (mkWorld (model s) g))
    by (eapply wf_same_model; [exact Hwf | reflexivity | exact Hg]).
  destruct (Qltb u 0.45); [|apply wp_ret, HQ, Hwf1].
  apply wp_bind, wp_choice; [exact Hg | destruct (workers f); [cbn in E; lia | discriminate]|].
  intros x g2 Hg2 Hx.
  assert (Hwf2 : wf n k (mkWorld (model s) g2))
    by (eapply wf_same_model; [exact Hwf | reflexivity | exact Hg2]).
  assert (Hxn : (x < n)%nat).
  { destruct Hfok as (_ & _ & _ & Hr). rewrite Forall_forall in Hr. apply Hr, Hx. }
  apply wp_bind, (fire_worker_spec n k); try assumption.
  intros b s3 Hwf3. apply wp_ret, HQ, Hwf3.
Qed.

Lemma hiring_loop_spec (n k self : nat) (count : nat) (pool : list nat)
    (Q : unit -> World -> Prop) (s : World) :
  wf n k s -> (self < k)%nat ->
  Forall (fun i => (i < n)%nat) pool -> (count <= length pool)%nat ->
  (forall s', wf n k s' -> Q tt s') ->
  wp (hiring_loop self count pool) Q s.
Proof.
  intros Hwf Hs Hpool Hcount HQ. revert pool s Hwf Hpool Hcount.
  induction count as [|count IH]; intros pool s Hwf Hpool Hcount;
    cbn [hiring_loop]; [apply wp_ret, HQ, Hwf|].
  destruct (wf_firm n k s self Hwf Hs) as (f & Hf & Hfok).
  apply wp_bind, (wp_firm_at self f); [exact Hf|].
  destruct (max_workers f <=? Z.of_nat (length (workers f)))%Z;
    [apply wp_ret, HQ, Hwf|].
  apply wp_bind, wp_choice;
    [apply Hwf | destruct pool; [cbn in Hcount; lia | discriminate]|].
  intros x g Hg Hx.
  assert (Hwf1 : wf n k (mkWorld (model s) g))
    by (eapply wf_same_model; [exact Hwf | reflexivity | exact Hg]).
  assert (Hxn : (x < n)%nat).
  { rewrite Forall_forall in Hpool. apply Hpool, Hx. }
  apply wp_bind, (should_hire_worker_spec n k); try assumption.
  intros hired s2 Hwf2.
  assert (Hrest : forall s', wf n k s' -> wp (hiring_loop self count pool) Q s').
  { intros s' Hwf'. apply IH; [exact Hwf' | exact Hpool | lia]. }
  destruct hired; [|apply Hrest, Hwf2].
  apply wp_bind, (calculate_worker_wage_offer_spec n k); try assumption.
  intros offer s3 Hm3 Hg3 Hoffer.
  assert (Hwf3 : wf n k s3) by (eapply wf_same_model; eassumption).
  destruct (wf_worker n k s3 x Hwf3 Hxn) as (w & Hw & (_ & Hp)).
  apply wp_bind, (wp_worker_at x w); [exact Hw|].
  destruct (get_reservation_wage_total w Hp) as [r Hr].
  apply wp_bind, (wp_lift _ r); [exact Hr|].
  destruct (Qgeb offer r); [|apply Hrest, Hwf3].
  assert (Hh : 0 < work_hours w) by apply Hp.
  apply wp_bind, (wp_lift _ (offer / work_hours w)); [apply pydiv_ok; lra|].
  apply wp_bind, (hire_worker_spec n k); try assumption.
  { apply Qdiv_nonneg; assumption. }
  intros b s4 Hwf4. apply IH; [exact Hwf4 | apply Forall_remove_first, Hpool|].
  pose proof (length_remove_first x pool Hx). lia.
Qed.

Lemma hiring_decision_spec (n k self : nat) (Q : unit -> World -> Prop) (s : World) :
  wf n k s -> (self < k)%nat ->
  (forall s', wf n k s' -> Q tt s') ->
  wp (hiring_decision self) Q s.
Proof.
  intros Hwf Hs HQ. unfold hiring_decision.
  destruct (wf_firm n k s self Hwf Hs) as (f & Hf & Hfok).
  apply wp_bind, (wp_firm_at self f); [exact Hf|].
  destruct (Z.of_nat (length (workers f)) <? max_workers f)%Z;
    [|apply wp_ret, HQ, Hwf].
  apply wp_bind, wp_get_model.
  destruct (unemployed_workers (model s)) as [|i pool] eqn:E;
    [apply wp_ret, HQ, Hwf|].
  apply (hiring_loop_spec n k); try assumption.
  - rewrite <- E. apply (wf_unemployed n k), Hwf.
  - apply Nat.le_min_r.
Qed.

Lemma _make_employment_decisions_spec (n k self : nat)
    (Q : unit -> World -> Prop) (s : World) :
  wf n k s -> (self < k)%nat ->
  (forall s', wf n k s' -> Q tt s') ->
  wp (_make_employment_decisions self) Q s.
Proof.
  intros Hwf Hs HQ. unfold _make_employment_decisions.
  apply wp_bind, (firing_decision_spec n k); try assumption.
  intros s1 Hwf1. apply (hiring_decision_spec n k); assumption.
Qed.

(** *** Production and settlement *)

Lemma produce_spec (n k self : nat) (roster : list nat) (total : Q)
    (Q : Q -> World -> Prop) (s : World) :
  wf n k s -> (self < k)%nat -> Forall (fun i => (i < n)%nat) roster ->
  (forall v s', wf n k s' -> Q v s') ->
  wp (produce self roster total) Q s.
Proof.
  intros Hwf Hs Hr HQ. revert total s Hwf.
  induction Hr as [|i roster Hi _ IH]; intros total s Hwf; cbn [produce];
    [apply wp_ret, HQ, Hwf|].
  destruct (wf_worker n k s i Hwf Hi) as (w & Hw & (_ & Hp)).
  apply wp_bind, (wp_worker_at i w); [exact Hw|].
  apply wp_bind, (calculate_worker_wage_offer_spec n k); try assumption.
  intros offer s1 Hm1 Hg1 Hoffer.
  assert (Hwf1 : wf n k s1) by (eapply wf_same_model; eassumption).
  assert (Hh : 0 < work_hours w) by apply Hp.
  apply wp_bind, (wp_lift _ (offer / work_hours w)); [apply pydiv_ok; lra|].
  apply wp_bind, (call_work_for_firm_spec n k); try assumption.
  { apply Qdiv_nonneg; assumption. }
  intros v s2 Hwf2 _ _ _.
  destruct (wf_worker n k s2 i Hwf2 Hi) as (w2 & Hw2 & _).
  apply wp_bind, (wp_worker_at i w2); [exact Hw2|].
  destruct (wf_firm n k s2 self Hwf2 Hs) as (f & Hf & Hfok).
  apply wp_bind, (wp_firm_at self f); [exact Hf|].
  apply wp_bind, wp_set_firm. apply IH.
  apply wf_set_firm; [exact Hwf2 | exact Hfok].
Qed.

Lemma settle_spec (n k self : nat) (total : Q) (Q : unit -> World -> Prop) (s : World) :
  wf n k s -> (self < k)%nat ->
  (forall s', wf n k s' -> Q tt s') ->
  wp (settle self total) Q s.
Proof.
  intros Hwf Hs HQ. unfold settle.
  destruct (wf_firm n k s self Hwf Hs) as (f & Hf & Hfok).
  apply wp_bind, (wp_firm_at self f); [exact Hf|].
  apply wp_set_firm, HQ, wf_set_firm; [exact Hwf | exact Hfok].
Qed.

(** A firm's week keeps the world well-formed, and [step] returns. *)
Lemma firm_step_spec (n k self : nat) (Q : unit -> World -> Prop) (s : World) :
  wf n k s -> (self < k)%nat ->
  (forall s', wf n k s' -> Q tt s') ->
  wp (SimpleFirmAgent.step self) Q s.
Proof.
  intros Hwf Hs HQ. unfold SimpleFirmAgent.step.
  destruct (wf_firm n k s self Hwf Hs) as (f & Hf & Hfok).
  apply wp_bind, (wp_firm_at self f); [exact Hf|].
  apply wp_bind, wp_set_firm.
  match goal with
  | |- wp _ _ ?st => assert (Hwf1 : wf n k st)
      by (apply wf_set_firm; [exact Hwf | exact Hfok]);
      revert Hwf1; generalize st; intros s1 Hwf1
  end.
  destruct (wf_firm n k s1 self Hwf1 Hs) as (f1 & Hf1 & Hfok1).
  apply wp_bind, (wp_firm_at self f1); [exact Hf1|].
  apply wp_bind, (produce_spec n k); try assumption; [apply Hfok1|].
  intros total s2 Hwf2.
  apply wp_bind, (settle_spec n k); try assumption.
  intros s3 Hwf3. apply (_make_employment_decisions_spec n k); assumption.
Qed.

End FirmFacts.

(** ** Claims about a single worker *)

Section WorkerClaims.
Import SimpleWorkerAgent Invariants Scenarios.

(** A generator that returns listed draws is a generator of numbers in
    [[0, 1)] when the listed numbers are. *)
Lemma stream_ok (l : list Q) :
  forallb (fun u => Qle_bool 0 u && negb (Qle_bool 1 u)) l = true ->
  rng_ok (StaleListing.stream l).
Proof.
  intros H n. unfold StaleListing.stream. cbn [draws].
  destruct (nth_in_or_default n l 0.5) as [Hin | ->];
    [|split; vm_compute; [discriminate | reflexivity]].
  rewrite forallb_forall in H. specialize (H _ Hin).
  apply andb_true_iff in H. destruct H as [H0 H1].
  apply Qle_bool_iff in H0. split; [exact H0|].
  apply Qnot_le_lt. intros C. apply Qle_bool_iff in C.
  rewrite C in H1. discriminate.
Qed.

(** C7, at an economy the code reaches.  The first half of the claim
    holds: [work_for_firm(firm, wage_rate)] on a worker who is already
    employed returns at once, the worker object left as it was in every
    field and no random draw consumed.  The second half does not follow:
    in the third week of [SimpleCapitalistModel(4, 2)] with the draws of
    [two_hires_rng], worker 1 starts the firms' turn unemployed but still
    listed by firm 1, which fired them in week 2 through one of their two
    roster entries.  Firm 0 hires them, and they accept ([employer] is firm
    0, [total_wages_earned] rises); in the same [model.step()] firm 1 fires
    them through the entry it still holds, [fire_worker] not looking at
    the worker's employer, hires them back, and they accept again
    ([employer] is firm 1, [total_wages_earned] rises a second time). *)
Theorem two_employers_accepted_in_one_step :
  (forall (w : Worker) (firm : nat) (firm_profit wage_rate : Q) (g : Rng),
      is_employed w = true ->
      work_for_firm firm firm_profit wage_rate w g = (None, w, g)) /\
  rng_ok StaleListing.two_hires_rng /\
  exists (s2 sW sA sB s3 : ModelState.World) (wW wA wB : Worker)
         (roster_1 : list nat),
    StaleListing.economy StaleListing.two_hires_rng 2 = Ok s2 /\
    StaleListing.before_firms root52 s2 = Ok (tt, sW) /\
    SimpleFirmAgent.step 0 sW = Ok (tt, sA) /\
    SimpleFirmAgent.step 1 sA = Ok (tt, sB) /\
    SimpleCapitalistModel.collect sB = Ok (tt, s3) /\
    SimpleCapitalistModel.step root52 s2 = Ok (tt, s3) /\
    StaleListing.worker 1 sW = Some wW /\
    StaleListing.worker 1 sA = Some wA /\
    StaleListing.worker 1 sB = Some wB /\
    StaleListing.roster 1 sW = Some roster_1 /\
    In 1%nat roster_1 /\
    is_employed wW = false /\ employer wW = None /\
    employer wA = Some 0%nat /\
    total_wages_earned wW < total_wages_earned wA /\
    employer wB = Some 1%nat /\
    total_wages_earned wA < total_wages_earned wB.
Proof.
  split; [intros w firm p r g H; apply work_for_firm_employed, H|].
  split; [apply stream_ok; vm_compute; reflexivity|].
  do 9 eexists.
  do 10 (split; [vm_compute; reflexivity|]).
  split; [vm_compute; tauto|].
  do 5 (split; [vm_compute; reflexivity|]).
  vm_compute; reflexivity.
Qed.

(** C4, at a worker the code reaches: a low-skill worker who has been out
    of work for twenty weeks and has no debt.  The unemployment multiplier
    is [min(0.7, 1 - 20 * 0.05) = 0], so the reservation wage is 0, below
    the claimed floor [0.7 * 0.6 * 8 * 40]: the code takes the minimum
    where the debt multiplier takes the maximum, which makes 0.7 an upper
    bound of the unemployment multiplier. *)
Theorem reservation_wage_under_claimed_floor :
  (forall w, desperation_factor w <= 0.7) /\
  desperation_factor long_unemployed == 0 /\
  exists r, get_reservation_wage long_unemployed = Ok r /\
            r == 0 /\
            r < 0.7 * 0.6 * base_reservation (skill_level long_unemployed)
                * work_hours long_unemployed.
Proof.
  split; [exact desperation_factor_le|].
  split; [vm_compute; reflexivity|].
  eexists. split; [vm_compute; reflexivity|].
  split; vm_compute; reflexivity.
Qed.

(** C5 as stated fails: in Scenario B at the annual rate 0.26 the debt
    after one [step] is 502.5, since [handle_debt_mechanics] charges the
    week's interest on the fresh debt in the same step. *)
Lemma scenario_B_debt_is_not_500 :
  is_employed scenario_B = false /\ wealth scenario_B == 0 /\
  debt scenario_B == 0 /\ basic_needs scenario_B == 500 /\
  exists w' g', SimpleWorkerAgent.step scenario_B (constant_rng 0.5) = Ok (w', g') /\
                debt w' == 502.5 /\ ~ debt w' == 500.
Proof.
  split; [reflexivity|]. split; [reflexivity|]. split; [reflexivity|].
  split; [reflexivity|].
  eexists. eexists. split; [vm_compute; reflexivity|].
  split; [vm_compute; reflexivity | vm_compute; discriminate].
Qed.

(** C5, amended: for an unemployed worker with wealth 0, debt 0 and weekly
    needs 500, one [step] returns and leaves wealth at 0 and the debt at the
    shortfall plus one week of interest on it, [500 * (1 + interest_rate/52)]. *)
Theorem step_scenario_B (w : Worker) (g : Rng)
    (Hunemployed : is_employed w = false)
    (Hwealth : wealth w == 0) (Hdebt : debt w == 0)
    (Hneeds : basic_needs w == 500) :
  exists w' g', SimpleWorkerAgent.step w g = Ok (w', g') /\
                wealth w' == 0 /\
                debt w' == 500 * (1 + interest_rate w / 52).
Proof.
  unfold SimpleWorkerAgent.step, calculate_financial_stress.
  rewrite Hunemployed. cbn [negb].
  decided (Qgtb (debt w) 0) false; [lra|].
  cbn [rbind]. rewrite pydiv_ok by lra. cbn [rbind snd].
  match goal with
  | |- context [set_financial_stress ?v w] => generalize v; intros s
  end.
  unfold pay_basic_needs. wproj. rewrite Hunemployed. cbn [negb].
  decided (Qgeb (wealth w) (basic_needs w)) false; [lra|].
  unfold handle_debt_mechanics. wproj.
  decided (Qgtb (debt w + (basic_needs w - wealth w)) 0) true; [lra|].
  set (d1 := debt w + (basic_needs w - wealth w)
             + (debt w + (basic_needs w - wealth w)) * (interest_rate w / 52)).
  pose proof (pymax_le_r (d1 * 0.02) 20) as Hmin.
  decided (Qgeb 0 (pymax (d1 * 0.02) 20)) false; [lra|].
  wproj.
  match goal with
  | |- context [Qgtb (get_unmet_needs ?x) ?y] =>
      assert (Hunmet : Qgtb (get_unmet_needs x) y = false)
  end.
  { apply Qgtb_false. unfold get_unmet_needs. wproj.
    pose proof (pymin_le_l 0 (basic_needs w)).
    assert (0 <= pymin 0 (basic_needs w)) by (apply pymin_glb; lra). lra. }
  rewrite Hunmet, andb_false_r.
  unfold wealth_decay. wproj. rewrite Hunemployed. cbn [negb andb].
  decided (Qgtb 0 0) false; [lra|].
  unfold wealth_growth. wproj.
  decided (Qgtb 0 10000) false; [lra|].
  rewrite andb_false_r.
  eexists. eexists. split; [reflexivity|]. wproj.
  split; [reflexivity|].
  unfold d1. rewrite Hdebt, Hneeds, Hwealth. field.
Qed.

Lemma step_scenario_B_witness :
  exists w' g', SimpleWorkerAgent.step scenario_B (constant_rng 0.5) = Ok (w', g') /\
                wealth w' == 0 /\
                debt w' == 500 * (1 + interest_rate scenario_B / 52).
Proof.
  apply (step_scenario_B scenario_B (constant_rng 0.5));
    vm_compute; reflexivity.
Defined.

End WorkerClaims.

(** ** The economy's week *)

Section ModelFacts.
Import SimpleWorkerAgent FirmState ModelState Invariants SimpleCapitalistModel.
Local Open Scope world_scope.

Lemma call_worker_step_spec (n k i : nat) (Q : unit -> World -> Prop) (s : World) :
  wf n k s -> (i < n)%nat ->
  (forall s', wf n k s' -> Q tt s') ->
  wp (call_worker_step i) Q s.
Proof.
  intros Hwf Hi HQ. unfold call_worker_step.
  destruct (wf_worker n k s i Hwf Hi) as (w & Hw & Hok).
  apply wp_bind, (wp_worker_at i w); [exact Hw|].
  destruct (worker_step_ok w (rng s) (wf_rng_ok _ _ _ Hwf) Hok)
    as (w' & g' & Hstep & Hok' & _ & Hg').
  apply wp_bind. unfold wp at 1. rewrite Hstep.
  apply wp_set_worker, HQ.
  apply wf_set_worker; [|exact Hok'].
  eapply wf_same_model; [exact Hwf | reflexivity | exact Hg'].
Qed.

Lemma step_workers_spec (n k : nat) (refs : list nat)
    (Q : unit -> World -> Prop) (s : World) :
  wf n k s -> Forall (fun i => (i < n)%nat) refs ->
  (forall s', wf n k s' -> Q tt s') ->
  wp (step_workers refs) Q s.
Proof.
  intros Hwf Hr HQ. revert s Hwf.
  induction Hr as [|i refs Hi _ IH]; intros s Hwf; cbn [step_workers];
    [apply wp_ret, HQ, Hwf|].
  apply wp_bind, (call_worker_step_spec n k); [exact Hwf | exact Hi | exact IH].
Qed.

Lemma step_firms_spec (n k : nat) (refs : list nat)
    (Q : unit -> World -> Prop) (s : World) :
  wf n k s -> Forall (fun i => (i < k)%nat) refs ->
  (forall s', wf n k s' -> Q tt s') ->
  wp (step_firms refs) Q s.
Proof.
  intros Hwf Hr HQ. revert s Hwf.
  induction Hr as [|i refs Hi _ IH]; intros s Hwf; cbn [step_firms];
    [apply wp_ret, HQ, Hwf|].
  apply wp_bind, (firm_step_spec n k); [exact Hwf | exact Hi | exact IH].
Qed.

Lemma calculate_financial_stress_shape (w w' : Worker) (v : Q) :
  calculate_financial_stress w = Ok (v, w') -> w' = set_financial_stress v w.
Proof.
  unfold calculate_financial_stress.
  destruct (Qgtb (debt w) 0); cbn [rbind].
  - destruct (pydiv (debt w) (debt_capacity w)); cbn [rbind]; [|discriminate].
    destruct (pydiv (get_unmet_needs w) (basic_needs w)); cbn [rbind]; [|discriminate].
    intros [= <- <-]. reflexivity.
  - destruct (pydiv (get_unmet_needs w) (basic_needs w)); cbn [rbind]; [|discriminate].
    intros [= <- <-]. reflexivity.
Qed.

Lemma collect_stress_ok (ws : list Worker) :
  Forall worker_ok ws ->
  Forall worker_ok (collect_stress ws) /\ length (collect_stress ws) = length ws.
Proof.
  induction 1 as [|w ws Hw Hws [IH1 IH2]]; cbn [collect_stress]; [split; [constructor | reflexivity]|].
  destruct (calculate_financial_stress w) as [[v w']|e] eqn:E.
  - apply calculate_financial_stress_shape in E. subst w'.
    split; [constructor; [exact Hw | exact IH1] | cbn; f_equal; exact IH2].
  - split; [constructor; assumption | reflexivity].
Qed.

Lemma collect_spec (n k : nat) (Q : unit -> World -> Prop) (s : World) :
  wf n k s -> (forall s', wf n k s' -> Q tt s') -> wp collect Q s.
Proof.
  intros Hwf HQ. unfold collect. apply wp_modify_model, HQ.
  destruct Hwf as (Hg & Hn & Hk & Hw & Hf & Hu).
  destruct (collect_stress_ok _ Hw) as [H1 H2].
  unfold wf. cbn [model rng worker_agents firm_agents unemployed_workers
                  set_worker_agents].
  rewrite H2. wf_split; assumption.
Qed.

Lemma Forall_seq_lt (n : nat) : Forall (fun i => (i < n)%nat) (seq 0 n).
Proof. apply Forall_forall. intros i Hi. apply in_seq in Hi. lia. Qed.

(** One week of the economy keeps the world well-formed, and [step]
    returns. *)
Lemma model_step_spec (root52 : Q -> Q) (n k : nat)
    (Q : unit -> World -> Prop) (s : World) :
  wf n k s -> (forall s', wf n k s' -> Q tt s') ->
  wp (SimpleCapitalistModel.step root52) Q s.
Proof.
  intros Hwf HQ. unfold SimpleCapitalistModel.step.
  apply wp_bind, wp_get_model.
  apply wp_bind, wp_uniform; [apply Hwf | lra|]. intros noise g Hg _ _.
  apply wp_bind, wp_modify_model.
  match goal with
  | |- wp _ _ ?st => assert (Hwf1 : wf n k st);
      [|revert Hwf1; generalize st; intros s1 Hwf1]
  end.
  { destruct Hwf as (_ & Hn & Hk & Hw & Hf & Hu). wf_split; assumption. }
  apply wp_bind, wp_get_model.
  assert (Hn : length (worker_agents (model s1)) = n) by apply Hwf1.
  rewrite Hn.
  apply wp_bind, (step_workers_spec n k); [exact Hwf1 | apply Forall_seq_lt|].
  intros s2 Hwf2.
  assert (Hk : length (firm_agents (model s1)) = k) by apply Hwf1.
  rewrite Hk.
  apply wp_bind, (step_firms_spec n k); [exact Hwf2 | apply Forall_seq_lt|].
  intros s3 Hwf3. apply (collect_spec n k); assumption.
Qed.

Lemma run_spec (root52 : Q -> Q) (n k : nat) (num_steps : nat)
    (Q : unit -> World -> Prop) (s : World) :
  wf n k s -> (forall s', wf n k s' -> Q tt s') ->
  wp (run root52 num_steps) Q s.
Proof.
  intros Hwf HQ. revert s Hwf.
  induction num_steps as [|m IH]; intros s Hwf; cbn [run]; [apply wp_ret, HQ, Hwf|].
  apply wp_bind, (model_step_spec root52 n k); [exact Hwf | exact IH].
Qed.

Lemma wf_nonneg (n k : nat) (s : World) :
  wf n k s -> Forall nonneg (worker_agents (model s)).
Proof.
  intros (_ & _ & _ & Hw & _). eapply Forall_impl; [|exact Hw].
  intros w [H _]. exact H.
Qed.

End ModelFacts.

(** ** Construction *)

Section Construction.
Import SimpleWorkerAgent FirmState ModelState Invariants SimpleCapitalistModel.

(** Name the result of the next draw in the goal, with what is known
    about it. *)
Ltac draw_uniform Hg g' Hg' :=
  match goal with
  | |- context [rng_uniform ?a ?b ?g] =>
      let H1 := fresh "Hlo" in
      let H2 := fresh "Hhi" in
      let u := fresh "u" in
      destruct (rng_uniform_ok a b g Hg ltac:(lra)) as (Hg' & H1 & H2);
      destruct (rng_uniform a b g) as [u g']; cbn [fst snd] in Hg', H1, H2
  end.

Lemma worker_init_ok (uid : Z) (g : Rng) :
  rng_ok g ->
  worker_ok (fst (SimpleWorkerAgent.init uid 40 g)) /\
  rng_ok (snd (SimpleWorkerAgent.init uid 40 g)).
Proof.
  intros Hg. unfold SimpleWorkerAgent.init.
  assert (Hskill : rng_ok (snd (_determine_skill_level g))).
  { unfold _determine_skill_level.
    destruct (rng_random_ok g Hg) as (H & _). destruct (rng_random g) as [u g1].
    destruct (Qltb u 0.65); [exact H|]. destruct (Qltb u 0.85); exact H. }
  destruct (_determine_skill_level g) as [skill g1]. cbn [snd] in Hskill.
  assert (Hwealth : rng_ok (snd (_get_initial_wealth skill g1))).
  { unfold _get_initial_wealth. destruct skill;
      match goal with
      | |- context [rng_uniform ?a ?b g1] =>
          apply (rng_uniform_ok a b g1 Hskill ltac:(lra))
      end. }
  destruct (_get_initial_wealth skill g1) as [wealth0 g2]. cbn [snd] in Hwealth.
  draw_uniform Hwealth g3 Hg3.
  draw_uniform Hg3 g4 Hg4.
  assert (Hprod : rng_ok (snd (_get_productivity skill g4))).
  { unfold _get_productivity. destruct skill;
      match goal with
      | |- context [rng_uniform ?a ?b g4] =>
          apply (rng_uniform_ok a b g4 Hg4 ltac:(lra))
      end. }
  destruct (_get_productivity skill g4) as [prod g5]. cbn [snd] in Hprod.
  assert (Hown : rng_ok (snd (_determine_firm_ownership skill g5))).
  { unfold _determine_firm_ownership.
    destruct (rng_random_ok g5 Hprod) as (H & _). destruct (rng_random g5).
    exact H. }
  destruct (_determine_firm_ownership skill g5) as [owner g6]. cbn [snd] in Hown.
  cbn [fst snd]. split; [|exact Hown].
  unfold worker_ok, nonneg, worker_params_ok.
  cbn [wealth debt work_hours interest_rate debt_capacity basic_needs].
  pose proof (pymax_le_l 0 (- wealth0)) as Hd.
  pose proof (pymax_le_r 0 (- wealth0)) as Hd'.
  split; [split|].
  - destruct (Qltb wealth0 0) eqn:E.
    + apply Qltb_true in E.
      destruct (Qgtb (pymax 0 (- wealth0)) 0) eqn:E'; [lra|].
      apply Qgtb_false in E'. lra.
    + apply Qltb_false in E. destruct (Qgtb 0 0); lra.
  - destruct (Qltb wealth0 0); lra.
  - repeat split; try lra. destruct skill; lra.
Qed.

Lemma create_workers_ok (n : nat) (i : Z) (g : Rng) :
  rng_ok g ->
  Forall worker_ok (fst (create_workers n i g)) /\
  length (fst (create_workers n i g)) = n /\
  rng_ok (snd (create_workers n i g)).
Proof.
  revert i g. induction n as [|n IH]; intros i g Hg; cbn [create_workers].
  - split; [constructor | split; [reflexivity | exact Hg]].
  - destruct (worker_init_ok i g Hg) as [Hw Hg1].
    destruct (SimpleWorkerAgent.init i 40 g) as [w g1]. cbn [fst snd] in Hw, Hg1.
    destruct (IH (i + 1)%Z g1 Hg1) as (Hws & Hlen & Hg2).
    destruct (create_workers n (i + 1) g1) as [ws g2]. cbn [fst snd] in *.
    split; [constructor; assumption | split; [cbn [length]; f_equal; exact Hlen | exact Hg2]].
Qed.

Lemma skill_preferences_ok (g : Rng) :
  rng_ok g ->
  exists prefs g', SimpleFirmAgent._determine_skill_preferences g = Ok (prefs, g') /\
                   rng_ok g'.
Proof.
  intros Hg. unfold SimpleFirmAgent._determine_skill_preferences.
  draw_uniform Hg g1 Hg1. draw_uniform Hg1 g2 Hg2. draw_uniform Hg2 g3 Hg3.
  assert (Htotal : ~ pysum [u; u0; u1] == 0).
  { unfold pysum. cbn [fold_left]. lra. }
  rewrite !(pydiv_ok _ _ Htotal). cbn [rbind]. eauto.
Qed.

Lemma firm_init_ok (n : nat) (uid : Z) (g : Rng) :
  rng_ok g ->
  exists f g', SimpleFirmAgent.init uid g = Ok (f, g') /\
               firm_ok n f /\ workers f = [] /\ rng_ok g'.
Proof.
  intros Hg. unfold SimpleFirmAgent.init.
  draw_uniform Hg g1 Hg1.
  destruct (rng_below_ok 51 g1 Hg1 ltac:(lia)) as (Hg2 & _).
  destruct (rng_below 51 g1) as [m g2]. cbn [snd] in Hg2.
  destruct (skill_preferences_ok g2 Hg2) as (prefs & g3 & -> & Hg3). cbn [rbind].
  draw_uniform Hg3 g4 Hg4. draw_uniform Hg4 g5 Hg5. draw_uniform Hg5 g6 Hg6.
  draw_uniform Hg6 g7 Hg7. draw_uniform Hg7 g8 Hg8. draw_uniform Hg8 g9 Hg9.
  draw_uniform Hg9 g10 Hg10. draw_uniform Hg10 g11 Hg11.
  draw_uniform Hg11 g12 Hg12. draw_uniform Hg12 g13 Hg13.
  eexists. eexists. split; [reflexivity|].
  split; [|split; [reflexivity | exact Hg13]].
  unfold firm_ok. cbn [wage_rates workers at_high at_medium at_low].
  repeat split; try lra. constructor.
Qed.

Lemma create_firms_ok (n k : nat) (uid : Z) (g : Rng) :
  rng_ok g ->
  exists fs g', create_firms k uid g = Ok (fs, g') /\
                Forall (firm_ok n) fs /\ length fs = k /\ rng_ok g'.
Proof.
  revert uid g. induction k as [|k IH]; intros uid g Hg; cbn [create_firms].
  - exists [], g. split; [reflexivity | split; [constructor | split; [reflexivity | exact Hg]]].
  - destruct (firm_init_ok n uid g Hg) as (f & g1 & -> & Hf & _ & Hg1). cbn [rbind].
    destruct (IH (uid + 1)%Z g1 Hg1) as (fs & g2 & -> & Hfs & Hlen & Hg2). cbn [rbind].
    exists (f :: fs), g2.
    split; [reflexivity | split; [constructor; assumption | split; [cbn; f_equal; exact Hlen | exact Hg2]]].
Qed.

(** The constructor checks nothing: for any number of firms and any
    non-zero number of workers it returns a well-formed world, with every
    worker unemployed. *)
Lemma init_ok (num_workers num_firms num_owners : Z) (g : Rng) :
  rng_ok g -> num_workers <> 0%Z ->
  exists world, SimpleCapitalistModel.init num_workers num_firms num_owners g = Ok world /\
                wf (Z.to_nat num_workers) (Z.to_nat num_firms) world /\
                unemployed_workers (model world) = seq 0 (Z.to_nat num_workers) /\
                employed_workers (model world) = [].
Proof.
  intros Hg Hnw. unfold SimpleCapitalistModel.init.
  destruct (create_workers_ok (Z.to_nat num_workers) 0%Z g Hg) as (Hws & Hlen & Hg1).
  destruct (create_workers (Z.to_nat num_workers) 0 g) as [ws g1]. cbn [fst snd] in *.
  destruct (create_firms_ok (Z.to_nat num_workers) (Z.to_nat num_firms) num_workers g1 Hg1)
    as (fs & g2 & -> & Hfs & Hk & Hg2). cbn [rbind].
  unfold collect, modify_model. cbn [rbind snd model rng].
  rewrite pydiv_ok.
  2:{ change 0 with (inject_Z 0). rewrite inject_Z_injective. exact Hnw. }
  cbn [rbind]. eexists. split; [reflexivity|].
  destruct (collect_stress_ok ws Hws) as [Hc1 Hc2].
  split; [|split; reflexivity].
  unfold wf. cbn [model rng worker_agents firm_agents unemployed_workers
                  set_worker_agents].
  rewrite Hc2, Hlen. wf_split; try assumption; [reflexivity|].
  apply Forall_seq_lt.
Qed.

(** With [num_workers = 0] the constructor does fail, but not by a check of
    its own: the closing log line divides by [num_workers]. *)
Lemma init_zero_workers (num_firms num_owners : Z) (g : Rng) :
  rng_ok g ->
  SimpleCapitalistModel.init 0 num_firms num_owners g = Raise ZeroDivisionError.
Proof.
  intros Hg. unfold SimpleCapitalistModel.init. cbn [Z.to_nat create_workers].
  destruct (create_firms_ok 0 (Z.to_nat num_firms) 0%Z g Hg)
    as (fs & g2 & -> & _). cbn [rbind].
  reflexivity.
Qed.

End Construction.

(** ** Checking a concrete world *)

Section CheckedWorlds.
Import SimpleWorkerAgent FirmState ModelState Invariants Scenarios.

Lemma constant_rng_ok (u : Q) : 0 <= u -> u < 1 -> rng_ok (constant_rng u).
Proof. intros H0 H1 n. split; assumption. Qed.

Lemma broke_rng_ok : rng_ok broke_rng.
Proof.
  intros n. unfold broke_rng. cbn [draws].
  destruct (n <? 12)%nat; split; lra.
Qed.

Lemma worker_okb_sound (w : Worker) : worker_okb w = true -> worker_ok w.
Proof.
  unfold worker_okb. rewrite !andb_true_iff.
  intros (((((H1 & H2) & H3) & H4) & H5) & H6).
  apply Qle_bool_iff in H1, H2, H4. apply Qltb_true in H3, H5, H6.
  repeat split; assumption.
Qed.

Lemma firm_okb_sound (n : nat) (f : Firm) : firm_okb n f = true -> firm_ok n f.
Proof.
  unfold firm_okb. rewrite !andb_true_iff.
  intros (((H1 & H2) & H3) & H4).
  apply Qle_bool_iff in H1, H2, H3.
  repeat split; try assumption.
  apply Forall_forall. intros i Hi.
  rewrite forallb_forall in H4. apply Nat.ltb_lt, H4, Hi.
Qed.

Lemma wf_check_sound (n k : nat) (m : Model) (g : Rng) :
  rng_ok g -> wf_check n k m = true -> wf n k (mkWorld m g).
Proof.
  intros Hg. unfold wf_check. rewrite !andb_true_iff.
  intros ((((H1 & H2) & H3) & H4) & H5).
  apply Nat.eqb_eq in H1, H2.
  rewrite forallb_forall in H3, H4, H5.
  split; [exact Hg|]. split; [exact H1|]. split; [exact H2|].
  split; [|split]; apply Forall_forall; intros x Hx.
  - apply worker_okb_sound, H3, Hx.
  - apply firm_okb_sound, H4, Hx.
  - apply Nat.ltb_lt, H5, Hx.
Qed.

Lemma scenario_D_wf : wf 6 1 scenario_D.
Proof.
  apply (wf_check_sound 6 1 (model scenario_D) (constant_rng 0.1)).
  - apply constant_rng_ok; lra.
  - vm_compute. reflexivity.
Qed.

End CheckedWorlds.

(** ** Firing *)

Section Firing.
Import SimpleWorkerAgent FirmState ModelState Invariants SimpleFirmAgent Scenarios.
Local Open Scope world_scope.

Lemma bind_ok {A B} (m : M A) (k : A -> M B) (s : World) (b : B) (s' : World) :
  bind m k s = Ok (b, s') ->
  exists a s1, m s = Ok (a, s1) /\ k a s1 = Ok (b, s').
Proof.
  unfold bind. destruct (m s) as [[a s1]|e]; [eauto | discriminate].
Qed.

Lemma mem_In (x : nat) (xs : list nat) : In x xs -> mem x xs = true.
Proof.
  intros H. unfold mem. apply existsb_exists. exists x.
  split; [exact H | apply Nat.eqb_refl].
Qed.

Lemma roster_firm (self : nat) (s : World) (f : Firm) :
  nth_error (firm_agents (model s)) self = Some f -> roster self s = workers f.
Proof. unfold roster. intros ->. reflexivity. Qed.

(** [fire_worker] takes the first occurrence of a listed worker off the
    roster, and leaves the roster alone otherwise. *)
Lemma fire_worker_roster (self x : nat) (s s' : World) (b : bool) (f : Firm) :
  nth_error (firm_agents (model s)) self = Some f ->
  fire_worker self x s = Ok (b, s') ->
  roster self s' =
  (if mem x (workers f) then remove_first x (workers f) else workers f).
Proof.
  intros Hf H. unfold fire_worker in H.
  apply bind_ok in H. destruct H as (f0 & s0 & H0 & H).
  unfold firm_at in H0. rewrite Hf in H0. injection H0 as <- <-.
  destruct (mem x (workers f)).
  2:{ injection H as _ <-. apply roster_firm, Hf. }
  apply bind_ok in H. destruct H as ([] & s1 & H1 & H).
  injection H1 as <-.
  apply bind_ok in H. destruct H as (w & s2 & H2 & H).
  unfold worker_at in H2.
  destruct (nth_error _ x) as [w0|]; [|discriminate]. injection H2 as <- <-.
  apply bind_ok in H. destruct H as ([] & s3 & H3 & H). injection H3 as <-.
  apply bind_ok in H. destruct H as (m4 & s4 & H4 & H). injection H4 as <- <-.
  apply bind_ok in H. destruct H as ([] & s5 & H5 & H).
  apply bind_ok in H. destruct H as (m6 & s6 & H6 & H). injection H6 as <- <-.
  apply bind_ok in H. destruct H as ([] & s7 & H7 & H). injection H as _ <-.
  assert (E : firm_agents (model s7) =
              set_nth self (set_workers (remove_first x (workers f)) f)
                      (firm_agents (model s))).
  { destruct (negb (mem x (unemployed_workers (model s5))));
      injection H7 as <-;
      destruct (mem x (employed_workers _)); injection H5 as <-; reflexivity. }
  unfold roster. rewrite E, nth_error_set_nth_eq; [reflexivity|].
  apply nth_error_Some. congruence.
Qed.

(** What a firing decision does to the roster: a worker goes exactly when
    the last profit is below -500, the roster has more than five entries
    and the draw is below 0.45, and then it is one of the listed workers. *)
Lemma firing_decision_effect (self : nat) (s s' : World) (f : Firm) :
  nth_error (firm_agents (model s)) self = Some f ->
  firing_decision self s = Ok (tt, s') ->
  if Qltb (profit f) (-500) && (5 <? length (workers f))%nat
     && Qltb (draws (rng s) (cursor (rng s))) 0.45
  then exists x, In x (workers f) /\
                 roster self s' = remove_first x (workers f)
  else roster self s' = workers f.
Proof.
  intros Hf H. unfold firing_decision in H.
  apply bind_ok in H. destruct H as (f0 & s0 & H0 & H).
  unfold firm_at in H0. rewrite Hf in H0. injection H0 as <- <-.
  destruct (Qltb (profit f) (-500) && (5 <? length (workers f))%nat);
    cbn [andb].
  2:{ injection H as <-. apply roster_firm, Hf. }
  apply bind_ok in H. destruct H as (u & s1 & H1 & H).
  unfold random, with_rng, rng_random in H1. injection H1 as <- <-.
  destruct (Qltb (draws (rng s) (cursor (rng s))) 0.45).
  2:{ injection H as <-. apply (roster_firm self _ f), Hf. }
  apply bind_ok in H. destruct H as (x & s2 & H2 & H).
  apply bind_ok in H. destruct H as (b & s3 & H3 & H). injection H as <-.
  unfold choice in H2. apply bind_ok in H2. destruct H2 as (i & s4 & H4 & H2).
  unfold with_rng in H4.
  destruct (rng_below _ _) as [i0 g0]. injection H4 as <- <-.
  destruct (nth_error (workers f) i0) as [x0|] eqn:Ex; [|discriminate].
  injection H2 as <- <-.
  apply nth_error_In in Ex.
  exists x0. split; [exact Ex|].
  rewrite (fire_worker_roster self x0 (mkWorld (model s) g0) s3 b f Hf H3),
    (mem_In _ _ Ex).
  reflexivity.
Qed.

Lemma firing_decision_length (self : nat) (s s' : World) :
  firing_decision self s = Ok (tt, s') ->
  roster self s' = roster self s \/
  ((5 < length (roster self s))%nat /\
   S (length (roster self s')) = length (roster self s)).
Proof.
  intros H.
  destruct (nth_error (firm_agents (model s)) self) as [f|] eqn:Hf.
  2:{ unfold firing_decision, bind, firm_at in H. rewrite Hf in H. discriminate. }
  pose proof (firing_decision_effect self s s' f Hf H) as HE.
  rewrite (roster_firm self s f Hf).
  destruct (Qltb (profit f) (-500)); cbn [andb] in HE; [|left; exact HE].
  destruct (5 <? length (workers f))%nat eqn:E5; cbn [andb] in HE; [|left; exact HE].
  destruct (Qltb _ 0.45); [|left; exact HE].
  destruct HE as (x & Hx & ->). right.
  split; [apply Nat.ltb_lt, E5 | apply length_remove_first, Hx].
Qed.

(** C8 as stated fails: in Scenario D (six workers, profit -600) a draw
    of 0.1 fires a worker while the guard [len(workers) > 5] holds, and the
    roster is left with five entries, which is at 5. *)
Lemma scenario_D_roster_reaches_five :
  exists s',
    firing_decision 0 scenario_D = Ok (tt, s') /\
    firing_only 0 scenario_D s' /\
    (5 < length (roster 0 scenario_D))%nat /\
    (length (roster 0 s') <= 5)%nat.
Proof.
  exists scenario_D_after_firing.
  assert (H : firing_decision 0 scenario_D = Ok (tt, scenario_D_after_firing))
    by (vm_compute; reflexivity).
  split; [exact H|].
  split; [eapply firing_only_fire; [apply firing_only_refl | exact H]|].
  split; vm_compute; lia.
Qed.

(** C8, amended: a firing decision takes a worker off the roster exactly
    when the last profit is below -500, the roster has strictly more than
    five entries and the draw is below 0.45, and it then removes one
    listed worker; consequently, over any run in which firing is the only
    roster change, a roster that starts with at least five entries never
    falls below five (it can reach five, where the guard stops the
    firing). *)
Theorem firing_never_takes_roster_below_five (self : nat) (s s' : World)
    (Hrun : firing_only self s s')
    (Hstart : (5 <= length (roster self s))%nat) :
  (5 <= length (roster self s'))%nat /\
  (forall (s1 s2 : World) (f : Firm),
      nth_error (firm_agents (model s1)) self = Some f ->
      firing_decision self s1 = Ok (tt, s2) ->
      if Qltb (profit f) (-500) && (5 <? length (workers f))%nat
         && Qltb (draws (rng s1) (cursor (rng s1))) 0.45
      then exists x, In x (workers f) /\
                     roster self s2 = remove_first x (workers f) /\
                     S (length (roster self s2)) = length (roster self s1)
      else roster self s2 = roster self s1).
Proof.
  split.
  - induction Hrun as [s | s s1 s2 _ IH Hfire | s s1 s2 _ IH Hsame].
    + exact Hstart.
    + specialize (IH Hstart).
      destruct (firing_decision_length self s1 s2 Hfire) as [-> | [H5 HS]]; lia.
    + rewrite Hsame. apply IH, Hstart.
  - intros s1 s2 f Hf Hfire.
    pose proof (firing_decision_effect self s1 s2 f Hf Hfire) as HE.
    rewrite (roster_firm self s1 f Hf).
    destruct (_ && _ && _); [|exact HE].
    destruct HE as (x & Hx & HE). exists x.
    split; [exact Hx | split; [exact HE|]].
    rewrite HE. apply length_remove_first, Hx.
Qed.

Lemma firing_scenario_D_witness :
  (5 <= length (roster 0 scenario_D_after_firing))%nat.
Proof.
  apply (firing_never_takes_roster_below_five 0 scenario_D scenario_D_after_firing).
  - eapply firing_only_fire; [apply firing_only_refl | vm_compute; reflexivity].
  - vm_compute. lia.
Defined.

End Firing.

(** ** The production loop *)

Section Production.
Import SimpleWorkerAgent FirmState ModelState Invariants SimpleFirmAgent Scenarios.
Local Open Scope world_scope.

(** One turn of the loop: the worker object and the firm's [wages_paid]
    are rewritten in place, and a worker who was employed is rewritten
    with itself. *)
Lemma produce_cons_spec (n k self i : nat) (rest : list nat) (total : Q)
    (Q : Q -> World -> Prop) (s : World) (f : Firm) (w : Worker) :
  wf n k s -> (self < k)%nat -> (i < n)%nat ->
  nth_error (firm_agents (model s)) self = Some f ->
  nth_error (worker_agents (model s)) i = Some w ->
  (forall w' g',
      (is_employed w = true -> w' = w) ->
      let s3 :=
        mkWorld
          (set_firm_agents
             (set_nth self (set_wages_paid (wages_paid f + wage w') f)
                (firm_agents (model s)))
             (set_worker_agents (set_nth i w' (worker_agents (model s)))
                (model s)))
          g' in
      wf n k s3 ->
      wp (produce self rest (total + get_productive_value w)) Q s3) ->
  wp (produce self (i :: rest) total) Q s.
Proof.
  intros Hwf Hs Hi Hf Hw HQ. cbn [produce].
  assert (Hok : worker_ok w).
  { destruct Hwf as (_ & _ & _ & Hws & _). eapply Forall_nth_error; eauto. }
  assert (Hfok : firm_ok n f).
  { destruct Hwf as (_ & _ & _ & _ & Hfs & _). eapply Forall_nth_error; eauto. }
  apply wp_bind, (wp_worker_at i w); [exact Hw|].
  apply wp_bind, (calculate_worker_wage_offer_spec n k); try assumption.
  intros offer s1 Hm1 Hg1 Hoffer.
  destruct s1 as [m1 g1]. cbn [model rng] in Hm1, Hg1. subst m1.
  assert (Hwf1 : wf n k (mkWorld (model s) g1))
    by (eapply wf_same_model; [exact Hwf | reflexivity | exact Hg1]).
  assert (Hh : 0 < work_hours w) by apply Hok.
  apply wp_bind, (wp_lift _ (offer / work_hours w)); [apply pydiv_ok; lra|].
  apply wp_bind. unfold wp at 1.
  rewrite (call_work_for_firm_run self i _ (mkWorld (model s) g1) f w Hf Hw).
  cbn [model rng].
  assert (Hhourly : 0 <= offer / work_hours w) by (apply Qdiv_nonneg; assumption).
  destruct (work_for_firm_ok self (profit f) (offer / work_hours w) w g1 Hg1 Hok Hhourly)
    as (Hok' & Hg').
  pose proof (work_for_firm_employed self (profit f) (offer / work_hours w) w g1) as Hnoop.
  destruct (work_for_firm self (profit f) (offer / work_hours w) w g1)
    as [[v w'] g'].
  cbn [fst snd] in *.
  assert (Hlen : (i < length (worker_agents (model s)))%nat)
    by (apply nth_error_Some; congruence).
  apply wp_bind, (wp_worker_at i w');
    [cbn [model worker_agents set_worker_agents]; apply nth_error_set_nth_eq, Hlen|].
  apply wp_bind, (wp_firm_at self f); [exact Hf|].
  apply wp_bind, wp_set_firm.
  cbn [model rng firm_agents set_worker_agents].
  apply HQ.
  - intros E. specialize (Hnoop E). congruence.
  - apply (wf_set_firm n k
             (mkWorld (set_worker_agents (set_nth i w' (worker_agents (model s)))
                         (model s)) g') self); [|exact Hfok].
    eapply wf_same_model with
      (s := mkWorld (set_worker_agents (set_nth i w' (worker_agents (model s)))
                       (model s)) (rng s));
      [apply wf_set_worker; assumption | reflexivity | exact Hg'].
Qed.

(** The loop returns, and a worker who is employed when it starts is the
    same object, field for field, when it ends. *)
Lemma produce_frame (n k self : nat) (roster : list nat) (total : Q) (s : World) :
  wf n k s -> (self < k)%nat -> Forall (fun i => (i < n)%nat) roster ->
  wp (produce self roster total)
     (fun _ s' =>
        wf n k s' /\
        forall j w, nth_error (worker_agents (model s)) j = Some w ->
                    is_employed w = true ->
                    nth_error (worker_agents (model s')) j = Some w) s.
Proof.
  intros Hwf Hs Hr. revert total s Hwf.
  induction Hr as [|i rest Hi _ IH]; intros total s Hwf.
  - apply wp_ret. split; [exact Hwf | auto].
  - destruct (wf_firm n k s self Hwf Hs) as (f & Hf & _).
    destruct (wf_worker n k s i Hwf Hi) as (w & Hw & _).
    apply (produce_cons_spec n k self i rest total _ s f w); try assumption.
    intros w' g' Hnoop s3 Hwf3.
    eapply wp_mono; [apply IH, Hwf3|].
    intros v s' [Hwf' Hframe]. split; [exact Hwf'|].
    intros j wj Hj Ej. apply Hframe; [|exact Ej].
    unfold s3. cbn [model worker_agents set_firm_agents set_worker_agents].
    destruct (Nat.eq_dec i j) as [->|Hne].
    + assert (wj = w) by congruence. subst wj.
      rewrite (Hnoop Ej). rewrite set_nth_same; assumption.
    + rewrite nth_error_set_nth_neq; assumption.
Qed.

(** On a roster of employed workers the loop changes no worker at all,
    adds the stored wage fields to [wages_paid] and the productive values
    to the running total. *)
Lemma produce_all_employed (n k self : nat) (roster : list nat) (total : Q)
    (s : World) (f : Firm) :
  wf n k s -> (self < k)%nat ->
  nth_error (firm_agents (model s)) self = Some f ->
  Forall (fun i => exists w, nth_error (worker_agents (model s)) i = Some w /\
                             is_employed w = true) roster ->
  wp (produce self roster total)
     (fun v s' =>
        worker_agents (model s') = worker_agents (model s) /\
        (exists f', nth_error (firm_agents (model s')) self = Some f' /\
                    wages_paid f' ==
                    wages_paid f + stored_wages (worker_agents (model s)) roster) /\
        v == total + produced_value (worker_agents (model s)) roster) s.
Proof.
  intros Hwf Hs Hf Hr. revert total s f Hwf Hf Hr.
  induction roster as [|i rest IH]; intros total s f Hwf Hf Hr.
  - apply wp_ret. cbn [stored_wages produced_value].
    split; [reflexivity|]. split; [exists f; split; [exact Hf | ring] | ring].
  - inversion Hr as [|? ? (w & Hw & Ew) Hrest]; subst.
    assert (Hi : (i < n)%nat).
    { destruct Hwf as (_ & Hn & _). rewrite <- Hn. apply nth_error_Some. congruence. }
    apply (produce_cons_spec n k self i rest total _ s f w); try assumption.
    intros w' g' Hnoop s3 Hwf3. specialize (Hnoop Ew). subst w'.
    assert (Hws : worker_agents (model s3) = worker_agents (model s)).
    { unfold s3. cbn [model worker_agents set_firm_agents set_worker_agents].
      apply set_nth_same, Hw. }
    assert (Hf3 : nth_error (firm_agents (model s3)) self
                  = Some (set_wages_paid (wages_paid f + wage w) f)).
    { unfold s3. cbn [model firm_agents set_firm_agents].
      apply nth_error_set_nth_eq, nth_error_Some. congruence. }
    eapply wp_mono.
    + apply (IH _ s3 _ Hwf3 Hf3). rewrite Hws. exact Hrest.
    + intros v s' (Hsame & (f' & Hf' & Hwages) & Hv).
      rewrite Hws in *. cbn [stored_wages produced_value]. rewrite Hw.
      split; [exact Hsame|].
      split; [exists f'; split; [exact Hf'|]|].
      * rewrite Hwages. cbn [wages_paid set_wages_paid]. ring.
      * rewrite Hv. ring.
Qed.

(** C10 as stated fails: wage income is credited again after the week of
    the first hire.  In [SimpleCapitalistModel(4, 2)] with the draws of
    [no_hire_rng], worker 1 is hired by firm 1 in week 1 and paid, is fired
    in week 2 through one of their two roster entries, and in week 3,
    before any firm has hired or fired, firm 1's production loop reaches
    the entry that is left, finds the worker unemployed, and
    [work_for_firm] employs and pays them: wealth and
    [total_wages_earned] rise in the loop. *)
Lemma production_loop_pays_a_listed_unemployed_worker :
  rng_ok StaleListing.no_hire_rng /\
  exists (s0 s1 s2 sW sA sR sP : World) (w0 w1 w2 wR wP : Worker)
         (roster_1 : list nat) (v : Q),
    StaleListing.economy StaleListing.no_hire_rng 0 = Ok s0 /\
    StaleListing.economy StaleListing.no_hire_rng 1 = Ok s1 /\
    StaleListing.economy StaleListing.no_hire_rng 2 = Ok s2 /\
    StaleListing.worker 1 s0 = Some w0 /\
    StaleListing.worker 1 s1 = Some w1 /\
    StaleListing.worker 1 s2 = Some w2 /\
    is_employed w0 = false /\ total_wages_earned w0 == 0 /\
    employer w1 = Some 1%nat /\ 0 < total_wages_earned w1 /\
    is_employed w2 = false /\
    total_wages_earned w2 == total_wages_earned w1 /\
    StaleListing.before_firms root52 s2 = Ok (tt, sW) /\
    SimpleFirmAgent.step 0 sW = Ok (tt, sA) /\
    StaleListing.before_production 1 sA = Ok (tt, sR) /\
    StaleListing.roster 0 sR = Some [] /\
    StaleListing.roster 1 sR = Some roster_1 /\
    In 1%nat roster_1 /\
    StaleListing.worker 1 sR = Some wR /\
    is_employed wR = false /\
    total_wages_earned wR == total_wages_earned w1 /\
    produce 1 roster_1 0 sR = Ok (v, sP) /\
    StaleListing.worker 1 sP = Some wP /\
    is_employed wP = true /\ employer wP = Some 1%nat /\
    total_wages_earned wR < total_wages_earned wP /\
    wealth wR < wealth wP /\
    StaleListing.roster 0 sP = Some [] /\
    StaleListing.roster 1 sP = Some roster_1.
Proof.
  split; [apply stream_ok; vm_compute; reflexivity|].
  do 14 eexists.
  do 7 (split; [vm_compute; reflexivity|]).
  split; [vm_compute; reflexivity|].
  do 4 (split; [vm_compute; reflexivity|]).
  do 5 (split; [vm_compute; reflexivity|]).
  split; [vm_compute; tauto|].
  do 10 (split; [vm_compute; reflexivity|]).
  vm_compute; reflexivity.
Qed.

(** C10, amended: the production loop of [FirmAgent.step] returns, and
    every worker who is employed when it starts is unchanged when it ends,
    in every field (so in wealth, wage, total_wages_earned and
    total_taxes_paid): the [work_for_firm] call on such a worker returns at
    once.  So the loop credits wage income only to a worker it finds
    unemployed.  When the whole roster is employed, the loop changes no
    worker, and it adds to [wages_paid] the wage fields stored on the
    roster's workers, once per listing. *)
Theorem production_loop_skips_employed_workers
    (n k self : nat) (roster : list nat) (total : Q) (s : World) (f : Firm)
    (Hwf : wf n k s) (Hself : nth_error (firm_agents (model s)) self = Some f)
    (Hroster : Forall (fun i => (i < n)%nat) roster) :
  exists v s',
    produce self roster total s = Ok (v, s') /\
    (forall j w, nth_error (worker_agents (model s)) j = Some w ->
                 is_employed w = true ->
                 nth_error (worker_agents (model s')) j = Some w) /\
    (forall j w w', nth_error (worker_agents (model s)) j = Some w ->
                    nth_error (worker_agents (model s')) j = Some w' ->
                    ~ total_wages_earned w' == total_wages_earned w ->
                    is_employed w = false) /\
    (Forall (fun i => exists w, nth_error (worker_agents (model s)) i = Some w /\
                                is_employed w = true) roster ->
     worker_agents (model s') = worker_agents (model s) /\
     exists f', nth_error (firm_agents (model s')) self = Some f' /\
                wages_paid f' ==
                wages_paid f + stored_wages (worker_agents (model s)) roster).
Proof.
  assert (Hs : (self < k)%nat).
  { destruct Hwf as (_ & _ & Hk & _). rewrite <- Hk. apply nth_error_Some. congruence. }
  pose proof (produce_frame n k self roster total s Hwf Hs Hroster) as H1.
  apply wp_run in H1. destruct H1 as (v & s' & Hrun & _ & Hframe).
  exists v, s'. split; [exact Hrun|]. split; [exact Hframe|].
  split.
  { intros j w w' Hw Hw' Hne.
    destruct (is_employed w) eqn:E; [|reflexivity].
    exfalso. apply Hne.
    rewrite (Hframe j w Hw E) in Hw'. injection Hw' as <-. reflexivity. }
  intros Hall.
  pose proof (produce_all_employed n k self roster total s f Hwf Hs Hself Hall) as H2.
  unfold wp in H2. rewrite Hrun in H2.
  destruct H2 as (Hsame & Hwages & _). split; assumption.
Qed.

Lemma production_scenario_D_witness :
  exists v s',
    produce 0 [0; 1; 2; 3; 4; 5]%nat 0 scenario_D = Ok (v, s') /\
    (forall j w, nth_error (worker_agents (model scenario_D)) j = Some w ->
                 is_employed w = true ->
                 nth_error (worker_agents (model s')) j = Some w) /\
    (forall j w w', nth_error (worker_agents (model scenario_D)) j = Some w ->
                    nth_error (worker_agents (model s')) j = Some w' ->
                    ~ total_wages_earned w' == total_wages_earned w ->
                    is_employed w = false) /\
    (Forall (fun i => exists w,
                 nth_error (worker_agents (model scenario_D)) i = Some w /\
                 is_employed w = true) [0; 1; 2; 3; 4; 5]%nat ->
     worker_agents (model s') = worker_agents (model scenario_D) /\
     exists f', nth_error (firm_agents (model s')) 0 = Some f' /\
                wages_paid f' ==
                wages_paid (a_firm 6 [0; 1; 2; 3; 4; 5]%nat 40 (-600))
                + stored_wages (worker_agents (model scenario_D))
                    [0; 1; 2; 3; 4; 5]%nat).
Proof.
  apply (production_loop_skips_employed_workers 6 1 0 [0; 1; 2; 3; 4; 5]%nat 0
           scenario_D (a_firm 6 [0; 1; 2; 3; 4; 5]%nat 40 (-600))).
  - exact scenario_D_wf.
  - reflexivity.
  - repeat constructor.
Defined.

End Production.

(** ** The invariants of a run *)

Section RunClaims.
Import SimpleWorkerAgent FirmState ModelState Invariants Scenarios.
Import SimpleCapitalistModel.
Local Open Scope world_scope.

(** Every economy the constructor returns, after any number of weeks, is
    well-formed: the runs the invariants below speak about exist. *)
Lemma run_from_init (root52 : Q -> Q) (num_workers num_firms num_owners : Z)
    (g : Rng) (num_steps : nat) :
  rng_ok g -> num_workers <> 0%Z ->
  exists world world',
    SimpleCapitalistModel.init num_workers num_firms num_owners g = Ok world /\
    run root52 num_steps world = Ok (tt, world') /\
    Forall nonneg (worker_agents (model world')).
Proof.
  intros Hg Hnw.
  destruct (init_ok num_workers num_firms num_owners g Hg Hnw)
    as (world & Hinit & Hwf & _).
  pose proof (run_spec root52 _ _ num_steps
                (fun _ s' => wf (Z.to_nat num_workers) (Z.to_nat num_firms) s')
                world Hwf (fun s' H => H)) as Hrun.
  apply wp_run in Hrun. destruct Hrun as ([] & world' & Hrun & Hwf').
  exists world, world'. split; [exact Hinit|]. split; [exact Hrun|].
  eapply wf_nonneg, Hwf'.
Qed.

(** C6: from a well-formed world (every worker with [wealth >= 0] and
    [debt >= 0], attributes as the constructors draw them, draws in [0,1))
    any number of weeks of the economy run to completion and end in a
    well-formed world, so [wealth >= 0] and [debt >= 0] hold for every
    worker at every step boundary.  The same holds operation by operation:
    a worker's own [step] returns a worker with both fields non-negative,
    [work_for_firm] at a non-negative wage keeps them non-negative, and a
    firm's [step] (production pay, firing, and both hiring paths) does so
    for every worker of the economy.  Every economy the constructor
    returns is such a world, so the invariant holds at every step boundary
    of every run. *)
Theorem wealth_and_debt_stay_nonnegative
    (root52 : Q -> Q) (n k : nat) (s : World) (num_steps : nat)
    (Hwf : wf n k s) :
  (exists s', run root52 num_steps s = Ok (tt, s') /\ wf n k s' /\
              Forall nonneg (worker_agents (model s'))) /\
  (forall w g, In w (worker_agents (model s)) -> rng_ok g ->
               exists w' g', SimpleWorkerAgent.step w g = Ok (w', g') /\ nonneg w') /\
  (forall w g firm p r, In w (worker_agents (model s)) -> rng_ok g -> 0 <= r ->
                        nonneg (snd (fst (work_for_firm firm p r w g)))) /\
  (forall self, (self < k)%nat ->
                exists s', SimpleFirmAgent.step self s = Ok (tt, s') /\ wf n k s' /\
                           Forall nonneg (worker_agents (model s'))) /\
  (forall (num_workers num_firms num_owners : Z) (g : Rng),
      rng_ok g -> num_workers <> 0%Z ->
      exists world world',
        SimpleCapitalistModel.init num_workers num_firms num_owners g = Ok world /\
        run root52 num_steps world = Ok (tt, world') /\
        Forall nonneg (worker_agents (model world'))).
Proof.
  assert (Hws : Forall worker_ok (worker_agents (model s))) by apply Hwf.
  rewrite Forall_forall in Hws.
  split; [|split; [|split; [|split]]].
  5:{ intros nw nf no g Hg Hnw. apply run_from_init; assumption. }
  - pose proof (run_spec root52 n k num_steps (fun _ s' => wf n k s') s Hwf
                  (fun s' H => H)) as Hrun.
    apply wp_run in Hrun. destruct Hrun as ([] & s' & Hrun & Hwf').
    exists s'. split; [exact Hrun|]. split; [exact Hwf' | eapply wf_nonneg, Hwf'].
  - intros w g Hin Hg.
    destruct (worker_step_ok w g Hg (Hws w Hin)) as (w' & g' & Hstep & [Hnn _] & _).
    exists w', g'. split; assumption.
  - intros w g firm p r Hin Hg Hr.
    apply (work_for_firm_ok firm p r w g Hg (Hws w Hin) Hr).
  - intros self Hself.
    pose proof (firm_step_spec n k self (fun _ s' => wf n k s') s Hwf Hself
                  (fun s' H => H)) as Hstep.
    apply wp_run in Hstep. destruct Hstep as ([] & s' & Hstep & Hwf').
    exists s'. split; [exact Hstep|]. split; [exact Hwf' | eapply wf_nonneg, Hwf'].
Qed.

Lemma nonnegative_after_a_week_witness :
  exists s', run root52 1 scenario_D = Ok (tt, s') /\ wf 6 1 s' /\
             Forall nonneg (worker_agents (model s')).
Proof.
  apply (proj1 (wealth_and_debt_stay_nonnegative root52 6 1 scenario_D 1
                  scenario_D_wf)).
Defined.

(** C9 as stated fails: the constructor accepts [num_firms = 0] and builds
    an economy without firms, and it accepts [num_workers = -1] and builds
    an economy without workers. *)
Lemma init_accepts_invalid_sizes :
  (exists world,
      SimpleCapitalistModel.init 2 0 0 (constant_rng 0.5) = Ok world /\
      length (worker_agents (model world)) = 2%nat /\
      firm_agents (model world) = []) /\
  (exists world,
      SimpleCapitalistModel.init (-1) 1 0 (constant_rng 0.5) = Ok world /\
      worker_agents (model world) = [] /\
      length (firm_agents (model world)) = 1%nat).
Proof.
  split; eexists; (split; [vm_compute; reflexivity|]); split; reflexivity.
Qed.

(** C9, amended: the constructor performs no validation of the population
    sizes.  For every number of firms and every number of workers other
    than 0 it returns an economy, with [max(num_workers, 0)] workers, all
    unemployed, and [max(num_firms, 0)] firms; in particular it succeeds
    for every valid size, and [num_firms <= 0] yields an economy without
    firms. *)
Theorem init_performs_no_validation
    (num_workers num_firms num_owners : Z) (g : Rng)
    (Hg : rng_ok g) (Hworkers : num_workers <> 0%Z) :
  exists world,
    SimpleCapitalistModel.init num_workers num_firms num_owners g = Ok world /\
    length (worker_agents (model world)) = Z.to_nat num_workers /\
    length (firm_agents (model world)) = Z.to_nat num_firms /\
    unemployed_workers (model world) = seq 0 (Z.to_nat num_workers) /\
    employed_workers (model world) = [].
Proof.
  destruct (init_ok num_workers num_firms num_owners g Hg Hworkers)
    as (world & Hinit & Hwf & Hun & Hem).
  exists world. split; [exact Hinit|].
  destruct Hwf as (_ & Hn & Hk & _).
  repeat split; assumption.
Qed.

Lemma init_valid_sizes_witness :
  exists world,
    SimpleCapitalistModel.init 2 1 0 broke_rng = Ok world /\
    length (worker_agents (model world)) = Z.to_nat 2 /\
    length (firm_agents (model world)) = Z.to_nat 1 /\
    unemployed_workers (model world) = seq 0 (Z.to_nat 2) /\
    employed_workers (model world) = [].
Proof.
  apply (init_performs_no_validation 2 1 0 broke_rng).
  - exact broke_rng_ok.
  - discriminate.
Defined.

(** The defect behind C3 in one step: a firm of capacity 31 with thirty
    roster entries and one unemployed candidate.  [should_hire_worker]
    hires the candidate (31 entries) and returns [True], whereupon the
    hiring loop hires the same candidate again without looking at the
    capacity: the roster ends the step with 32 entries. *)
Lemma double_hire_at_capacity :
  exists f s' f',
    nth_error (firm_agents (model crowded)) 0 = Some f /\
    (Z.of_nat (length (workers f)) <= max_workers f)%Z /\
    SimpleFirmAgent.step 0 crowded = Ok (tt, s') /\
    nth_error (firm_agents (model s')) 0 = Some f' /\
    max_workers f' = 31%Z /\
    workers f' = workers f ++ [15; 15]%nat.
Proof.
  eexists. eexists. eexists.
  split; [reflexivity|].
  split; [vm_compute; discriminate|].
  split; [vm_compute; reflexivity|].
  split; [reflexivity|].
  split; vm_compute; reflexivity.
Qed.

(** C3, at an economy the code builds: [SimpleCapitalistModel(18, 1)] with
    high-skill workers and a firm of capacity 35 that accepts every
    candidate.  After five weeks the roster has 30 entries, within the
    bound.  In the sixth week every accepted candidate is hired twice,
    once inside [should_hire_worker] and once more by the loop of
    [_make_employment_decisions], which checks the capacity only at the top
    of each turn: the step ends with 36 roster entries for a capacity of
    35. *)
Theorem roster_exceeds_capacity :
  exists s5 s6 f5 f6,
    boom_economy 5 = Ok s5 /\
    nth_error (firm_agents (model s5)) 0 = Some f5 /\
    max_workers f5 = 35%Z /\ length (workers f5) = 30%nat /\
    SimpleCapitalistModel.step root52 s5 = Ok (tt, s6) /\
    nth_error (firm_agents (model s6)) 0 = Some f6 /\
    max_workers f6 = 35%Z /\ length (workers f6) = 36%nat /\
    (max_workers f6 < Z.of_nat (length (workers f6)))%Z /\
    workers f6 = workers f5 ++ [15; 15; 16; 16; 17; 17]%nat.
Proof.
  eexists. eexists. eexists. eexists.
  split; [vm_compute; reflexivity|].
  split; [reflexivity|].
  split; [reflexivity|]. split; [reflexivity|].
  split; [vm_compute; reflexivity|].
  split; [reflexivity|].
  split; [reflexivity|]. split; [reflexivity|].
  split; [reflexivity | reflexivity].
Qed.

End RunClaims.

(** * Further properties of the code *)

(** ** A worker's own methods *)

Section WorkerMethods.
Import SimpleWorkerAgent Invariants Scenarios Frames.

Lemma unmet_needs_cases (w : Worker) :
  0 <= get_unmet_needs w /\
  (basic_needs w <= wealth w -> get_unmet_needs w == 0) /\
  (wealth w < basic_needs w ->
   get_unmet_needs w == basic_needs w - wealth w) /\
  (0 <= wealth w -> 0 <= basic_needs w ->
   get_unmet_needs w <= basic_needs w).
Proof.
  unfold get_unmet_needs, pymin.
  qcase; (split; [|split; [|split]]); intros; lra.
Qed.

(** [get_unmet_needs] is the part of the weekly needs that wealth does not
    cover: never negative, the whole shortfall [basic_needs - wealth] when
    wealth is short, 0 when wealth covers the needs, and at most the needs
    themselves for a worker whose wealth is not negative. *)
Theorem unmet_needs_is_the_shortfall (w : Worker) :
  0 <= get_unmet_needs w /\
  (basic_needs w <= wealth w -> get_unmet_needs w == 0) /\
  (wealth w < basic_needs w ->
   get_unmet_needs w == basic_needs w - wealth w) /\
  (0 <= wealth w -> 0 <= basic_needs w ->
   get_unmet_needs w <= basic_needs w).
Proof. exact (unmet_needs_cases w). Qed.

Lemma pysum_1 (a : Q) : pysum [a] == a.
Proof. unfold pysum. cbn [fold_left]. ring. Qed.

Lemma pysum_2 (a b : Q) : pysum [a; b] == a + b.
Proof. unfold pysum. cbn [fold_left]. ring. Qed.

Lemma pysum_3 (a b c : Q) : pysum [a; b; c] == a + b + c.
Proof. unfold pysum. cbn [fold_left]. ring. Qed.

Lemma pymin_cases (a b : Q) :
  (pymin a b = a /\ a <= b) \/ (pymin a b = b /\ b < a).
Proof. unfold pymin. qcase; [right | left]; split; auto. Qed.

Lemma pymax_cases (a b : Q) :
  (pymax a b = a /\ b <= a) \/ (pymax a b = b /\ a < b).
Proof. unfold pymax. qcase; [right | left]; split; auto. Qed.

(** [calculate_financial_stress], for a worker with non-negative debt and
    positive debt capacity and needs: it returns, the stress lies on the
    0-1 scale its docstring promises, it is at least 0.4 for an unemployed
    worker and 0 for an employed one without debt whose wealth covers the
    needs, and the only field it writes is [financial_stress]. *)
Theorem financial_stress_on_unit_scale (w : Worker)
    (Hdebt : 0 <= debt w) (Hcapacity : 0 < debt_capacity w)
    (Hneeds : 0 < basic_needs w) :
  exists stress,
    calculate_financial_stress w = Ok (stress, set_financial_stress stress w) /\
    0 <= stress /\ stress <= 1 /\
    (is_employed w = false -> 0.4 <= stress) /\
    (is_employed w = true -> debt w == 0 -> basic_needs w <= wealth w ->
     stress == 0).
Proof.
  unfold calculate_financial_stress.
  destruct (unmet_needs_cases w) as (Hu0 & Hu1 & _ & _).
  assert (Hratio : 0 <= get_unmet_needs w / basic_needs w)
    by (apply Qdiv_nonneg; assumption).
  set (ratio := get_unmet_needs w / basic_needs w) in *.
  assert (Hrdef : ratio == get_unmet_needs w / basic_needs w) by reflexivity.
  assert (Hcap : 0 <= debt w / debt_capacity w) by (apply Qdiv_nonneg; assumption).
  set (dr := debt w / debt_capacity w) in *.
  destruct (pymin_cases ratio 1.0) as [[Em Hm] | [Em Hm]].
  all: destruct (is_employed w) eqn:Eemp; cbn [negb].
  all: destruct (Qgtb (debt w) 0) eqn:Ed;
    [apply Qgtb_true in Ed | apply Qgtb_false in Ed]; cbn [rbind].
  all: rewrite ?(pydiv_ok (debt w)) by lra; cbn [rbind];
    rewrite (pydiv_ok (get_unmet_needs w)) by lra; cbn [rbind app];
    fold ratio; fold dr; rewrite Em.
  all: eexists; split; [reflexivity|].
  all: match goal with
       | |- context [pymin (pysum ?l) 1.0] =>
           destruct (pymin_cases (pysum l) 1.0) as [[Es Hs] | [Es Hs]];
           rewrite Es;
           first [ rewrite pysum_1 in Hs | rewrite pysum_2 in Hs
                 | rewrite pysum_3 in Hs ];
           rewrite ?pysum_1, ?pysum_2, ?pysum_3
       end.
  all: split; [lra|]; split; [lra|]; split; [intros; first [lra | discriminate]|].
  all: intros Hemp Hd0 Hw; try discriminate; try lra.
  all: specialize (Hu1 Hw);
    assert (Hr0 : ratio == 0) by (rewrite Hrdef, Hu1; field; lra); lra.
Qed.

Lemma financial_stress_witness :
  exists stress,
    calculate_financial_stress scenario_B
    = Ok (stress, set_financial_stress stress scenario_B) /\
    0 <= stress /\ stress <= 1 /\
    (is_employed scenario_B = false -> 0.4 <= stress) /\
    (is_employed scenario_B = true -> debt scenario_B == 0 ->
     basic_needs scenario_B <= wealth scenario_B -> stress == 0).
Proof.
  apply (financial_stress_on_unit_scale scenario_B); vm_compute; congruence.
Defined.

Lemma debt_service_effect (w : Worker)
    (Hwealth : 0 <= wealth w) (Hneeds : 0 <= basic_needs w) :
  is_bankrupt (handle_debt_mechanics w) = is_bankrupt w /\
  (debt w <= 0 -> handle_debt_mechanics w = w) /\
  (0 <= debt w -> 0 <= interest_rate w ->
   0 <= wealth (handle_debt_mechanics w) /\
   wealth (handle_debt_mechanics w) <= wealth w /\
   debt (handle_debt_mechanics w) <= debt w + debt w * (interest_rate w / 52)).
Proof.
  unfold handle_debt_mechanics.
  qtest (Qgtb (debt w) 0).
  2:{ split; [reflexivity|]. split; [reflexivity|].
      intros Hd Hi.
      assert (Hz : debt w == 0) by lra.
      split; [exact Hwealth|]. split; [lra|]. rewrite Hz. lra. }
  wproj.
  set (d1 := debt w + debt w * (interest_rate w / 52)).
  pose proof (pymax_le_r (d1 * 0.02) 20) as Hmin.
  pose proof (pymin_le_l (pymax (d1 * 0.02) 20) d1) as Hp1.
  pose proof (pymin_le_r (pymax (d1 * 0.02) 20) d1) as Hp2.
  assert (Hd1 : 0 <= debt w -> 0 <= interest_rate w -> 0 <= d1).
  { intros Hd Hi. unfold d1.
    assert (0 <= interest_rate w / 52) by (apply Qdiv_nonneg; lra). nra. }
  qtest (Qgeb (wealth w) (pymax (d1 * 0.02) 20)); wproj.
  all: match goal with
       | |- context [Qgtb (get_unmet_needs ?x) ?y] =>
           let Ef := fresh "Ef" in
           let Hle := fresh "Hle" in
           assert (Ef : Qgtb (get_unmet_needs x) y = false);
           [ apply Qgtb_false;
             destruct (unmet_needs_cases x) as (_ & _ & _ & Hle);
             wproj; specialize (Hle ltac:(lra) Hneeds); lra
           | rewrite Ef, andb_false_r ]
       end.
  all: wproj.
  - split; [reflexivity|]. split; [intros; lra|].
    intros Hd Hi. specialize (Hd1 Hd Hi).
    assert (0 <= pymin (pymax (d1 * 0.02) 20) d1) by (apply pymin_glb; lra).
    split; [lra|]. split; lra.
  - split; [reflexivity|]. split; [intros; lra|].
    intros Hd Hi. split; [lra|]. split; lra.
Qed.

(** [handle_debt_mechanics], for a worker whose wealth and needs are not
    negative: the bankruptcy branch cannot fire (unmet needs never exceed
    twice the needs), so [is_bankrupt] is left as it was and the debt is
    never clamped; a worker without debt is returned untouched; and with a
    non-negative interest rate the payment never raises wealth nor makes
    it negative, and leaves the debt at most at its value with the week's
    interest added. *)
Theorem debt_service_never_bankrupts (w : Worker)
    (Hwealth : 0 <= wealth w) (Hneeds : 0 <= basic_needs w) :
  is_bankrupt (handle_debt_mechanics w) = is_bankrupt w /\
  (debt w <= 0 -> handle_debt_mechanics w = w) /\
  (0 <= debt w -> 0 <= interest_rate w ->
   0 <= wealth (handle_debt_mechanics w) /\
   wealth (handle_debt_mechanics w) <= wealth w /\
   debt (handle_debt_mechanics w) <= debt w + debt w * (interest_rate w / 52)).
Proof. exact (debt_service_effect w Hwealth Hneeds). Qed.

Lemma debt_service_witness :
  is_bankrupt (handle_debt_mechanics employed_worker)
  = is_bankrupt employed_worker.
Proof.
  apply (proj1 (debt_service_never_bankrupts employed_worker
                  ltac:(vm_compute; discriminate) ltac:(vm_compute; discriminate))).
Defined.

Lemma scale_le (h d b : Q) :
  h <= b -> 0 <= b -> 0 <= d -> d <= 1 -> h * d <= b.
Proof.
  intros Hh Hb Hd0 Hd1. destruct (Qlt_le_dec h 0) as [Hneg | Hpos].
  - assert (0 <= (- h) * d) by (apply Qmult_le_0_compat; lra). lra.
  - assert (0 <= h * (1 - d)) by (apply Qmult_le_0_compat; lra). lra.
Qed.

Lemma scale_neg (h d : Q) : h < 0 -> 0 < d -> h * d < 0.
Proof.
  intros Hh Hd. assert (0 < (- h) * d) by (apply Qmult_lt_0_compat; lra). lra.
Qed.

(** [get_reservation_wage], for a worker with non-negative hours and debt
    and a positive debt capacity: it returns; the result never exceeds the
    skill's base rate times the hours; it is exactly that for a debt-free
    worker who is employed or at most four weeks out of work; and for a
    worker more than twenty weeks out of work it is negative. *)
Theorem reservation_wage_at_most_base (w : Worker)
    (Hhours : 0 <= work_hours w) (Hdebt : 0 <= debt w)
    (Hcapacity : 0 < debt_capacity w) :
  exists r,
    get_reservation_wage w = Ok r /\
    r <= base_reservation (skill_level w) * work_hours w /\
    (is_employed w = true \/ (weeks_unemployed w <= 4)%Z ->
     debt w == 0 ->
     r == base_reservation (skill_level w) * work_hours w) /\
    (is_employed w = false -> (20 < weeks_unemployed w)%Z ->
     0 < work_hours w -> r < 0).
Proof.
  unfold get_reservation_wage, debt_desperation.
  assert (Hbase : 0 < base_reservation (skill_level w))
    by (destruct (skill_level w); cbn; lra).
  set (base := base_reservation (skill_level w)) in *.
  pose proof (desperation_factor_le w) as Hf.
  assert (Hr : 0 <= debt w / debt_capacity w) by (apply Qdiv_nonneg; assumption).
  pose proof (pymax_le_l 0.6 (1 - debt w / debt_capacity w * 0.4)) as Hd6.
  assert (Hd1 : pymax 0.6 (1 - debt w / debt_capacity w * 0.4) <= 1).
  { destruct (pymax_cases 0.6 (1 - debt w / debt_capacity w * 0.4))
      as [[-> _] | [-> _]]; lra. }
  set (dd := pymax 0.6 (1 - debt w / debt_capacity w * 0.4)) in *.
  (* the hourly wage after the unemployment discount *)
  set (h0 := if negb (is_employed w) && (4 <? weeks_unemployed w)%Z
             then base * desperation_factor w else base).
  assert (Hh0 : h0 <= base).
  { unfold h0. destruct (_ && _); [|lra].
    assert (0 <= base * (1 - desperation_factor w))
      by (apply Qmult_le_0_compat; lra). lra. }
  assert (Hexact : is_employed w = true \/ (weeks_unemployed w <= 4)%Z -> h0 = base).
  { intros [E | E]; unfold h0.
    - rewrite E. reflexivity.
    - apply Z.ltb_ge in E. rewrite E, andb_false_r. reflexivity. }
  assert (Hlong : is_employed w = false -> (20 < weeks_unemployed w)%Z -> h0 < 0).
  { intros E Hweeks. unfold h0. rewrite E. cbn [negb andb].
    assert (E4 : (4 <? weeks_unemployed w)%Z = true) by (apply Z.ltb_lt; lia).
    rewrite E4.
    assert (Hq : 20 < inject_Z (weeks_unemployed w)).
    { change 20 with (inject_Z 20). rewrite <- Zlt_Qlt. exact Hweeks. }
    pose proof (pymin_le_r 0.7 (1 - inject_Z (weeks_unemployed w) * 0.05)) as Hm.
    assert (Hneg : desperation_factor w < 0) by (unfold desperation_factor; lra).
    rewrite Qmult_comm. apply scale_neg; assumption. }
  clearbody h0.
  qtest (Qgtb (debt w) 0); cbn [rbind].
  - rewrite pydiv_ok by lra. cbn [rbind]. fold dd.
    eexists. split; [reflexivity|].
    split; [|split].
    + assert (h0 * dd <= base) by (apply scale_le; lra).
      assert (0 <= (base - h0 * dd) * work_hours w)
        by (apply Qmult_le_0_compat; lra). lra.
    + intros _ Hz. lra.
    + intros Eemp Hweeks Hh. specialize (Hlong Eemp Hweeks).
      assert (h0 * dd < 0) by (apply scale_neg; lra).
      apply scale_neg; assumption.
  - eexists. split; [reflexivity|].
    split; [|split].
    + assert (0 <= (base - h0) * work_hours w)
        by (apply Qmult_le_0_compat; lra). lra.
    + intros Hcase _. rewrite (Hexact Hcase). reflexivity.
    + intros Eemp Hweeks Hh. specialize (Hlong Eemp Hweeks).
      apply scale_neg; assumption.
Qed.

Lemma reservation_wage_witness :
  exists r,
    get_reservation_wage long_unemployed = Ok r /\
    r <= base_reservation (skill_level long_unemployed)
         * work_hours long_unemployed.
Proof.
  destruct (reservation_wage_at_most_base long_unemployed
              ltac:(vm_compute; discriminate) ltac:(vm_compute; discriminate)
              ltac:(vm_compute; reflexivity)) as (r & H1 & H2 & _).
  exists r. split; assumption.
Defined.

Lemma get_tax_rate_bounds (w : Worker) (g : Rng) :
  rng_ok g ->
  0.05 <= fst (get_tax_rate w g) /\ fst (get_tax_rate w g) <= 0.30 /\
  snd (get_tax_rate w g) = advance g.
Proof.
  intros Hg. unfold get_tax_rate.
  destruct (skill_level w);
    match goal with
    | |- context [rng_uniform ?a ?b g] =>
        destruct (rng_uniform_ok a b g Hg ltac:(lra)) as (_ & H2 & H3)
    end; (split; [lra | split; [lra | reflexivity]]).
Qed.

(** [work_for_firm] on a worker who is not employed, at a non-negative
    wage: the worker becomes employed by that firm at that wage with the
    unemployment counter back at 0 and the debt untouched; gross pay
    [wage * hours] is added to [total_wages_earned]; the tax withheld is
    between 5% and 30% of gross pay, so wealth grows by at least 70% of it;
    and without a dividend (not an owner, or a firm without profit) gross
    pay is split exactly between the worker's wealth and the tax. *)
Theorem work_for_firm_pays_an_unemployed_worker
    (firm : nat) (firm_profit wage_rate : Q) (w : Worker) (g : Rng)
    (Hunemployed : is_employed w = false) (Hg : rng_ok g)
    (Hwage : 0 <= wage_rate) (Hhours : 0 <= work_hours w) :
  let w' := snd (fst (work_for_firm firm firm_profit wage_rate w g)) in
  let gross := wage_rate * work_hours w in
  fst (fst (work_for_firm firm firm_profit wage_rate w g))
  = Some (get_productive_value w) /\
  is_employed w' = true /\ employer w' = Some firm /\ wage w' = wage_rate /\
  weeks_unemployed w' = 0%Z /\ debt w' = debt w /\
  total_wages_earned w' = total_wages_earned w + gross /\
  total_taxes_paid w + 0.05 * gross <= total_taxes_paid w' /\
  total_taxes_paid w' <= total_taxes_paid w + 0.30 * gross /\
  wealth w + 0.70 * gross <= wealth w' /\
  (owns_firm w = false \/ firm_profit <= 0 ->
   wealth w' + total_taxes_paid w' == wealth w + total_taxes_paid w + gross).
Proof.
  intros w' gross. subst w'. unfold work_for_firm. rewrite Hunemployed.
  match goal with
  | |- context [get_tax_rate ?x g] =>
      destruct (get_tax_rate_bounds x g Hg) as (Ht0 & Ht1 & Hgt);
      destruct (get_tax_rate x g) as [t g1]
  end.
  cbn [fst snd] in Ht0, Ht1, Hgt. wproj. fold gross.
  assert (Hgross : 0 <= gross) by (apply Qmult_le_0_compat; assumption).
  assert (Htax0 : 0.05 * gross <= gross * t).
  { assert (0 <= gross * (t - 0.05)) by (apply Qmult_le_0_compat; lra). lra. }
  assert (Htax1 : gross * t <= 0.30 * gross).
  { assert (0 <= gross * (0.30 - t)) by (apply Qmult_le_0_compat; lra). lra. }
  destruct (owns_firm w) eqn:Eown; cbn [andb].
  - qtest (Qgtb firm_profit 0).
    + subst g1.
      destruct (rng_uniform_ok 0.01 0.05 (advance g) (rng_ok_advance g Hg)
                  ltac:(lra)) as (_ & Hs0 & Hs1).
      destruct (rng_uniform 0.01 0.05 (advance g)) as [share g2].
      cbn [fst snd] in *. wproj.
      assert (0 <= firm_profit * share) by (apply Qmult_le_0_compat; lra).
      repeat (split; [first [reflexivity | lra]|]).
      intros [Habs | Habs]; [discriminate | lra].
    + cbn [fst snd]. wproj.
      repeat (split; [first [reflexivity | lra]|]).
      intros _. ring.
  - cbn [fst snd]. wproj.
    repeat (split; [first [reflexivity | lra]|]).
    intros _. ring.
Qed.

Lemma work_for_firm_pays_witness :
  wage (snd (fst (work_for_firm 3 100 12 scenario_B (constant_rng 0.5)))) = 12.
Proof.
  apply (work_for_firm_pays_an_unemployed_worker 3 100 12 scenario_B
           (constant_rng 0.5)).
  - reflexivity.
  - intros n. split; vm_compute; [discriminate | reflexivity].
  - vm_compute. discriminate.
  - vm_compute. discriminate.
Defined.

(** [SimpleWorkerAgent.__init__]: a new worker is unemployed, without
    employer, wage or bankruptcy, and never in debt: the initial wealth is
    drawn from a non-negative range, so the branch that turns negative
    wealth into debt cannot fire.  Wealth, productivity and weekly needs
    are inside the ranges of the worker's skill level, the debt capacity in
    [5000, 15000] and the interest rate in [0.10, 0.26]. *)
Theorem new_worker_is_unemployed_and_debt_free (uid : Z) (hours : Q) (g : Rng)
    (Hg : rng_ok g) :
  let w := fst (SimpleWorkerAgent.init uid hours g) in
  debt w = 0 /\ is_employed w = false /\ employer w = None /\ wage w = 0 /\
  is_bankrupt w = false /\ weeks_unemployed w = 0%Z /\
  SimpleWorkerAgent.unique_id w = uid /\ work_hours w = hours /\
  5000 <= debt_capacity w /\ debt_capacity w <= 15000 /\
  0.10 <= interest_rate w /\ interest_rate w <= 0.26 /\
  match skill_level w with
  | high => 5000 <= wealth w /\ wealth w <= 25000 /\
            1.3 <= productivity w /\ productivity w <= 1.8 /\
            basic_needs w == 650
  | medium => 1500 <= wealth w /\ wealth w <= 8000 /\
              1.0 <= productivity w /\ productivity w <= 1.4 /\
              basic_needs w == 500
  | low => 0 <= wealth w /\ wealth w <= 2000 /\
           0.7 <= productivity w /\ productivity w <= 1.2 /\
           basic_needs w == 400
  end.
Proof.
  intros w. subst w. unfold SimpleWorkerAgent.init.
  assert (Hskill : rng_ok (snd (_determine_skill_level g))).
  { unfold _determine_skill_level.
    destruct (rng_random_ok g Hg) as (H & _). destruct (rng_random g) as [u g1].
    destruct (Qltb u 0.65); [exact H|]. destruct (Qltb u 0.85); exact H. }
  destruct (_determine_skill_level g) as [skill g1]. cbn [snd] in Hskill.
  assert (Hwealth : rng_ok (snd (_get_initial_wealth skill g1)) /\
          match skill with
          | high => 5000 <= fst (_get_initial_wealth skill g1) <= 25000
          | medium => 1500 <= fst (_get_initial_wealth skill g1) <= 8000
          | low => 0 <= fst (_get_initial_wealth skill g1) <= 2000
          end).
  { unfold _get_initial_wealth. destruct skill;
      match goal with
      | |- context [rng_uniform ?a ?b g1] =>
          destruct (rng_uniform_ok a b g1 Hskill ltac:(lra)) as (H1 & H2 & H3)
      end; (split; [exact H1 | split; assumption]). }
  destruct (_get_initial_wealth skill g1) as [wealth0 g2].
  cbn [fst snd] in Hwealth. destruct Hwealth as [Hg2 Hrange].
  assert (Hw0 : 0 <= wealth0) by (destruct skill; lra).
  destruct (rng_uniform_ok 5000 15000 g2 Hg2 ltac:(lra)) as (Hg3 & Hc0 & Hc1).
  destruct (rng_uniform 5000 15000 g2) as [capacity g3]. cbn [fst snd] in *.
  destruct (rng_uniform_ok 0.10 0.26 g3 Hg3 ltac:(lra)) as (Hg4 & Hi0 & Hi1).
  destruct (rng_uniform 0.10 0.26 g3) as [rate g4]. cbn [fst snd] in *.
  assert (Hprod : match skill with
          | high => 1.3 <= fst (_get_productivity skill g4) <= 1.8
          | medium => 1.0 <= fst (_get_productivity skill g4) <= 1.4
          | low => 0.7 <= fst (_get_productivity skill g4) <= 1.2
          end).
  { unfold _get_productivity. destruct skill;
      match goal with
      | |- context [rng_uniform ?a ?b g4] =>
          destruct (rng_uniform_ok a b g4 Hg4 ltac:(lra)) as (H1 & H2 & H3)
      end; (split; assumption). }
  destruct (_get_productivity skill g4) as [prod g5]. cbn [fst] in Hprod.
  destruct (_determine_firm_ownership skill g5) as [owner g6].
  cbn [fst]. wproj.
  assert (E0 : Qltb wealth0 0 = false) by (apply Qltb_false; exact Hw0).
  rewrite E0.
  assert (E1 : Qgtb 0 0 = false) by reflexivity.
  rewrite E1.
  repeat (split; [first [reflexivity | assumption]|]).
  destruct skill; repeat split; try lra; reflexivity.
Qed.

Lemma new_worker_witness :
  debt (fst (SimpleWorkerAgent.init 7 40 (constant_rng 0.5))) = 0.
Proof.
  apply (new_worker_is_unemployed_and_debt_free 7 40 (constant_rng 0.5)).
  intros n. split; vm_compute; [discriminate | reflexivity].
Defined.

Ltac frame_tac :=
  repeat match goal with
         | |- context [if ?c then _ else _] => destruct c
         end;
  repeat split.

Lemma same_job_trans (a b c : Worker) :
  same_job a b -> same_job b c -> same_job a c.
Proof.
  unfold same_job. intros (?&?&?&?&?) (?&?&?&?&?). repeat split; congruence.
Qed.

Lemma pay_basic_needs_same_job (w : Worker) : same_job w (pay_basic_needs w).
Proof. unfold pay_basic_needs, same_job. frame_tac. Qed.

Lemma handle_debt_mechanics_same_job (w : Worker) :
  same_job w (handle_debt_mechanics w).
Proof. unfold handle_debt_mechanics, same_job. frame_tac. Qed.

Lemma wealth_decay_same_job (w : Worker) : same_job w (wealth_decay w).
Proof. unfold wealth_decay, same_job. frame_tac. Qed.

Lemma wealth_growth_same_job (w : Worker) (g : Rng) :
  same_job w (fst (wealth_growth w g)) /\
  same_params w (fst (wealth_growth w g)) /\
  weeks_unemployed (fst (wealth_growth w g)) = weeks_unemployed w /\
  (skill_level w <> high -> snd (wealth_growth w g) = g) /\
  (cursor g <= cursor (snd (wealth_growth w g)) <= cursor g + 2)%nat.
Proof.
  assert (Hstay : same_job w w /\ same_params w w /\
                  weeks_unemployed w = weeks_unemployed w /\
                  (skill_level w <> high -> g = g) /\
                  (cursor g <= cursor g <= cursor g + 2)%nat).
  { split; [repeat split|]. split; [apply same_params_refl|].
    split; [reflexivity|]. split; [reflexivity|lia]. }
  unfold wealth_growth.
  destruct (Skill_eqb (skill_level w) high) eqn:Es; cbn [andb fst snd];
    [|exact Hstay].
  destruct (Qgtb (wealth w) 10000); [|exact Hstay].
  assert (Ehigh : skill_level w = high)
    by (destruct (skill_level w); cbn in Es; congruence).
  unfold rng_uniform, rng_random, advance.
  destruct (Qltb (draws g (cursor g)) 0.3); cbn [fst snd cursor].
  - split; [repeat split|]. split; [repeat split|].
    split; [reflexivity|]. split; [congruence|cbn; lia].
  - split; [repeat split|]. split; [apply same_params_refl|].
    split; [reflexivity|]. split; [congruence|cbn; lia].
Qed.

Lemma weeks_after_needs (w : Worker) :
  weeks_unemployed (pay_basic_needs w)
  = if is_employed w then weeks_unemployed w else (weeks_unemployed w + 1)%Z.
Proof.
  unfold pay_basic_needs. destruct (is_employed w); cbn [negb]; wproj;
    destruct (Qgeb _ _); reflexivity.
Qed.

Lemma weeks_after_debt (w : Worker) :
  weeks_unemployed (handle_debt_mechanics w) = weeks_unemployed w.
Proof. unfold handle_debt_mechanics. frame_tac. Qed.

Lemma weeks_after_decay (w : Worker) :
  weeks_unemployed (wealth_decay w) = weeks_unemployed w.
Proof. unfold wealth_decay. frame_tac. Qed.

Lemma worker_step_frame (w : Worker) (g : Rng)
    (Hcapacity : 0 < debt_capacity w) (Hneeds : 0 < basic_needs w) :
  exists w' g',
    SimpleWorkerAgent.step w g = Ok (w', g') /\
    same_job w w' /\ same_params w w' /\
    weeks_unemployed w'
    = (if is_employed w then weeks_unemployed w else (weeks_unemployed w + 1)%Z) /\
    (skill_level w <> high -> g' = g) /\
    (cursor g <= cursor g' <= cursor g + 2)%nat /\ draws g' = draws g.
Proof.
  unfold SimpleWorkerAgent.step.
  assert (Hs : exists s, calculate_financial_stress w
                         = Ok (s, set_financial_stress s w)).
  { unfold calculate_financial_stress.
    destruct (Qgtb (debt w) 0); cbn [rbind];
      rewrite ?(pydiv_ok (debt w)) by lra; cbn [rbind];
      rewrite (pydiv_ok (get_unmet_needs w)) by lra; cbn [rbind]; eauto. }
  destruct Hs as [s ->]. cbn [rbind snd].
  set (w0 := set_financial_stress s w).
  set (w1 := pay_basic_needs w0).
  set (w2 := handle_debt_mechanics w1).
  set (w3 := wealth_decay w2).
  assert (J3 : same_job w w3).
  { apply (same_job_trans w w0); [repeat split|].
    apply (same_job_trans w0 w1); [apply pay_basic_needs_same_job|].
    apply (same_job_trans w1 w2); [apply handle_debt_mechanics_same_job|].
    apply wealth_decay_same_job. }
  assert (P3 : same_params w w3).
  { apply (same_params_trans w w0); [repeat split|].
    apply (same_params_trans w0 w1); [apply pay_basic_needs_same_params|].
    apply (same_params_trans w1 w2); [apply handle_debt_mechanics_same_params|].
    apply wealth_decay_same_params. }
  assert (W3 : weeks_unemployed w3
               = if is_employed w then weeks_unemployed w
                 else (weeks_unemployed w + 1)%Z).
  { unfold w3, w2, w1. rewrite weeks_after_decay, weeks_after_debt, weeks_after_needs.
    reflexivity. }
  destruct (wealth_growth_same_job w3 g) as (J4 & P4 & W4 & G4 & C4).
  assert (D4 : draws (snd (wealth_growth w3 g)) = draws g).
  { unfold wealth_growth. destruct (_ && _); [|reflexivity].
    unfold rng_uniform, rng_random. destruct (Qltb _ 0.3); reflexivity. }
  destruct (wealth_growth w3 g) as [w4 g4]. cbn [fst snd] in *.
  exists w4, g4. split; [reflexivity|].
  split; [eapply same_job_trans; eassumption|].
  split; [eapply same_params_trans; eassumption|].
  split; [congruence|].
  split; [|split; assumption].
  intros Hs. apply G4. destruct P3 as (_ & _ & E & _). congruence.
Qed.

(** A worker's own [step], for a worker with positive debt capacity and
    needs: it returns; it never changes the employment status, the
    employer, the wage or the totals of wages and taxes, nor any attribute
    fixed at construction; the unemployment counter goes up by exactly one
    for an unemployed worker and stays for an employed one; and it draws
    at most two random numbers, none at all unless the worker is
    high-skill. *)
Theorem worker_step_never_changes_the_job (w : Worker) (g : Rng)
    (Hcapacity : 0 < debt_capacity w) (Hneeds : 0 < basic_needs w) :
  exists w' g',
    SimpleWorkerAgent.step w g = Ok (w', g') /\
    same_job w w' /\ same_params w w' /\
    weeks_unemployed w'
    = (if is_employed w then weeks_unemployed w else (weeks_unemployed w + 1)%Z) /\
    (skill_level w <> high -> g' = g) /\
    (cursor g <= cursor g' <= cursor g + 2)%nat /\ draws g' = draws g.
Proof. exact (worker_step_frame w g Hcapacity Hneeds). Qed.

Lemma worker_step_job_witness :
  exists w' g',
    SimpleWorkerAgent.step employed_worker (constant_rng 0.5) = Ok (w', g') /\
    same_job employed_worker w'.
Proof.
  destruct (worker_step_never_changes_the_job employed_worker (constant_rng 0.5)
              ltac:(vm_compute; reflexivity) ltac:(vm_compute; reflexivity))
    as (w' & g' & H1 & H2 & _).
  exists w', g'. split; assumption.
Defined.

Lemma pay_basic_needs_spends (w : Worker) :
  0 <= wealth w -> 0 <= basic_needs w -> wealth (pay_basic_needs w) <= wealth w.
Proof.
  intros Hw Hn. unfold pay_basic_needs.
  destruct (is_employed w); cbn [negb]; wproj; qcase; wproj; lra.
Qed.

(** A worker's own [step] only spends: for a worker within the invariant,
    wealth after the step is at most wealth before, unless the worker is
    high-skill with more than 10000, and then it grows by at most 0.3%. *)
Theorem worker_step_only_spends (w : Worker) (g : Rng)
    (Hok : worker_ok w) (Hg : rng_ok g) :
  exists w' g',
    SimpleWorkerAgent.step w g = Ok (w', g') /\
    0 <= wealth w' /\ wealth w' <= wealth w * 1.003 /\
    (skill_level w <> high \/ wealth w <= 10000 -> wealth w' <= wealth w).
Proof.
  destruct Hok as [[Hw Hd] Hp].
  unfold SimpleWorkerAgent.step.
  destruct (calculate_financial_stress_total w Hp) as [s ->]. cbn [rbind snd].
  destruct Hp as (Hh & Hi & Hc & Hn).
  set (w0 := set_financial_stress s w).
  set (w1 := pay_basic_needs w0).
  assert (N1 : nonneg w1) by (apply pay_basic_needs_nonneg; split; assumption).
  assert (S1 : wealth w1 <= wealth w)
    by (apply (pay_basic_needs_spends w0); [exact Hw | apply Qlt_le_weak, Hn]).
  assert (P1 : same_params w w1).
  { apply (same_params_trans w w0); [repeat split|].
    apply pay_basic_needs_same_params. }
  set (w2 := handle_debt_mechanics w1).
  assert (S2 : 0 <= wealth w2 /\ wealth w2 <= wealth w1).
  { destruct P1 as (_ & _ & _ & _ & Ei & _ & _ & En).
    destruct (debt_service_effect w1 (proj1 N1)
                ltac:(rewrite En; lra)) as (_ & _ & H).
    destruct (H (proj2 N1) ltac:(rewrite Ei; exact Hi)) as (H1 & H2 & _).
    split; assumption. }
  assert (P2 : same_params w w2).
  { apply (same_params_trans w w1); [exact P1|].
    apply handle_debt_mechanics_same_params. }
  set (w3 := wealth_decay w2).
  assert (S3 : 0 <= wealth w3 /\ wealth w3 <= wealth w2).
  { unfold w3, wealth_decay.
    destruct (negb (is_employed w2) && Qgtb (wealth w2) 0); [|lra].
    wproj. destruct (decay_rate_bounds (skill_level w2)) as [D0 D1].
    split.
    - apply Qmult_le_0_compat; lra.
    - assert (0 <= wealth w2 * decay_rate (skill_level w2))
        by (apply Qmult_le_0_compat; lra). lra. }
  assert (P3 : same_params w w3).
  { apply (same_params_trans w w2); [exact P2|]. apply wealth_decay_same_params. }
  assert (E3 : skill_level w3 = skill_level w) by apply P3.
  unfold wealth_growth. rewrite E3.
  assert (Hbound : wealth w3 <= wealth w * 1.003) by lra.
  destruct (Skill_eqb (skill_level w) high) eqn:Eskill; cbn [andb].
  2:{ exists w3, g. split; [reflexivity|]. split; [lra|]. split; lra. }
  qtest (Qgtb (wealth w3) 10000).
  2:{ exists w3, g. split; [reflexivity|]. split; [lra|]. split; lra. }
  destruct (rng_random_ok g Hg) as (Hg1 & _).
  destruct (rng_random g) as [u g1]. cbn [snd] in Hg1.
  destruct (Qltb u 0.3).
  2:{ exists w3, g1. split; [reflexivity|]. split; [lra|]. split; lra. }
  destruct (rng_uniform_ok 1.001 1.003 g1 Hg1 ltac:(lra)) as (_ & F0 & F1).
  destruct (rng_uniform 1.001 1.003 g1) as [factor g2]. cbn [fst] in F0, F1.
  exists (set_wealth (wealth w3 * factor) w3), g2.
  split; [reflexivity|]. wproj.
  split; [apply Qmult_le_0_compat; lra|].
  split.
  - assert (0 <= wealth w3 * (1.003 - factor)) by (apply Qmult_le_0_compat; lra).
    lra.
  - intros [Hs | Hs]; [|lra].
    destruct (skill_level w); cbn in Eskill; congruence.
Qed.

Lemma worker_step_spends_witness :
  exists w' g',
    SimpleWorkerAgent.step employed_worker (constant_rng 0.5) = Ok (w', g') /\
    0 <= wealth w'.
Proof.
  destruct (worker_step_only_spends employed_worker (constant_rng 0.5))
    as (w' & g' & H1 & H2 & _).
  - apply worker_okb_sound. vm_compute. reflexivity.
  - intros n. split; vm_compute; [discriminate | reflexivity].
  - exists w', g'. split; assumption.
Defined.

(** A worker's two ratios never divide by zero.  The debt-to-income ratio
    is infinite exactly when the wage is 0 with debt outstanding or the
    wage is negative, 0 for a wage of 0 without debt, and the debt over 52
    weekly wages otherwise.  The exploitation rate is 0 when the wage is 0
    or the value produced is not positive, and otherwise 1 less the wage
    over the value produced, so at most 1 for a wage that is not
    negative. *)
Theorem worker_ratios_never_divide_by_zero (w : Worker) :
  (exists r,
      get_debt_to_income_ratio w = Ok r /\
      (r = Infinite <-> (wage w == 0 /\ 0 < debt w) \/ wage w < 0) /\
      (wage w == 0 -> debt w <= 0 -> r = Finite 0) /\
      (0 < wage w -> r = Finite (debt w / (wage w * 52)))) /\
  (exists e,
      SimpleWorkerAgent.get_exploitation_rate w = Ok e /\
      (wage w == 0 \/ get_productive_value w <= 0 -> e = 0) /\
      (~ wage w == 0 -> 0 < get_productive_value w ->
       e = 1 - wage w / get_productive_value w) /\
      (0 <= wage w -> e <= 1)).
Proof.
  split.
  - unfold get_debt_to_income_ratio.
    destruct (Qeq_bool (wage w) 0) eqn:E.
    + apply Qeq_bool_iff in E.
      qtest (Qgtb (debt w) 0).
      * exists Infinite. split; [reflexivity|].
        split; [split; [intros _; left; split; assumption | reflexivity]|].
        split; intros; lra.
      * exists (Finite 0). split; [reflexivity|].
        split; [split; [discriminate | intros [[_ H] | H]; lra]|].
        split; [reflexivity | intros; lra].
    + apply Qeq_bool_neq in E.
      qtest (Qgtb (wage w * 52) 0).
      * rewrite pydiv_ok by lra. cbn [rbind]. eexists. split; [reflexivity|].
        split; [split; [discriminate | intros [[H _] | H]; lra]|].
        split; [intros; lra | reflexivity].
      * exists Infinite. split; [reflexivity|].
        split; [split; [intros _; right; lra | reflexivity]|].
        split; intros; lra.
  - unfold SimpleWorkerAgent.get_exploitation_rate.
    destruct (Qeq_bool (wage w) 0) eqn:E.
    + apply Qeq_bool_iff in E. exists 0. split; [reflexivity|].
      split; [reflexivity|]. split; [intros H; contradiction | intros; lra].
    + apply Qeq_bool_neq in E.
      qtest (Qgtb (get_productive_value w) 0).
      * rewrite pydiv_ok by lra. cbn [rbind]. eexists. split; [reflexivity|].
        split; [intros [H | H]; [contradiction | lra]|].
        split; [reflexivity|]. intros Hw.
        assert (0 <= wage w / get_productive_value w)
          by (apply Qdiv_nonneg; assumption).
        lra.
      * exists 0. split; [reflexivity|]. split; [reflexivity|].
        split; intros; lra.
Qed.

End WorkerMethods.

(** ** A firm's own methods *)

Section FirmMethods.
Import SimpleWorkerAgent FirmState ModelState Invariants SimpleFirmAgent Scenarios.
Local Open Scope world_scope.

Lemma Qdiv_lt_compat (a b c : Q) : a < b -> 0 < c -> a / c < b / c.
Proof.
  intros Hab Hc. unfold Qdiv. apply Qmult_lt_compat_r; [|exact Hab].
  apply Qinv_lt_0_compat, Hc.
Qed.

Lemma Qdiv_pos (a c : Q) : 0 < a -> 0 < c -> 0 < a / c.
Proof.
  intros Ha Hc. unfold Qdiv. apply Qmult_lt_0_compat; [exact Ha|].
  apply Qinv_lt_0_compat, Hc.
Qed.

Lemma Qdiv_le_1 (a c : Q) : a <= c -> 0 < c -> a / c <= 1.
Proof.
  intros Ha Hc. apply Qle_shift_div_r; [exact Hc | lra].
Qed.

Lemma skill_preferences_drawn (g : Rng) (Hg : rng_ok g) :
  exists prefs,
    _determine_skill_preferences g
    = Ok (prefs, mkRng (draws g) (3 + cursor g)) /\
    0 < at_high prefs /\ 0 < at_medium prefs /\ 0 < at_low prefs /\
    at_high prefs < at_low prefs /\ at_medium prefs <= at_low prefs.
Proof.
  unfold _determine_skill_preferences, rng_uniform, rng_random, advance.
  cbn [draws cursor].
  destruct (Hg (cursor g)) as [H1 H1'].
  destruct (Hg (S (cursor g))) as [H2 H2'].
  destruct (Hg (S (S (cursor g)))) as [H3 H3'].
  set (h := 0.1 + (0.3 - 0.1) * draws g (cursor g)).
  set (m := 0.2 + (0.4 - 0.2) * draws g (S (cursor g))).
  set (l := 0.4 + (0.7 - 0.4) * draws g (S (S (cursor g)))).
  assert (Hh : 0.1 <= h /\ h < 0.3) by (unfold h; split; lra).
  assert (Hm : 0.2 <= m /\ m < 0.4) by (unfold m; split; lra).
  assert (Hl : 0.4 <= l) by (unfold l; lra).
  assert (Et : pysum [h; m; l] == h + m + l) by (unfold pysum; cbn [fold_left]; ring).
  assert (Htotal : 0 < pysum [h; m; l]) by (rewrite Et; lra).
  assert (Hnz : ~ pysum [h; m; l] == 0) by lra.
  rewrite !(pydiv_ok _ _ Hnz). cbn [rbind].
  eexists. split; [reflexivity|]. cbn [at_high at_medium at_low].
  split; [|split; [|split; [|split]]].
  - apply Qdiv_pos; lra.
  - apply Qdiv_pos; lra.
  - apply Qdiv_pos; lra.
  - apply Qdiv_lt_compat; lra.
  - apply Qlt_le_weak, Qdiv_lt_compat; lra.
Qed.

(** The preferred skill mix a firm draws favours low skill: the method
    never raises, the three shares are positive, the low-skill share is
    above the high-skill share and not below the medium-skill share, and
    exactly three numbers are drawn. *)
Theorem skill_preferences_favour_low_skill (g : Rng) (Hg : rng_ok g) :
  exists prefs,
    _determine_skill_preferences g
    = Ok (prefs, mkRng (draws g) (3 + cursor g)) /\
    0 < at_high prefs /\ 0 < at_medium prefs /\ 0 < at_low prefs /\
    at_high prefs < at_low prefs /\ at_medium prefs <= at_low prefs.
Proof. exact (skill_preferences_drawn g Hg). Qed.

Lemma skill_preferences_favour_witness :
  exists prefs,
    _determine_skill_preferences (constant_rng 0.5)
    = Ok (prefs, mkRng (draws (constant_rng 0.5)) 3) /\
    at_high prefs < at_low prefs.
Proof.
  destruct (skill_preferences_favour_low_skill (constant_rng 0.5))
    as (prefs & H1 & _ & _ & _ & H2 & _).
  - intros n. split; vm_compute; [discriminate | reflexivity].
  - exists prefs. split; assumption.
Defined.

Lemma uniform_draw (a b : Q) (g : Rng) (i : nat) :
  rng_ok g -> a <= b ->
  a <= a + (b - a) * draws g i <= b.
Proof.
  intros Hg Hab. destruct (Hg i) as [H0 H1].
  assert (0 <= (b - a) * draws g i) by (apply Qmult_le_0_compat; lra).
  assert (0 <= (b - a) * (1 - draws g i)) by (apply Qmult_le_0_compat; lra).
  split; lra.
Qed.

Lemma firm_init_drawn (uid : Z) (g : Rng) (Hg : rng_ok g) :
  exists f,
    SimpleFirmAgent.init uid g = Ok (f, mkRng (draws g) (15 + cursor g)) /\
    FirmState.unique_id f = uid /\ workers f = [] /\
    profit f = 0 /\ total_surplus_value f = 0 /\ wages_paid f = 0 /\
    taxes_paid f = 0 /\
    (30 <= max_workers f <= 80)%Z /\
    50000 <= capital f <= 200000 /\
    25 <= at_high (wage_rates f) <= 45 /\
    15 <= at_medium (wage_rates f) <= 25 /\
    8 <= at_low (wage_rates f) <= 18 /\
    0.20 <= tax_rate f <= 0.35 /\
    0.65 <= wage_share f <= 0.75 /\
    surplus_value_rate f == 1 - wage_share f.
Proof.
  unfold SimpleFirmAgent.init.
  unfold rng_uniform at 1. unfold rng_random at 1.
  assert (Hg1 : rng_ok (advance g)) by apply rng_ok_advance, Hg.
  destruct (rng_below_ok 51 (advance g) Hg1 ltac:(lia)) as (_ & Hk).
  assert (Ek : rng_below 51 (advance g)
               = (fst (rng_below 51 (advance g)), advance (advance g)))
    by reflexivity.
  rewrite Ek. clear Ek.
  set (k := fst (rng_below 51 (advance g))) in *.
  assert (Hg2 : rng_ok (advance (advance g))) by apply rng_ok_advance, Hg1.
  destruct (skill_preferences_drawn (advance (advance g)) Hg2)
    as (prefs & -> & _).
  cbn [rbind]. unfold rng_uniform, rng_random, advance. cbn [draws cursor].
  eexists. split; [reflexivity|]. mproj.
  cbn [wage_share surplus_value_rate at_high at_medium at_low].
  split; [reflexivity|]. split; [reflexivity|]. split; [reflexivity|].
  split; [reflexivity|]. split; [reflexivity|]. split; [reflexivity|].
  split; [lia|].
  split; [apply uniform_draw; [exact Hg | lra]|].
  split; [apply uniform_draw; [exact Hg | lra]|].
  split; [apply uniform_draw; [exact Hg | lra]|].
  split; [apply uniform_draw; [exact Hg | lra]|].
  split; [apply uniform_draw; [exact Hg | lra]|].
  split; [apply uniform_draw; [exact Hg | lra]|].
  ring.
Qed.

(** A firm as [__init__] leaves it: an empty roster, no profit, wages,
    surplus or taxes on the books, a capacity between 30 and 80, and the
    drawn attributes within the ranges of their draws, with the surplus
    rate [1 - wage_share]; the constructor never raises and draws exactly
    fifteen numbers. *)
Theorem new_firm_has_an_empty_roster (uid : Z) (g : Rng) (Hg : rng_ok g) :
  exists f,
    SimpleFirmAgent.init uid g = Ok (f, mkRng (draws g) (15 + cursor g)) /\
    FirmState.unique_id f = uid /\ workers f = [] /\
    profit f = 0 /\ total_surplus_value f = 0 /\ wages_paid f = 0 /\
    taxes_paid f = 0 /\
    (30 <= max_workers f <= 80)%Z /\
    50000 <= capital f <= 200000 /\
    25 <= at_high (wage_rates f) <= 45 /\
    15 <= at_medium (wage_rates f) <= 25 /\
    8 <= at_low (wage_rates f) <= 18 /\
    0.20 <= tax_rate f <= 0.35 /\
    0.65 <= wage_share f <= 0.75 /\
    surplus_value_rate f == 1 - wage_share f.
Proof. exact (firm_init_drawn uid g Hg). Qed.

Lemma new_firm_witness :
  exists f,
    SimpleFirmAgent.init 3 (constant_rng 0.5)
    = Ok (f, mkRng (draws (constant_rng 0.5)) 15) /\
    workers f = [].
Proof.
  destruct (new_firm_has_an_empty_roster 3 (constant_rng 0.5))
    as (f & H1 & _ & H2 & _).
  - intros n. split; vm_compute; [discriminate | reflexivity].
  - exists f. split; assumption.
Defined.

(** A firm's exploitation rate is the surplus share of the value on its
    books: the method never raises; it answers 0 when that value is not
    positive; the rate is at most 1 when the wage bill is not negative,
    and within [0, 1] when the surplus is not negative either. *)
Theorem firm_exploitation_rate_is_a_share (f : Firm) :
  exists rate,
    SimpleFirmAgent.get_exploitation_rate f = Ok rate /\
    (total_surplus_value f + wages_paid f <= 0 -> rate = 0) /\
    (0 < total_surplus_value f + wages_paid f ->
     rate * (total_surplus_value f + wages_paid f) == total_surplus_value f) /\
    (0 <= wages_paid f -> rate <= 1) /\
    (0 <= wages_paid f -> 0 <= total_surplus_value f -> 0 <= rate).
Proof.
  unfold SimpleFirmAgent.get_exploitation_rate.
  qtest (Qgtb (total_surplus_value f + wages_paid f) 0).
  - rewrite pydiv_ok by lra. eexists. split; [reflexivity|].
    split; [intros; lra|].
    split; [intros _; field; lra|].
    split.
    + intros Hw. apply Qdiv_le_1; lra.
    + intros Hw Hs. apply Qdiv_nonneg; lra.
  - exists 0. split; [reflexivity|].
    split; [reflexivity|]. split; [intros; lra|]. split; intros; lra.
Qed.

(** *** Hiring and firing, step by step *)

Lemma bind_run {A B} (m : M A) (k : A -> M B) (s s1 : World) (a : A) :
  m s = Ok (a, s1) -> bind m k s = k a s1.
Proof. unfold bind. intros ->. reflexivity. Qed.

Lemma remove_first_not_mem (x : nat) (xs : list nat) :
  mem x xs = false -> remove_first x xs = xs.
Proof.
  unfold mem. induction xs as [|y r IH]; cbn [existsb remove_first]; [reflexivity|].
  destruct (Nat.eqb x y); cbn [orb]; [discriminate|].
  intros H. rewrite (IH H). reflexivity.
Qed.

Lemma nth_error_set_nth_hit {A} (i : nat) (x y : A) (l : list A) :
  nth_error l i = Some y -> nth_error (set_nth i x l) i = Some x.
Proof.
  intros H. apply nth_error_set_nth_eq, nth_error_Some. congruence.
Qed.

(** The world after [hire_worker]. *)
Lemma hire_worker_run (self worker : nat) (r : Q) (s : World)
    (f : Firm) (w : Worker) :
  nth_error (firm_agents (model s)) self = Some f ->
  nth_error (worker_agents (model s)) worker = Some w ->
  hire_worker self worker r s =
  Ok (true,
      mkWorld
        (mkModel (num_workers (model s)) (num_firms (model s))
           (num_owners (model s)) (price_index (model s))
           (inflation_rate (model s))
           (if mem worker (employed_workers (model s))
            then employed_workers (model s)
            else employed_workers (model s) ++ [worker])
           (remove_first worker (unemployed_workers (model s)))
           (set_nth worker
              (snd (fst (work_for_firm self (profit f) r w (rng s))))
              (worker_agents (model s)))
           (set_nth self (set_workers (workers f ++ [worker]) f)
              (firm_agents (model s))))
        (snd (work_for_firm self (profit f) r w (rng s)))).
Proof.
  intros Hf Hw. unfold hire_worker.
  rewrite (bind_run (firm_at self) _ s s f)
    by (unfold firm_at; rewrite Hf; reflexivity).
  erewrite bind_run by reflexivity.
  erewrite bind_run.
  2:{ apply (call_work_for_firm_run self worker r _
               (set_workers (workers f ++ [worker]) f) w).
      - cbn [model firm_agents set_firm_agents].
        apply (nth_error_set_nth_hit self _ f), Hf.
      - exact Hw. }
  repeat (erewrite bind_run by reflexivity). mproj.
  destruct (mem worker (unemployed_workers (model s))) eqn:Eu.
  - repeat (erewrite bind_run by reflexivity). mproj.
    destruct (mem worker (employed_workers (model s))); cbn [negb];
      repeat (erewrite bind_run by reflexivity); reflexivity.
  - rewrite (remove_first_not_mem _ _ Eu).
    repeat (erewrite bind_run by reflexivity). mproj.
    destruct (mem worker (employed_workers (model s))); cbn [negb];
      repeat (erewrite bind_run by reflexivity); reflexivity.
Qed.

(** The world after [fire_worker] of a listed worker. *)
Lemma fire_worker_run (self worker : nat) (s : World) (f : Firm) (w : Worker) :
  nth_error (firm_agents (model s)) self = Some f ->
  nth_error (worker_agents (model s)) worker = Some w ->
  mem worker (workers f) = true ->
  fire_worker self worker s =
  Ok (true,
      mkWorld
        (mkModel (num_workers (model s)) (num_firms (model s))
           (num_owners (model s)) (price_index (model s))
           (inflation_rate (model s))
           (remove_first worker (employed_workers (model s)))
           (if mem worker (unemployed_workers (model s))
            then unemployed_workers (model s)
            else unemployed_workers (model s) ++ [worker])
           (set_nth worker (lose_job w) (worker_agents (model s)))
           (set_nth self (set_workers (remove_first worker (workers f)) f)
              (firm_agents (model s))))
        (rng s)).
Proof.
  intros Hf Hw Hm. unfold fire_worker.
  rewrite (bind_run (firm_at self) _ s s f)
    by (unfold firm_at; rewrite Hf; reflexivity).
  rewrite Hm.
  erewrite bind_run by reflexivity.
  erewrite bind_run
    by (unfold worker_at; cbn [model worker_agents set_firm_agents];
        rewrite Hw; reflexivity).
  repeat (erewrite bind_run by reflexivity). mproj.
  destruct (mem worker (employed_workers (model s))) eqn:Ee.
  - repeat (erewrite bind_run by reflexivity). mproj.
    destruct (mem worker (unemployed_workers (model s))); cbn [negb];
      repeat (erewrite bind_run by reflexivity); reflexivity.
  - rewrite (remove_first_not_mem _ _ Ee).
    repeat (erewrite bind_run by reflexivity). mproj.
    destruct (mem worker (unemployed_workers (model s))); cbn [negb];
      repeat (erewrite bind_run by reflexivity); reflexivity.
Qed.

Lemma fire_worker_stranger (self worker : nat) (s : World) (f : Firm) :
  nth_error (firm_agents (model s)) self = Some f ->
  mem worker (workers f) = false ->
  fire_worker self worker s = Ok (false, s).
Proof.
  intros Hf Hm. unfold fire_worker.
  rewrite (bind_run (firm_at self) _ s s f)
    by (unfold firm_at; rewrite Hf; reflexivity).
  rewrite Hm. reflexivity.
Qed.

Lemma mem_snoc (x : nat) (xs : list nat) : mem x (xs ++ [x]) = true.
Proof. apply mem_In, in_or_app. right. left. reflexivity. Qed.

Lemma mem_true_In (x : nat) (xs : list nat) : mem x xs = true -> In x xs.
Proof.
  unfold mem. intros H. apply existsb_exists in H.
  destruct H as (y & Hy & E). apply Nat.eqb_eq in E. subst y. exact Hy.
Qed.

Lemma remove_first_snoc (x : nat) (xs : list nat) :
  mem x xs = false -> remove_first x (xs ++ [x]) = xs.
Proof.
  unfold mem. induction xs as [|y r IH]; cbn [existsb remove_first app].
  - rewrite Nat.eqb_refl. reflexivity.
  - destruct (Nat.eqb x y); cbn [orb]; [discriminate|].
    intros H. rewrite (IH H). reflexivity.
Qed.

Lemma remove_first_permutation (x : nat) (xs : list nat) :
  In x xs -> Permutation (x :: remove_first x xs) xs.
Proof.
  induction xs as [|y r IH]; cbn [remove_first In]; [tauto|].
  destruct (Nat.eqb x y) eqn:E.
  - apply Nat.eqb_eq in E. subst y. reflexivity.
  - intros [H | H]; [subst y; rewrite Nat.eqb_refl in E; discriminate|].
    rewrite perm_swap. apply perm_skip, IH, H.
Qed.

(** [hire_worker] never refuses and never raises on valid references,
    whatever the capacity and whether or not the worker is already
    listed: it answers True, the roster is the old one with the worker
    appended, the worker ends employed and on the model's list of
    employed workers, and one listing of the worker leaves the list of the
    unemployed.  An employed worker is left with the employer and the wage
    it had; an unemployed one gets this firm and the wage of the call. *)
Theorem hire_worker_never_refuses (self worker : nat) (r : Q) (s : World)
    (f : Firm) (w : Worker)
    (Hf : nth_error (firm_agents (model s)) self = Some f)
    (Hw : nth_error (worker_agents (model s)) worker = Some w) :
  exists s' w',
    hire_worker self worker r s = Ok (true, s') /\
    roster self s' = workers f ++ [worker] /\
    nth_error (worker_agents (model s')) worker = Some w' /\
    is_employed w' = true /\
    (is_employed w = true -> w' = w /\ rng s' = rng s) /\
    (is_employed w = false -> employer w' = Some self /\ wage w' = r) /\
    In worker (employed_workers (model s')) /\
    unemployed_workers (model s')
    = remove_first worker (unemployed_workers (model s)) /\
    (forall j, j <> self ->
       nth_error (firm_agents (model s')) j = nth_error (firm_agents (model s)) j) /\
    (forall i, i <> worker ->
       nth_error (worker_agents (model s')) i = nth_error (worker_agents (model s)) i).
Proof.
  eexists. exists (snd (fst (work_for_firm self (profit f) r w (rng s)))).
  split; [apply (hire_worker_run self worker r s f w Hf Hw)|].
  unfold roster. mproj.
  split; [rewrite (nth_error_set_nth_hit self _ f _ Hf); reflexivity|].
  split; [apply (nth_error_set_nth_hit worker _ w), Hw|].
  split; [apply work_for_firm_employs|].
  split.
  { intros E. rewrite (work_for_firm_employed self (profit f) r w (rng s) E).
    split; reflexivity. }
  split; [apply work_for_firm_keeps_employer|].
  split.
  { destruct (mem worker (employed_workers (model s))) eqn:E.
    - apply mem_true_In, E.
    - apply in_or_app. right. left. reflexivity. }
  split; [reflexivity|].
  split; intros j Hj; apply nth_error_set_nth_neq; congruence.
Qed.

Lemma hire_worker_witness :
  exists s' w',
    hire_worker 0 15 10 crowded = Ok (true, s') /\
    roster 0 s' = roster 0 crowded ++ [15%nat] /\
    nth_error (worker_agents (model s')) 15 = Some w' /\
    is_employed w' = true.
Proof.
  destruct (hire_worker_never_refuses 0 15 10 crowded
              (a_firm 16
                 [0; 0; 1; 1; 2; 2; 3; 3; 4; 4; 5; 5; 6; 6; 7; 7; 8; 8; 9; 9;
                  10; 10; 11; 11; 12; 12; 13; 13; 14; 14]%nat 31 0)
              (fresh_worker 15 low 300 6000 0.13 1.0 400)
              eq_refl eq_refl)
    as (s' & w' & H1 & H2 & H3 & H4 & _).
  exists s', w'. repeat split; assumption.
Defined.

(** [fire_worker] touches nothing unless the worker is on the roster: for
    a stranger it answers False and leaves the world as it is.  A listed
    worker loses one listing on the roster, is left unemployed with no
    employer and a wage of 0 but with the wealth and debt it had, ends on
    the model's list of the unemployed, and one listing of it leaves the
    list of the employed; no random number is drawn. *)
Theorem fire_worker_only_fires_from_the_roster (self worker : nat) (s : World)
    (f : Firm) (w : Worker)
    (Hf : nth_error (firm_agents (model s)) self = Some f)
    (Hw : nth_error (worker_agents (model s)) worker = Some w) :
  exists s',
    fire_worker self worker s = Ok (mem worker (workers f), s') /\
    (mem worker (workers f) = false -> s' = s) /\
    (mem worker (workers f) = true ->
     roster self s' = remove_first worker (workers f) /\
     S (length (roster self s')) = length (workers f) /\
     nth_error (worker_agents (model s')) worker = Some (lose_job w) /\
     In worker (unemployed_workers (model s')) /\
     employed_workers (model s')
     = remove_first worker (employed_workers (model s)) /\
     rng s' = rng s).
Proof.
  destruct (mem worker (workers f)) eqn:Hm.
  - eexists. split; [apply (fire_worker_run self worker s f w Hf Hw Hm)|].
    split; [discriminate|]. intros _. unfold roster. mproj.
    rewrite (nth_error_set_nth_hit self _ f _ Hf). mproj.
    split; [reflexivity|].
    split; [apply length_remove_first, mem_true_In, Hm|].
    split; [apply (nth_error_set_nth_hit worker _ w), Hw|].
    split; [|split; reflexivity].
    destruct (mem worker (unemployed_workers (model s))) eqn:E.
    + apply mem_true_In, E.
    + apply in_or_app. right. left. reflexivity.
  - exists s. split; [apply (fire_worker_stranger self worker s f Hf Hm)|].
    split; [reflexivity | discriminate].
Qed.

Lemma fire_worker_witness :
  exists s', fire_worker 0 3 scenario_D = Ok (true, s').
Proof.
  destruct (fire_worker_only_fires_from_the_roster 0 3 scenario_D
              (a_firm 6 [0; 1; 2; 3; 4; 5]%nat 40 (-600)) (hired_worker 3)
              eq_refl eq_refl)
    as (s' & H1 & _).
  exists s'. exact H1.
Defined.

(** *** The skill mix and the wage offer *)

Lemma count_skills_run (roster : list nat) (acc : SkillMap) (s : World) :
  Forall (fun i => (i < length (worker_agents (model s)))%nat) roster ->
  exists c,
    count_skills roster acc s = Ok (c, s) /\
    at_high acc <= at_high c /\ at_medium acc <= at_medium c /\
    at_low acc <= at_low c /\
    at_high c + at_medium c + at_low c
    == at_high acc + at_medium acc + at_low acc + of_nat (length roster).
Proof.
  intros Hr. revert acc.
  induction Hr as [|i roster Hi _ IH]; intros acc; cbn [count_skills length].
  - exists acc. split; [reflexivity|]. change (of_nat 0) with 0.
    repeat split; lra.
  - destruct (nth_error_lt _ _ Hi) as [w Hw].
    rewrite (bind_run (worker_at i) _ s s w)
      by (unfold worker_at; rewrite Hw; reflexivity).
    destruct (IH (bump acc (skill_level w))) as (c & -> & Hh & Hm & Hl & Hsum).
    exists c. split; [reflexivity|]. rewrite of_nat_S.
    destruct (skill_level w); cbn [bump at_high at_medium at_low] in *;
      repeat split; lra.
Qed.

Lemma skill_mix_read (n k self : nat) (s : World)
    (Hwf : wf n k s) (Hself : (self < k)%nat) :
  exists mix,
    get_current_skill_mix self s = Ok (mix, s) /\
    0 <= at_high mix <= 1 /\ 0 <= at_medium mix <= 1 /\
    0 <= at_low mix <= 1 /\
    (roster self s = [] -> mix = mkSkillMap 0 0 0).
Proof.
  destruct (wf_firm n k s self Hwf Hself) as (f & Hf & Hfok).
  unfold get_current_skill_mix.
  rewrite (bind_run (firm_at self) _ s s f)
    by (unfold firm_at; rewrite Hf; reflexivity).
  rewrite (roster_firm self s f Hf).
  destruct (workers f) as [|i rest] eqn:E.
  { exists (mkSkillMap 0 0 0). split; [reflexivity|].
    cbn [at_high at_medium at_low].
    split; [lra|]. split; [lra|]. split; [lra|].
    reflexivity. }
  assert (Hr : Forall (fun i => (i < length (worker_agents (model s)))%nat)
                 (i :: rest)).
  { destruct Hfok as (_ & _ & _ & Hr). rewrite E in Hr.
    destruct Hwf as (_ & Hn & _). rewrite Hn. exact Hr. }
  destruct (count_skills_run (i :: rest) (mkSkillMap 0 0 0) s Hr)
    as (c & Hc & Hh & Hm & Hl & Hsum).
  cbn [at_high at_medium at_low] in Hh, Hm, Hl, Hsum.
  rewrite (bind_run _ _ s s c Hc).
  assert (Hpos : 0 < of_nat (length (i :: rest)))
    by (apply of_nat_pos; cbn [length]; lia).
  assert (Hnz : ~ of_nat (length (i :: rest)) == 0) by lra.
  unfold lift. rewrite !(pydiv_ok _ _ Hnz).
  repeat (erewrite bind_run by reflexivity).
  eexists. split; [reflexivity|]. cbn [at_high at_medium at_low].
  split; [split; [apply Qdiv_nonneg | apply Qdiv_le_1]; lra|].
  split; [split; [apply Qdiv_nonneg | apply Qdiv_le_1]; lra|].
  split; [split; [apply Qdiv_nonneg | apply Qdiv_le_1]; lra|].
  discriminate.
Qed.

(** [get_current_skill_mix] reads without writing and never raises: it
    answers three shares in [0, 1], and three zeros on an empty roster. *)
Theorem skill_mix_reads_without_writing (n k self : nat) (s : World)
    (Hwf : wf n k s) (Hself : (self < k)%nat) :
  exists mix,
    get_current_skill_mix self s = Ok (mix, s) /\
    0 <= at_high mix <= 1 /\ 0 <= at_medium mix <= 1 /\
    0 <= at_low mix <= 1 /\
    (roster self s = [] -> mix = mkSkillMap 0 0 0).
Proof. exact (skill_mix_read n k self s Hwf Hself). Qed.

Lemma skill_mix_reads_witness :
  exists mix, get_current_skill_mix 0 scenario_D = Ok (mix, scenario_D).
Proof.
  destruct (skill_mix_reads_without_writing 6 1 0 scenario_D) as (mix & H & _).
  - apply wf_check_sound; [apply constant_rng_ok; lra | vm_compute; reflexivity].
  - lia.
  - exists mix. exact H.
Defined.

Lemma pymax_lub (a b c : Q) : a <= c -> b <= c -> pymax a b <= c.
Proof. unfold pymax. intros Ha Hb. destruct (Qltb a b); assumption. Qed.

Lemma pymax_mono_l (a a' b : Q) : a <= a' -> pymax a b <= pymax a' b.
Proof.
  intros H. apply pymax_lub.
  - eapply Qle_trans; [exact H | apply pymax_le_l].
  - apply pymax_le_r.
Qed.

Lemma wage_offer_drawn (n k self worker : nat) (s : World) (f : Firm) (w : Worker)
    (Hwf : wf n k s)
    (Hf : nth_error (firm_agents (model s)) self = Some f)
    (Hw : nth_error (worker_agents (model s)) worker = Some w) :
  exists offer reservation,
    calculate_worker_wage_offer self worker s
    = Ok (offer, mkWorld (model s) (advance (rng s))) /\
    get_reservation_wage w = Ok reservation /\
    reservation <= offer /\
    0.8 * lookup (wage_rates f) (skill_level w) * work_hours w <= offer /\
    offer <= pymax (1.3 * lookup (wage_rates f) (skill_level w) * work_hours w)
               reservation.
Proof.
  assert (Hself : (self < k)%nat).
  { destruct Hwf as (_ & _ & Hk & _). rewrite <- Hk.
    apply nth_error_Some. congruence. }
  assert (Hfok : firm_ok n f).
  { destruct Hwf as (_ & _ & _ & _ & Hfs & _).
    apply (Forall_nth_error _ _ self f Hfs Hf). }
  assert (Hwok : worker_ok w).
  { destruct Hwf as (_ & _ & _ & Hws & _).
    apply (Forall_nth_error _ _ worker w Hws Hw). }
  destruct Hfok as (Hh & Hm & Hl & _).
  pose proof (lookup_nonneg (wage_rates f) (skill_level w) Hh Hm Hl) as Hbase.
  destruct Hwok as (_ & Hp).
  destruct (get_reservation_wage_total w Hp) as [r Hr].
  assert (Hhours : 0 < work_hours w) by apply Hp.
  destruct (skill_mix_read n k self s Hwf Hself) as (mix & Hmix & _).
  unfold calculate_worker_wage_offer.
  rewrite (bind_run (firm_at self) _ s s f)
    by (unfold firm_at; rewrite Hf; reflexivity).
  rewrite (bind_run (worker_at worker) _ s s w)
    by (unfold worker_at; rewrite Hw; reflexivity).
  rewrite (bind_run _ _ s s mix Hmix).
  set (rate := lookup (wage_rates f) (skill_level w)) in *.
  assert (Hscale : 0 <= rate * work_hours w)
    by (apply Qmult_le_0_compat; lra).
  destruct (wf_rng_ok n k s Hwf (cursor (rng s))) as [Hu0 Hu1].
  set (u := draws (rng s) (cursor (rng s))) in *.
  assert (Hfin : forall a b, 0.8 <= a -> a <= b -> b <= 1.3 ->
    exists offer,
      (wage_multiplier <- uniform a b ;;
       reservation <- lift (get_reservation_wage w) ;;
       ret (pymax (rate * wage_multiplier * work_hours w) reservation)) s
      = Ok (offer, mkWorld (model s) (advance (rng s))) /\
      r <= offer /\ 0.8 * rate * work_hours w <= offer /\
      offer <= pymax (1.3 * rate * work_hours w) r).
  { intros a b Ha Hab Hb.
    erewrite bind_run by reflexivity.
    unfold lift. rewrite Hr.
    erewrite bind_run by reflexivity.
    eexists. split; [reflexivity|].
    cbn [fst rng_uniform rng_random]. fold u.
    assert (H1 : 0 <= (b - a) * u) by (apply Qmult_le_0_compat; lra).
    assert (H2 : 0 <= (b - a) * (1 - u)) by (apply Qmult_le_0_compat; lra).
    assert (H3 : 0 <= rate * work_hours w * (a + (b - a) * u - 0.8))
      by (apply Qmult_le_0_compat; lra).
    assert (H4 : 0 <= rate * work_hours w * (1.3 - (a + (b - a) * u)))
      by (apply Qmult_le_0_compat; lra).
    split; [apply pymax_le_r|].
    split.
    - eapply Qle_trans; [|apply pymax_le_l]. lra.
    - apply pymax_mono_l. lra. }
  destruct (Qltb _ _).
  - destruct (Hfin 1.1 1.3) as (offer & H1 & H2 & H3 & H4); try lra.
    exists offer, r. repeat split; assumption.
  - destruct (Hfin 0.8 1.0) as (offer & H1 & H2 & H3 & H4); try lra.
    exists offer, r. repeat split; assumption.
Qed.

(** A wage offer never undercuts the worker: it is at least the worker's
    reservation wage and at least 0.8 times the firm's weekly rate for the
    worker's skill, and at most the larger of 1.3 times that rate and the
    reservation wage.  Making the offer draws exactly one number and
    changes nothing in the model. *)
Theorem wage_offer_meets_the_reservation_wage (n k self worker : nat)
    (s : World) (f : Firm) (w : Worker)
    (Hwf : wf n k s)
    (Hf : nth_error (firm_agents (model s)) self = Some f)
    (Hw : nth_error (worker_agents (model s)) worker = Some w) :
  exists offer reservation,
    calculate_worker_wage_offer self worker s
    = Ok (offer, mkWorld (model s) (advance (rng s))) /\
    get_reservation_wage w = Ok reservation /\
    reservation <= offer /\
    0.8 * lookup (wage_rates f) (skill_level w) * work_hours w <= offer /\
    offer <= pymax (1.3 * lookup (wage_rates f) (skill_level w) * work_hours w)
               reservation.
Proof. exact (wage_offer_drawn n k self worker s f w Hwf Hf Hw). Qed.

Lemma wage_offer_witness :
  exists offer reservation,
    calculate_worker_wage_offer 0 2 scenario_D
    = Ok (offer, mkWorld (model scenario_D) (advance (rng scenario_D))) /\
    get_reservation_wage (hired_worker 2) = Ok reservation /\
    reservation <= offer.
Proof.
  destruct (wage_offer_meets_the_reservation_wage 6 1 0 2 scenario_D
              (a_firm 6 [0; 1; 2; 3; 4; 5]%nat 40 (-600)) (hired_worker 2))
    as (offer & reservation & H1 & H2 & H3 & _).
  - apply wf_check_sound; [apply constant_rng_ok; lra | vm_compute; reflexivity].
  - reflexivity.
  - reflexivity.
  - exists offer, reservation. repeat split; assumption.
Defined.

(** *** The hiring test *)

(** [should_hire_worker] and its guards.  A worker already on the roster,
    or any worker when the roster has reached the capacity, is refused
    without a draw and without a change to the world.  Otherwise one draw
    decides: on a refusal only the random source has moved; on acceptance
    the method has itself hired the worker, who is appended to the roster
    once and ends employed.  A firm with a positive last profit whose share
    of the worker's skill is below the preferred one accepts whatever the
    draw, because its hire probability is [0.8 * 1.5 = 1.2]. *)
Theorem should_hire_worker_respects_its_guards (n k self worker : nat)
    (s : World) (f : Firm) (w : Worker)
    (Hwf : wf n k s)
    (Hf : nth_error (firm_agents (model s)) self = Some f)
    (Hw : nth_error (worker_agents (model s)) worker = Some w) :
  (mem worker (workers f) = true \/
   (max_workers f <= Z.of_nat (length (workers f)))%Z ->
   should_hire_worker self worker s = Ok (false, s)) /\
  (mem worker (workers f) = false ->
   (Z.of_nat (length (workers f)) < max_workers f)%Z ->
   exists hired s',
     should_hire_worker self worker s = Ok (hired, s') /\
     roster self s' = (if hired then workers f ++ [worker] else workers f) /\
     (hired = false -> s' = mkWorld (model s) (advance (rng s))) /\
     (hired = true ->
      exists w', nth_error (worker_agents (model s')) worker = Some w' /\
                 is_employed w' = true) /\
     (forall mix,
         get_current_skill_mix self s = Ok (mix, s) ->
         lookup mix (skill_level w)
         < lookup (preferred_skill_mix f) (skill_level w) ->
         0 < profit f -> hired = true)).
Proof.
  assert (Hself : (self < k)%nat).
  { destruct Hwf as (_ & _ & Hk & _). rewrite <- Hk.
    apply nth_error_Some. congruence. }
  unfold should_hire_worker.
  rewrite (bind_run (firm_at self) _ s s f)
    by (unfold firm_at; rewrite Hf; reflexivity).
  split.
  { intros [Hm | Hfull].
    - rewrite Hm. reflexivity.
    - destruct (negb (mem worker (workers f))); [|reflexivity].
      apply Z.leb_le in Hfull. rewrite Hfull. reflexivity. }
  intros Hm Hroom. rewrite Hm. cbn [negb].
  apply Z.leb_gt in Hroom. rewrite Hroom.
  rewrite (bind_run (worker_at worker) _ s s w)
    by (unfold worker_at; rewrite Hw; reflexivity).
  destruct (skill_mix_read n k self s Hwf Hself) as (mix & Hmix & _).
  rewrite (bind_run _ _ s s mix Hmix).
  erewrite bind_run by reflexivity.
  cbn [fst snd rng_random].
  destruct (wf_rng_ok n k s Hwf (cursor (rng s))) as [Hu0 Hu1].
  set (u := draws (rng s) (cursor (rng s))) in *.
  set (s1 := mkWorld (model s) (advance (rng s))).
  assert (Hwf1 : wf n k s1).
  { eapply wf_same_model; [exact Hwf | reflexivity|].
    apply rng_ok_advance, (wf_rng_ok n k s Hwf). }
  destruct (wage_offer_drawn n k self worker s1 f w Hwf1 Hf Hw)
    as (offer & r & Hoffer & _).
  match goal with
  | |- context [Qltb u ?p] => set (hire_probability := p); destruct (Qltb u hire_probability) eqn:Ehire
  end.
  - rewrite (bind_run _ _ _ _ _ Hoffer).
    erewrite bind_run
      by (apply (hire_worker_run self worker offer _ f w); [exact Hf | exact Hw]).
    exists true. eexists. split; [reflexivity|].
    unfold roster. mproj.
    rewrite (nth_error_set_nth_hit self _ f _ Hf). mproj.
    split; [reflexivity|]. split; [discriminate|].
    split; [|intros; reflexivity].
    intros _. eexists.
    split; [apply (nth_error_set_nth_hit worker _ w), Hw|].
    apply work_for_firm_employs.
  - exists false, s1. split; [reflexivity|].
    split; [apply (roster_firm self s1 f), Hf|].
    split; [reflexivity|]. split; [discriminate|].
    intros mix' Hmix' Hneed Hprofit. exfalso.
    rewrite Hmix in Hmix'. injection Hmix' as <-.
    apply Qltb_false in Ehire. unfold hire_probability in Ehire.
    apply Qltb_true in Hneed. rewrite Hneed in Ehire.
    apply Qgtb_true in Hprofit. rewrite Hprofit in Ehire.
    lra.
Qed.

Lemma should_hire_worker_witness :
  should_hire_worker 0 3 scenario_D = Ok (false, scenario_D).
Proof.
  apply (proj1 (should_hire_worker_respects_its_guards 6 1 0 3 scenario_D
                  (a_firm 6 [0; 1; 2; 3; 4; 5]%nat 40 (-600)) (hired_worker 3)
                  scenario_D_wf eq_refl eq_refl)).
  left. reflexivity.
Defined.

(** *** The books of a week *)

Lemma settle_run (self : nat) (total : Q) (s : World) (f : Firm) :
  nth_error (firm_agents (model s)) self = Some f ->
  settle self total s =
  Ok (tt, mkWorld
            (set_firm_agents
               (set_nth self
                  (set_capital
                     (capital f
                      + (total - wages_paid f
                         - pymax 0 ((total - wages_paid f) * tax_rate f)))
                     (set_profit
                        (total - wages_paid f
                         - pymax 0 ((total - wages_paid f) * tax_rate f))
                        (set_taxes_paid
                           (pymax 0 ((total - wages_paid f) * tax_rate f))
                           (set_total_surplus_value (total - wages_paid f) f))))
                  (firm_agents (model s)))
               (model s))
            (rng s)).
Proof.
  intros Hf. unfold settle.
  rewrite (bind_run (firm_at self) _ s s f)
    by (unfold firm_at; rewrite Hf; reflexivity).
  reflexivity.
Qed.

(** The settlement at the end of a firm's week, for a tax rate between 0
    and 1: the surplus is the value produced less the wage bill; taxes are
    never negative and a loss is never taxed, so a loss passes to profit
    in full while a gain leaves a profit between 0 and the surplus;
    capital moves by exactly the profit; the roster, the wage bill, the
    workers, the other firms and the random source are left alone. *)
Theorem settlement_never_taxes_a_loss (self : nat) (total : Q) (s : World)
    (f : Firm)
    (Hf : nth_error (firm_agents (model s)) self = Some f)
    (Htax : 0 <= tax_rate f <= 1) :
  exists s' f',
    settle self total s = Ok (tt, s') /\
    nth_error (firm_agents (model s')) self = Some f' /\
    total_surplus_value f' = total - wages_paid f /\
    0 <= taxes_paid f' /\
    profit f' == total_surplus_value f' - taxes_paid f' /\
    capital f' == capital f + profit f' /\
    (total_surplus_value f' <= 0 ->
     taxes_paid f' == 0 /\ profit f' == total_surplus_value f') /\
    (0 <= total_surplus_value f' ->
     0 <= profit f' /\ profit f' <= total_surplus_value f') /\
    workers f' = workers f /\ wages_paid f' = wages_paid f /\
    max_workers f' = max_workers f /\
    worker_agents (model s') = worker_agents (model s) /\
    rng s' = rng s /\
    (forall j, j <> self ->
       nth_error (firm_agents (model s')) j = nth_error (firm_agents (model s)) j).
Proof.
  eexists. eexists. split; [apply (settle_run self total s f Hf)|]. mproj.
  split; [apply (nth_error_set_nth_hit self _ f), Hf|]. mproj.
  set (surplus := total - wages_paid f).
  split; [reflexivity|].
  split; [apply pymax_le_l|].
  split; [reflexivity|].
  split; [reflexivity|].
  split.
  { intros Hs. unfold pymax.
    qtest (Qltb 0 (surplus * tax_rate f)).
    - assert (0 <= (- surplus) * tax_rate f) by (apply Qmult_le_0_compat; lra).
      lra.
    - split; lra. }
  split.
  { intros Hs.
    assert (H1 : 0 <= surplus * tax_rate f) by (apply Qmult_le_0_compat; lra).
    assert (H2 : 0 <= surplus * (1 - tax_rate f))
      by (apply Qmult_le_0_compat; lra).
    unfold pymax. qtest (Qltb 0 (surplus * tax_rate f)); split; lra. }
  split; [reflexivity|]. split; [reflexivity|]. split; [reflexivity|].
  split; [reflexivity|]. split; [reflexivity|].
  intros j Hj. apply nth_error_set_nth_neq. congruence.
Qed.

Lemma settlement_witness :
  exists s' f',
    settle 0 1000 scenario_D = Ok (tt, s') /\
    nth_error (firm_agents (model s')) 0 = Some f' /\
    total_surplus_value f' = 1000 - 0.
Proof.
  destruct (settlement_never_taxes_a_loss 0 1000 scenario_D
              (a_firm 6 [0; 1; 2; 3; 4; 5]%nat 40 (-600)) eq_refl)
    as (s' & f' & H1 & H2 & H3 & _).
  - split; vm_compute; discriminate.
  - exists s', f'. repeat split; assumption.
Defined.

End FirmMethods.

(** ** The aggregate queries, within their bounds *)

Section AggregateBounds.
Import SimpleWorkerAgent FirmState ModelState Invariants SimpleCapitalistModel.
Import Specification Scenarios.

Lemma sigma_le (n : nat) (f h : nat -> Q) :
  (forall i, (i < n)%nat -> f i <= h i) -> sigma n f <= sigma n h.
Proof.
  induction n as [|k IH]; intros H; cbn [sigma]; [lra|].
  pose proof (IH (fun i Hi => H i (Nat.lt_lt_succ_r _ _ Hi))).
  pose proof (H k (Nat.lt_succ_diag_r k)). lra.
Qed.

Lemma sigma_nonneg (n : nat) (f : nat -> Q) :
  (forall i, (i < n)%nat -> 0 <= f i) -> 0 <= sigma n f.
Proof.
  induction n as [|k IH]; intros H; cbn [sigma]; [lra|].
  pose proof (IH (fun i Hi => H i (Nat.lt_lt_succ_r _ _ Hi))).
  pose proof (H k (Nat.lt_succ_diag_r k)). lra.
Qed.

Lemma sigma_ge_term (n : nat) (f : nat -> Q) (j : nat) :
  (forall i, (i < n)%nat -> 0 <= f i) -> (j < n)%nat -> f j <= sigma n f.
Proof.
  induction n as [|k IH]; intros H Hj; [lia|]. cbn [sigma].
  assert (Hk : 0 <= f k) by (apply H; lia).
  assert (H0 : 0 <= sigma k f)
    by (apply sigma_nonneg; intros i Hi; apply H; lia).
  destruct (Nat.eq_dec j k) as [-> | Hne]; [lra|].
  assert (f j <= sigma k f) by (apply IH; [intros i Hi; apply H; lia | lia]).
  lra.
Qed.

Lemma sigma_le_bound (k : nat) (f : nat -> Q) (b : Q) :
  (forall i, (i < k)%nat -> f i <= b) -> sigma k f <= of_nat k * b.
Proof.
  intros H. rewrite <- sigma_const. apply sigma_le. exact H.
Qed.

(** Ascending values under descending weights [c - i]: the weighted sum is
    at most the mean weight times the plain sum. *)
Lemma sigma_descending_weights (n : nat) (f : nat -> Q) (c : Q) :
  (forall i j, (i <= j < n)%nat -> f i <= f j) ->
  2 * sigma n (fun i => f i * (c - of_nat i))
  <= (2 * c - of_nat n + 1) * sigma n f.
Proof.
  induction n as [|k IH]; intros Hmono.
  - cbn [sigma]. lra.
  - cbn [sigma]. rewrite of_nat_S.
    assert (IH' := IH (fun i j Hij => Hmono i j ltac:(lia))).
    assert (Hk : sigma k f <= of_nat k * f k).
    { apply sigma_le_bound. intros i Hi. apply Hmono. lia. }
    set (S1 := sigma k (fun i => f i * (c - of_nat i))) in *.
    set (T := sigma k f) in *. set (K := of_nat k) in *. set (a := f k) in *.
    lra.
Qed.

Lemma sorted_nth_ascending (x : list Q) :
  Sorted Qle x ->
  forall i j, (i <= j < length x)%nat -> nth i x 0 <= nth j x 0.
Proof.
  intros H. apply Sorted_StronglySorted in H; [|exact Qle_trans].
  induction H as [|a l Hl IH Ha]; intros i j Hij; cbn [length] in Hij; [lia|].
  destruct i as [|i], j as [|j]; cbn [nth]; try lia.
  - lra.
  - rewrite Forall_forall in Ha. apply Ha, nth_In. lia.
  - apply IH. lia.
Qed.

Lemma nth_nonneg (x : list Q) (i : nat) :
  Forall (fun v => 0 <= v) x -> 0 <= nth i x 0.
Proof.
  intros H. destruct (Nat.lt_ge_cases i (length x)) as [Hi | Hi].
  - rewrite Forall_forall in H. apply H, nth_In, Hi.
  - rewrite nth_overflow by exact Hi. lra.
Qed.

Lemma estimator_bounds (x : list Q) :
  Sorted Qle x -> Forall (fun v => 0 <= v) x ->
  (exists a, In a x /\ 0 < a) ->
  exists G, gini_estimator x = Ok G /\ 0 <= G /\
            G <= 1 - 1 / of_nat (length x).
Proof.
  intros Hs Hpos (a & Ha & Ha0).
  assert (Hlen : (0 < length x)%nat) by (destruct x; [contradiction | cbn; lia]).
  assert (Hn : 0 < of_nat (length x)) by apply of_nat_pos, Hlen.
  unfold gini_estimator.
  set (n := of_nat (length x)) in *.
  set (W := sigma (length x) (fun i => nth i x 0 * (n - of_nat i))).
  set (T := sigma (length x) (fun i => nth i x 0)).
  assert (HT : 0 < T).
  { destruct (In_nth x a 0 Ha) as (j & Hj & Ej).
    assert (nth j x 0 <= T).
    { apply (sigma_ge_term (length x) (fun i => nth i x 0) j); [|exact Hj].
      intros i _. apply nth_nonneg, Hpos. }
    rewrite Ej in H. lra. }
  assert (Hup : 2 * W <= (n + 1) * T).
  { pose proof (sigma_descending_weights (length x) (fun i => nth i x 0) n
                  (sorted_nth_ascending x Hs)) as H.
    cbv beta in H. change (of_nat (length x)) with n in H.
    fold W T in H. lra. }
  assert (Hlow : T <= W).
  { apply sigma_le. intros i Hi.
    assert (H0 : 0 <= nth i x 0) by apply nth_nonneg, Hpos.
    assert (H1 : 1 <= n - of_nat i).
    { assert (Hle : of_nat (S i) <= n)
        by (unfold n, of_nat; rewrite <- Zle_Qle; lia).
      rewrite of_nat_S in Hle. lra. }
    assert (0 <= nth i x 0 * (n - of_nat i - 1))
      by (apply Qmult_le_0_compat; lra).
    lra. }
  assert (HnT : 0 < n * T) by (apply Qmult_lt_0_compat; assumption).
  rewrite (pydiv_ok W) by lra. cbn [rbind].
  rewrite (pydiv_ok 1) by lra. cbn [rbind].
  eexists. split; [reflexivity|].
  assert (Hinv : 0 < / (n * T)) by apply Qinv_lt_0_compat, HnT.
  assert (E1 : 1 + 1 / n - 2 * (W / (n * T))
               == ((n + 1) * T - 2 * W) * / (n * T)) by (field; split; lra).
  assert (E2 : 1 - 1 / n - (1 + 1 / n - 2 * (W / (n * T)))
               == (2 * (W - T)) * / (n * T)) by (field; split; lra).
  split.
  - rewrite E1. apply Qmult_le_0_compat; lra.
  - assert (0 <= (2 * (W - T)) * / (n * T)) by (apply Qmult_le_0_compat; lra).
    lra.
Qed.

(** The Gini coefficient of wealth, for a population in which no wealth is
    negative: when some wealth is positive [compute_gini] returns, and the
    coefficient is strictly below 1; when every wealth is 0 it raises
    [ZeroDivisionError]. *)
Theorem gini_is_defined_below_1 (m : Model)
    (Hwealth : Forall (fun w => 0 <= wealth w) (worker_agents m)) :
  ((exists w, In w (worker_agents m) /\ 0 < wealth w) ->
   exists G, compute_gini m = Ok G /\ G < 1) /\
  (Forall (fun w => wealth w == 0) (worker_agents m) ->
   compute_gini m = Raise ZeroDivisionError).
Proof.
  split; [|apply compute_gini_zero_wealth].
  intros Hsome.
  pose proof (compute_gini_refines m) as Href.
  pose proof (sorted_permutation (map wealth (worker_agents m))) as Hperm.
  destruct (estimator_bounds (sorted (map wealth (worker_agents m))))
    as (G & HG & H0 & H1).
  - apply sorted_ascending.
  - eapply Permutation_Forall; [exact Hperm|].
    apply Forall_map. exact Hwealth.
  - destruct Hsome as (w & Hw & Hw0). exists (wealth w).
    split; [|exact Hw0].
    eapply Permutation_in; [exact Hperm|]. apply in_map, Hw.
  - rewrite HG in Href.
    destruct (compute_gini m) as [q|e]; cbn in Href; [|contradiction].
    rewrite <- (Permutation_length Hperm), length_map in H1.
    assert (Hn : 0 < of_nat (length (worker_agents m))).
    { apply of_nat_pos. destruct Hsome as (w & Hw & _).
      destruct (worker_agents m); [contradiction | cbn; lia]. }
    assert (0 < 1 / of_nat (length (worker_agents m)))
      by (apply Qdiv_pos; lra).
    exists q. split; [reflexivity|]. rewrite Href. lra.
Qed.

Lemma gini_below_1_witness :
  exists G, compute_gini scenario_A = Ok G /\ G < 1.
Proof.
  apply (proj1 (gini_is_defined_below_1 scenario_A
                  ltac:(repeat constructor; vm_compute; discriminate))).
  exists (fresh_worker 0 medium 1000 6000 0.13 1.2 500).
  split; [left; reflexivity | reflexivity].
Defined.

Lemma pysum_nonneg (xs : list Q) :
  Forall (fun v => 0 <= v) xs -> 0 <= pysum xs.
Proof.
  induction xs as [|a xs IH] using rev_ind; intros H; [unfold pysum; cbn; lra|].
  rewrite pysum_snoc. apply Forall_app in H. destruct H as [H1 H2].
  inversion H2; subst. specialize (IH H1). lra.
Qed.


(** The wage share of output, when no wage is negative and the firms'
    surplus adds up to no loss: [get_wage_share] returns a share between 0
    and 1, which is 0 when there is no output. *)
Theorem wage_share_is_a_share (m : Model)
    (Hwages : Forall (fun w => 0 <= wage w) (worker_agents m))
    (Hsurplus :
       0 <= pysum (map SimpleFirmAgent.get_total_surplus_value (firm_agents m))) :
  exists share,
    get_wage_share m = Ok share /\ 0 <= share /\ share <= 1 /\
    (pysum (map wage (worker_agents m)) == 0 -> share == 0).
Proof.
  unfold get_wage_share, get_workers, get_firms.
  assert (Hw : 0 <= pysum (map wage (worker_agents m))).
  { apply pysum_nonneg, Forall_map. exact Hwages. }
  set (wages := pysum (map wage (worker_agents m))) in *.
  set (surplus :=
         pysum (map SimpleFirmAgent.get_total_surplus_value (firm_agents m))) in *.
  qtest (Qgtb (wages + surplus) 0).
  - rewrite pydiv_ok by lra. eexists. split; [reflexivity|].
    split; [apply Qdiv_nonneg; lra|].
    split; [apply Qdiv_le_1; lra|].
    intros Hz. rewrite Hz. field. lra.
  - exists 0. split; [reflexivity|]. split; [lra|]. split; [lra|].
    intros _. reflexivity.
Qed.

Lemma wage_share_witness :
  exists share, get_wage_share scenario_A = Ok share /\ 0 <= share.
Proof.
  destruct (wage_share_is_a_share scenario_A) as (share & H1 & H2 & _).
  - repeat constructor; vm_compute; discriminate.
  - vm_compute. discriminate.
  - exists share. split; assumption.
Defined.

Lemma sum_exploitation_bounds (ws : list Worker) (acc : Q) :
  Forall (fun w => 0 <= wage w) ws ->
  exists q,
    sum_exploitation ws acc = Ok q /\ q <= acc + of_nat (length ws) /\
    (Forall (fun w => wage w <= get_productive_value w) ws -> acc <= q).
Proof.
  intros H. revert acc.
  induction H as [|w ws Hw _ IH]; intros acc; cbn [sum_exploitation length].
  - exists acc. split; [reflexivity|]. change (of_nat 0) with 0.
    split; [lra|]. intros _. lra.
  - pose proof (of_nat_S (length ws)) as HS.
    qtest (Qgtb (get_productive_value w) 0).
    + rewrite pydiv_ok by lra. cbn [rbind].
      destruct (IH (acc + (1 - wage w / get_productive_value w)))
        as (q & -> & Hq & Hlow).
      assert (H0 : 0 <= wage w / get_productive_value w)
        by (apply Qdiv_nonneg; assumption).
      exists q. split; [reflexivity|]. split; [lra|].
      intros Hall. inversion Hall; subst.
      assert (wage w / get_productive_value w <= 1)
        by (apply Qdiv_le_1; assumption).
      specialize (Hlow ltac:(assumption)). lra.
    + destruct (IH acc) as (q & -> & Hq & Hlow).
      exists q. split; [reflexivity|]. split; [lra|].
      intros Hall. inversion Hall; subst. apply Hlow. assumption.
Qed.

Lemma filter_employed_none (ws : list Worker) :
  Forall (fun w => is_employed w = false) ws -> filter is_employed ws = [].
Proof.
  intros Hall. induction Hall as [|w ws Hw _ IH]; [reflexivity|].
  cbn [filter]. rewrite Hw. exact IH.
Qed.

(** The average exploitation rate, when no wage is negative:
    [get_avg_exploitation_rate] returns a rate of at most 1, which is not
    negative when no employed worker's wage exceeds the value the worker
    produces, and 0 when nobody is employed. *)
Theorem average_exploitation_is_at_most_1 (m : Model)
    (Hwages : Forall (fun w => 0 <= wage w) (worker_agents m)) :
  exists rate,
    get_avg_exploitation_rate m = Ok rate /\ rate <= 1 /\
    (Forall (fun w => is_employed w = true ->
                      wage w <= get_productive_value w) (worker_agents m) ->
     0 <= rate) /\
    (Forall (fun w => is_employed w = false) (worker_agents m) -> rate = 0).
Proof.
  unfold get_avg_exploitation_rate, get_workers.
  assert (Hf : Forall (fun w => 0 <= wage w)
                 (filter is_employed (worker_agents m))).
  { rewrite Forall_forall in *. intros w Hw. apply filter_In in Hw.
    apply Hwages, Hw. }
  pose proof (filter_employed_none (worker_agents m)) as Hnone.
  assert (Hval : Forall (fun w => is_employed w = true ->
                                  wage w <= get_productive_value w)
                   (worker_agents m) ->
                 Forall (fun w => wage w <= get_productive_value w)
                   (filter is_employed (worker_agents m))).
  { intros Hall. rewrite Forall_forall in *. intros w Hw.
    apply filter_In in Hw. destruct Hw as [Hin He]. apply (Hall w Hin He). }
  destruct (filter is_employed (worker_agents m)) as [|w ws] eqn:E.
  { exists 0. split; [reflexivity|]. split; [lra|].
    split; [intros _; lra | reflexivity]. }
  destruct (sum_exploitation_bounds (w :: ws) 0 Hf) as (q & -> & Hq & Hlow).
  cbn [rbind].
  assert (Hn : 0 < of_nat (length (w :: ws)))
    by (apply of_nat_pos; cbn [length]; lia).
  rewrite pydiv_ok by lra.
  eexists. split; [reflexivity|].
  split; [apply Qdiv_le_1; lra|].
  split.
  - intros Hall. apply Qdiv_nonneg; [|exact Hn]. apply Hlow, Hval, Hall.
  - intros Hall. specialize (Hnone Hall). discriminate.
Qed.

Lemma average_exploitation_witness :
  exists rate,
    get_avg_exploitation_rate (model scenario_D) = Ok rate /\ rate <= 1.
Proof.
  destruct (average_exploitation_is_at_most_1 (model scenario_D))
    as (rate & H1 & H2 & _).
  - repeat constructor; vm_compute; discriminate.
  - exists rate. split; assumption.
Defined.




End AggregateBounds.

(** ** What every run keeps *)

Section RunLedger.
Import SimpleWorkerAgent FirmState ModelState Invariants SimpleFirmAgent.
Import SimpleCapitalistModel Ledger Reports Frames Scenarios.
Local Open Scope world_scope.

(** *** Histories *)

Lemma worker_history_refl (w : Worker) : worker_history w w.
Proof.
  split; [apply same_params_refl|]. split; [reflexivity|]. split; lra.
Qed.

Lemma worker_history_trans (a b c : Worker) :
  worker_history a b -> worker_history b c -> worker_history a c.
Proof.
  intros (P1 & B1 & E1 & T1) (P2 & B2 & E2 & T2).
  split; [eapply same_params_trans; eassumption|].
  split; [congruence|]. split; lra.
Qed.

Lemma firm_static_refl (f : Firm) : firm_static f f.
Proof. repeat split. Qed.

Lemma firm_static_trans (a b c : Firm) :
  firm_static a b -> firm_static b c -> firm_static a c.
Proof.
  unfold firm_static.
  intros (?&?&?&?&?&?&?&?&?&?&?&?) (?&?&?&?&?&?&?&?&?&?&?&?).
  repeat split; congruence.
Qed.

Lemma Forall2_refl {A} (R : A -> A -> Prop) (l : list A) :
  (forall a, R a a) -> Forall2 R l l.
Proof. intros H. induction l; constructor; auto. Qed.

Lemma Forall2_trans {A} (R : A -> A -> Prop) (l1 l2 l3 : list A) :
  (forall a b c, R a b -> R b c -> R a c) ->
  Forall2 R l1 l2 -> Forall2 R l2 l3 -> Forall2 R l1 l3.
Proof.
  intros Ht H12. revert l3.
  induction H12 as [|a b l1 l2 Hab _ IH]; intros l3 H23;
    inversion H23; subst; constructor; eauto.
Qed.

Lemma Forall2_update {A} (R : A -> A -> Prop) (l0 l : list A) (i : nat) (x y : A) :
  (forall a b c, R a b -> R b c -> R a c) ->
  Forall2 R l0 l -> nth_error l i = Some x -> R x y ->
  Forall2 R l0 (set_nth i y l).
Proof.
  intros Ht H. revert i.
  induction H as [|a b l0 l Hab Hl IH]; intros i Hi Hxy;
    [destruct i; discriminate|].
  destruct i as [|i]; cbn [set_nth nth_error] in *.
  - injection Hi as ->. constructor; [eapply Ht; eassumption | assumption].
  - constructor; [exact Hab | apply IH; assumption].
Qed.

(** *** Sound worlds under the elementary updates *)

Lemma sound_wf (n k : nat) (s : World) : sound n k s -> wf n k s.
Proof. intros H. apply H. Qed.

Lemma tracked_wf (ws0 : list Worker) (fs0 : list Firm) (h : Model) (s : World) :
  tracked ws0 fs0 h s -> wf (length ws0) (length fs0) s.
Proof. intros H. apply H. Qed.

Lemma tracked_same_model (ws0 : list Worker) (fs0 : list Firm) (h : Model)
    (s s' : World) :
  tracked ws0 fs0 h s -> model s' = model s -> rng_ok (rng s') ->
  tracked ws0 fs0 h s'.
Proof.
  unfold tracked, sound. intros ((Hwf & H1) & H2) E Hg. rewrite E.
  split; [split; [|exact H1] | exact H2].
  eapply wf_same_model; [exact Hwf | exact E | exact Hg].
Qed.

Lemma tracked_set_worker (ws0 : list Worker) (fs0 : list Firm) (h : Model)
    (s : World) (i : nat) (w w' : Worker) :
  tracked ws0 fs0 h s ->
  nth_error (worker_agents (model s)) i = Some w ->
  worker_ok w' -> worker_books w' -> worker_history w w' ->
  tracked ws0 fs0 h
    (mkWorld (set_worker_agents (set_nth i w' (worker_agents (model s))) (model s))
             (rng s)).
Proof.
  intros ((Hwf & Hwb & Hfb & Hp) & Hwh & Hfs & Hh) Hi Hok Hb Hhist.
  split; [split; [|split; [|split]] | split; [|split]]; mproj.
  - apply wf_set_worker; assumption.
  - apply Forall_set_nth; assumption.
  - exact Hfb.
  - unfold partitioned in *. mproj. rewrite length_set_nth. exact Hp.
  - apply (Forall2_update _ _ _ i w w' worker_history_trans); assumption.
  - exact Hfs.
  - exact Hh.
Qed.

Lemma tracked_set_firm (ws0 : list Worker) (fs0 : list Firm) (h : Model)
    (s : World) (i : nat) (f f' : Firm) :
  tracked ws0 fs0 h s ->
  nth_error (firm_agents (model s)) i = Some f ->
  firm_ok (length ws0) f' -> firm_books f' -> firm_static f f' ->
  tracked ws0 fs0 h
    (mkWorld (set_firm_agents (set_nth i f' (firm_agents (model s))) (model s))
             (rng s)).
Proof.
  intros ((Hwf & Hwb & Hfb & Hp) & Hwh & Hfs & Hh) Hi Hok Hb Hstat.
  split; [split; [|split; [|split]] | split; [|split]]; mproj.
  - apply wf_set_firm; assumption.
  - exact Hwb.
  - apply Forall_set_nth; assumption.
  - exact Hp.
  - exact Hwh.
  - apply (Forall2_update _ _ _ i f f' firm_static_trans); assumption.
  - exact Hh.
Qed.

Lemma tracked_firm (ws0 : list Worker) (fs0 : list Firm) (h : Model)
    (s : World) (self : nat) :
  tracked ws0 fs0 h s -> (self < length fs0)%nat ->
  exists f, nth_error (firm_agents (model s)) self = Some f /\
            firm_ok (length ws0) f /\ firm_books f.
Proof.
  intros ((Hwf & _ & Hfb & _) & _) Hs.
  destruct (wf_firm _ _ s self Hwf Hs) as (f & Hf & Hok).
  exists f. split; [exact Hf|]. split; [exact Hok|].
  apply (Forall_nth_error _ _ self f Hfb Hf).
Qed.

Lemma tracked_worker (ws0 : list Worker) (fs0 : list Firm) (h : Model)
    (s : World) (i : nat) :
  tracked ws0 fs0 h s -> (i < length ws0)%nat ->
  exists w, nth_error (worker_agents (model s)) i = Some w /\
            worker_ok w /\ worker_books w.
Proof.
  intros ((Hwf & Hwb & _) & _) Hi.
  destruct (wf_worker _ _ s i Hwf Hi) as (w & Hw & Hok).
  exists w. split; [exact Hw|]. split; [exact Hok|].
  apply (Forall_nth_error _ _ i w Hwb Hw).
Qed.

(** *** Pay *)

Lemma work_for_firm_history (firm : nat) (p r : Q) (w : Worker) (g : Rng) :
  rng_ok g -> 0 <= r -> 0 <= work_hours w -> worker_books w ->
  worker_history w (snd (fst (work_for_firm firm p r w g))) /\
  worker_books (snd (fst (work_for_firm firm p r w g))).
Proof.
  intros Hg Hr Hh (Bw & B1 & B2).
  unfold work_for_firm. destruct (is_employed w).
  { split; [apply worker_history_refl | repeat split; assumption]. }
  wproj.
  match goal with
  | |- context [get_tax_rate ?x g] =>
      destruct (get_tax_rate_bounds x g Hg) as (T0 & T1 & _);
      destruct (get_tax_rate x g) as [t g1]
  end.
  cbn [fst] in T0, T1.
  assert (Hgross : 0 <= r * work_hours w) by (apply Qmult_le_0_compat; assumption).
  assert (H1 : 0 <= r * work_hours w * (t - 0.05))
    by (apply Qmult_le_0_compat; lra).
  assert (H2 : 0 <= r * work_hours w * (0.30 - t))
    by (apply Qmult_le_0_compat; lra).
  assert (H3 : 0 <= r * work_hours w * t) by (apply Qmult_le_0_compat; lra).
  destruct (owns_firm w && Qgtb p 0);
    [destruct (rng_uniform 0.01 0.05 g1) as [share g2]|];
    cbn [fst snd]; unfold worker_history, worker_books; wproj;
    (split; [split; [repeat split | split; [reflexivity | split; lra]]
            | split; [exact Hr | split; lra]]).
Qed.

Lemma call_work_for_firm_tracked (ws0 : list Worker) (fs0 : list Firm)
    (h : Model) (self worker : nat) (r : Q)
    (Q : option Q -> World -> Prop) (s : World) :
  tracked ws0 fs0 h s -> (self < length fs0)%nat ->
  (worker < length ws0)%nat -> 0 <= r ->
  (forall v s', tracked ws0 fs0 h s' ->
                firm_agents (model s') = firm_agents (model s) ->
                Q v s') ->
  wp (call_work_for_firm self worker r) Q s.
Proof.
  intros Ht Hs Hi Hr HQ.
  destruct (tracked_firm _ _ _ s self Ht Hs) as (f & Hf & _).
  destruct (tracked_worker _ _ _ s worker Ht Hi) as (w & Hw & Hok & Hb).
  unfold wp. rewrite (call_work_for_firm_run self worker r s f w Hf Hw).
  pose proof (wf_rng_ok _ _ _ (tracked_wf _ _ _ _ Ht)) as Hg.
  destruct (work_for_firm_ok self (profit f) r w (rng s) Hg Hok Hr)
    as (Hok' & Hg').
  assert (Hh : 0 <= work_hours w)
    by (destruct Hok as (_ & Hh & _); apply Qlt_le_weak, Hh).
  destruct (work_for_firm_history self (profit f) r w (rng s) Hg Hr Hh Hb)
    as (Hhist & Hb').
  apply HQ; [|reflexivity].
  eapply tracked_same_model;
    [apply (tracked_set_worker ws0 fs0 h s worker w _ Ht Hw Hok' Hb' Hhist)
    | reflexivity | exact Hg'].
Qed.

(** *** Moving a worker between the employment lists *)

Lemma mem_false_not_In (x : nat) (xs : list nat) : mem x xs = false -> ~ In x xs.
Proof.
  intros H Hin. rewrite (mem_In x xs Hin) in H. discriminate.
Qed.

Lemma not_In_mem_false (x : nat) (xs : list nat) : ~ In x xs -> mem x xs = false.
Proof.
  intros H. destruct (mem x xs) eqn:E; [|reflexivity].
  exfalso. apply H, mem_true_In, E.
Qed.

(** Taking [x] off the list [B] and putting it on the list [A] unless it
    is there keeps [A] and [B] a partition of the positions below [n]. *)
Lemma move_keeps_partition (x n : nat) (A B : list nat) :
  (x < n)%nat -> Permutation (A ++ B) (seq 0 n) ->
  Permutation ((if mem x A then A else A ++ [x]) ++ remove_first x B) (seq 0 n).
Proof.
  intros Hx HP.
  assert (Hnd : NoDup (A ++ B)).
  { eapply Permutation_NoDup; [symmetry; exact HP | apply seq_NoDup]. }
  assert (Hin : In x (A ++ B)).
  { eapply Permutation_in; [symmetry; exact HP | apply in_seq; lia]. }
  destruct (mem x A) eqn:E.
  - apply mem_true_In in E.
    assert (HnB : ~ In x B).
    { intros HB. apply NoDup_app_remove_l in Hnd as HndB.
      clear HndB. revert Hnd E HB. clear. intros Hnd.
      induction A as [|a A IH]; intros E HB; [contradiction|].
      cbn in Hnd. inversion Hnd; subst. destruct E as [-> | E].
      - match goal with H : ~ In _ (_ ++ _) |- _ => apply H end.
        apply in_or_app. right. exact HB.
      - apply IH; assumption. }
    rewrite (remove_first_not_mem x B (not_In_mem_false x B HnB)). exact HP.
  - apply mem_false_not_In in E.
    assert (HB : In x B).
    { apply in_app_or in Hin. destruct Hin; [contradiction | assumption]. }
    rewrite <- HP, <- app_assoc. apply Permutation_app_head.
    cbn [app]. apply remove_first_permutation, HB.
Qed.

(** *** Hiring and firing *)

Lemma hire_worker_tracked (ws0 : list Worker) (fs0 : list Firm) (h : Model)
    (self worker : nat) (r : Q) (Q : bool -> World -> Prop) (s : World)
    (f : Firm) :
  tracked ws0 fs0 h s ->
  nth_error (firm_agents (model s)) self = Some f ->
  (worker < length ws0)%nat -> 0 <= r ->
  (Z.of_nat (length (workers f)) <= max_workers f)%Z ->
  (forall b s' f',
      tracked ws0 fs0 h s' ->
      nth_error (firm_agents (model s')) self = Some f' ->
      workers f' = workers f ++ [worker] ->
      max_workers f' = max_workers f ->
      Q b s') ->
  wp (hire_worker self worker r) Q s.
Proof.
  intros Ht Hf Hi Hr Hroom HQ.
  pose proof (tracked_wf _ _ _ _ Ht) as Hwf.
  assert (Hs : (self < length fs0)%nat).
  { destruct Hwf as (_ & _ & Hk & _). rewrite <- Hk.
    apply nth_error_Some. congruence. }
  destruct (tracked_firm _ _ _ s self Ht Hs) as (f0 & Hf0 & Hfok & Hfb).
  rewrite Hf in Hf0. injection Hf0 as <-.
  destruct (tracked_worker _ _ _ s worker Ht Hi) as (w & Hw & Hok & Hb).
  pose proof (hire_worker_spec _ _ self worker r
                (fun _ s' => wf (length ws0) (length fs0) s') s
                Hwf Hs Hi Hr (fun _ _ H => H)) as Hwf'.
  unfold wp in Hwf' |- *.
  rewrite (hire_worker_run self worker r s f w Hf Hw) in Hwf' |- *.
  pose proof (wf_rng_ok _ _ _ Hwf) as Hg.
  assert (Hh : 0 <= work_hours w)
    by (destruct Hok as (_ & Hh & _); apply Qlt_le_weak, Hh).
  destruct (work_for_firm_history self (profit f) r w (rng s) Hg Hr Hh Hb)
    as (Hhist & Hb').
  destruct Ht as ((_ & Hwb & Hfbs & Hp) & Hwh & Hfs & Hhd).
  apply (HQ true _ (set_workers (workers f ++ [worker]) f)).
  - split; [split; [|split; [|split]] | split; [|split]]; mproj.
    + exact Hwf'.
    + apply Forall_set_nth; assumption.
    + apply Forall_set_nth; [exact Hfbs|].
      destruct Hfb as [Hfb1 Hfb2]. split; mproj; [exact Hfb1|].
      rewrite length_app. cbn [length]. lia.
    + unfold partitioned in *. mproj. rewrite length_set_nth.
      apply move_keeps_partition; [|exact Hp].
      destruct Hwf as (_ & Hn & _). rewrite Hn. exact Hi.
    + apply (Forall2_update _ _ _ worker w _ worker_history_trans); assumption.
    + apply (Forall2_update _ _ _ self f _ firm_static_trans);
        [exact Hfs | exact Hf | repeat split].
    + exact Hhd.
  - mproj. apply (nth_error_set_nth_hit self _ f), Hf.
  - reflexivity.
  - reflexivity.
Qed.

Lemma lose_job_history (w : Worker) :
  worker_books w -> worker_history w (lose_job w) /\ worker_books (lose_job w).
Proof.
  intros (Bw & B1 & B2). unfold lose_job, worker_history, worker_books. wproj.
  split; [split; [repeat split | split; [reflexivity | split; lra]]|].
  split; [lra | split; assumption].
Qed.

Lemma fire_worker_tracked (ws0 : list Worker) (fs0 : list Firm) (h : Model)
    (self worker : nat) (Q : bool -> World -> Prop) (s : World) :
  tracked ws0 fs0 h s -> (self < length fs0)%nat ->
  (worker < length ws0)%nat ->
  (forall b s', tracked ws0 fs0 h s' -> Q b s') ->
  wp (fire_worker self worker) Q s.
Proof.
  intros Ht Hs Hi HQ.
  pose proof (tracked_wf _ _ _ _ Ht) as Hwf.
  destruct (tracked_firm _ _ _ s self Ht Hs) as (f & Hf & Hfok & Hfb).
  destruct (tracked_worker _ _ _ s worker Ht Hi) as (w & Hw & Hok & Hb).
  destruct (mem worker (workers f)) eqn:Hm.
  2:{ unfold wp. rewrite (fire_worker_stranger self worker s f Hf Hm).
      apply HQ, Ht. }
  pose proof (fire_worker_spec _ _ self worker
                (fun _ s' => wf (length ws0) (length fs0) s') s
                Hwf Hs Hi (fun _ _ H => H)) as Hwf'.
  unfold wp in Hwf' |- *.
  rewrite (fire_worker_run self worker s f w Hf Hw Hm) in Hwf' |- *.
  destruct (lose_job_history w Hb) as (Hhist & Hb').
  destruct Ht as ((_ & Hwb & Hfbs & Hp) & Hwh & Hfs & Hhd).
  apply HQ.
  split; [split; [|split; [|split]] | split; [|split]]; mproj.
  - exact Hwf'.
  - apply Forall_set_nth; assumption.
  - apply Forall_set_nth; [exact Hfbs|].
    destruct Hfb as [Hfb1 Hfb2]. split; mproj; [exact Hfb1|].
    pose proof (length_remove_first worker (workers f) (mem_true_In _ _ Hm)).
    lia.
  - unfold partitioned in *. mproj. rewrite length_set_nth.
    rewrite Permutation_app_comm.
    apply move_keeps_partition.
    + destruct Hwf as (_ & Hn & _). rewrite Hn. exact Hi.
    + rewrite Permutation_app_comm. exact Hp.
  - apply (Forall2_update _ _ _ worker w _ worker_history_trans); assumption.
  - apply (Forall2_update _ _ _ self f _ firm_static_trans);
      [exact Hfs | exact Hf | repeat split].
  - exact Hhd.
Qed.

Lemma tracked_rng (ws0 : list Worker) (fs0 : list Firm) (h : Model)
    (s : World) (g : Rng) :
  tracked ws0 fs0 h s -> rng_ok g -> tracked ws0 fs0 h (mkWorld (model s) g).
Proof.
  intros Ht Hg. eapply tracked_same_model; [exact Ht | reflexivity | exact Hg].
Qed.

Lemma should_hire_worker_tracked (ws0 : list Worker) (fs0 : list Firm)
    (h : Model) (self worker : nat) (Q : bool -> World -> Prop) (s : World) :
  tracked ws0 fs0 h s -> (self < length fs0)%nat ->
  (worker < length ws0)%nat ->
  (forall b s',
      tracked ws0 fs0 h s' ->
      (b = true ->
       exists f', nth_error (firm_agents (model s')) self = Some f' /\
                  (Z.of_nat (length (workers f')) <= max_workers f')%Z) ->
      Q b s') ->
  wp (should_hire_worker self worker) Q s.
Proof.
  intros Ht Hs Hi HQ. unfold should_hire_worker.
  pose proof (tracked_wf _ _ _ _ Ht) as Hwf.
  destruct (tracked_firm _ _ _ s self Ht Hs) as (f & Hf & Hfok & Hfb).
  apply wp_bind, (wp_firm_at self f); [exact Hf|].
  destruct (negb (mem worker (workers f)));
    [|apply wp_ret, HQ; [exact Ht | discriminate]].
  destruct (max_workers f <=? Z.of_nat (length (workers f)))%Z eqn:Eroom;
    [apply wp_ret, HQ; [exact Ht | discriminate]|].
  apply Z.leb_gt in Eroom.
  destruct (wf_worker _ _ s worker Hwf Hi) as (w & Hw & _).
  apply wp_bind, (wp_worker_at worker w); [exact Hw|].
  apply wp_bind, (get_current_skill_mix_spec (length ws0) (length fs0));
    [exact Hwf | exact Hs|].
  intros mix.
  apply wp_bind, wp_random; [apply Hwf|]. intros u g Hg.
  pose proof (tracked_rng _ _ _ s g Ht Hg) as Ht1.
  match goal with |- wp (if ?c then _ else _) _ _ => destruct c end;
    [|apply wp_ret, HQ; [exact Ht1 | discriminate]].
  apply wp_bind,
    (calculate_worker_wage_offer_spec (length ws0) (length fs0));
    try assumption; [apply (tracked_wf _ _ _ _ Ht1)|].
  intros offer s2 Hm2 Hg2 Hoffer.
  assert (Ht2 : tracked ws0 fs0 h s2)
    by (eapply tracked_same_model; eassumption).
  apply wp_bind, (hire_worker_tracked ws0 fs0 h self worker offer _ s2 f);
    try assumption.
  { rewrite Hm2. exact Hf. }
  { lia. }
  intros b s3 f' Ht3 Hf' Hw' Hmax. apply wp_ret, HQ; [exact Ht3|].
  intros _. exists f'. split; [exact Hf'|].
  rewrite Hw', length_app, Hmax. cbn [length]. lia.
Qed.

Lemma firing_decision_tracked (ws0 : list Worker) (fs0 : list Firm)
    (h : Model) (self : nat) (Q : unit -> World -> Prop) (s : World) :
  tracked ws0 fs0 h s -> (self < length fs0)%nat ->
  (forall s', tracked ws0 fs0 h s' -> Q tt s') ->
  wp (firing_decision self) Q s.
Proof.
  intros Ht Hs HQ. unfold firing_decision.
  pose proof (tracked_wf _ _ _ _ Ht) as Hwf.
  destruct (tracked_firm _ _ _ s self Ht Hs) as (f & Hf & Hfok & Hfb).
  apply wp_bind, (wp_firm_at self f); [exact Hf|].
  destruct (Qltb (profit f) (-500) && (5 <? length (workers f))%nat) eqn:E;
    [|apply wp_ret, HQ, Ht].
  apply andb_true_iff in E. destruct E as [_ E]. apply Nat.ltb_lt in E.
  apply wp_bind, wp_random; [apply Hwf|]. intros u g Hg.
  pose proof (tracked_rng _ _ _ s g Ht Hg) as Ht1.
  destruct (Qltb u 0.45); [|apply wp_ret, HQ, Ht1].
  apply wp_bind, wp_choice;
    [exact Hg | destruct (workers f); [cbn in E; lia | discriminate]|].
  intros x g2 Hg2 Hx.
  pose proof (tracked_rng _ _ _ s g2 Ht Hg2) as Ht2.
  assert (Hxn : (x < length ws0)%nat).
  { destruct Hfok as (_ & _ & _ & Hr). rewrite Forall_forall in Hr. apply Hr, Hx. }
  apply wp_bind, (fire_worker_tracked ws0 fs0 h); try assumption.
  intros b s3 Ht3. apply wp_ret, HQ, Ht3.
Qed.

Lemma hiring_loop_tracked (ws0 : list Worker) (fs0 : list Firm) (h : Model)
    (self : nat) (count : nat) (pool : list nat)
    (Q : unit -> World -> Prop) (s : World) :
  tracked ws0 fs0 h s -> (self < length fs0)%nat ->
  Forall (fun i => (i < length ws0)%nat) pool -> (count <= length pool)%nat ->
  (forall s', tracked ws0 fs0 h s' -> Q tt s') ->
  wp (hiring_loop self count pool) Q s.
Proof.
  intros Ht Hs Hpool Hcount HQ. revert pool s Ht Hpool Hcount.
  induction count as [|count IH]; intros pool s Ht Hpool Hcount;
    cbn [hiring_loop]; [apply wp_ret, HQ, Ht|].
  pose proof (tracked_wf _ _ _ _ Ht) as Hwf.
  destruct (tracked_firm _ _ _ s self Ht Hs) as (f & Hf & Hfok & Hfb).
  apply wp_bind, (wp_firm_at self f); [exact Hf|].
  destruct (max_workers f <=? Z.of_nat (length (workers f)))%Z;
    [apply wp_ret, HQ, Ht|].
  apply wp_bind, wp_choice;
    [apply Hwf | destruct pool; [cbn in Hcount; lia | discriminate]|].
  intros x g Hg Hx.
  pose proof (tracked_rng _ _ _ s g Ht Hg) as Ht1.
  assert (Hxn : (x < length ws0)%nat).
  { rewrite Forall_forall in Hpool. apply Hpool, Hx. }
  apply wp_bind, (should_hire_worker_tracked ws0 fs0 h); try assumption.
  intros hired s2 Ht2 Hroom.
  assert (Hrest : forall s', tracked ws0 fs0 h s' ->
                             wp (hiring_loop self count pool) Q s').
  { intros s' Ht'. apply IH; [exact Ht' | exact Hpool | lia]. }
  destruct hired; [|apply Hrest, Ht2].
  destruct (Hroom eq_refl) as (f2 & Hf2 & Hlen2).
  apply wp_bind,
    (calculate_worker_wage_offer_spec (length ws0) (length fs0));
    try assumption; [apply (tracked_wf _ _ _ _ Ht2)|].
  intros offer s3 Hm3 Hg3 Hoffer.
  assert (Ht3 : tracked ws0 fs0 h s3)
    by (eapply tracked_same_model; eassumption).
  destruct (wf_worker _ _ s3 x (tracked_wf _ _ _ _ Ht3) Hxn)
    as (w & Hw & (_ & Hp)).
  apply wp_bind, (wp_worker_at x w); [exact Hw|].
  destruct (get_reservation_wage_total w Hp) as [r Hr].
  apply wp_bind, (wp_lift _ r); [exact Hr|].
  destruct (Qgeb offer r); [|apply Hrest, Ht3].
  assert (Hh : 0 < work_hours w) by apply Hp.
  apply wp_bind, (wp_lift _ (offer / work_hours w)); [apply pydiv_ok; lra|].
  apply wp_bind,
    (hire_worker_tracked ws0 fs0 h self x (offer / work_hours w) _ s3 f2);
    try assumption.
  { rewrite Hm3. exact Hf2. }
  { apply Qdiv_nonneg; assumption. }
  intros b s4 f4 Ht4 _ _ _.
  apply IH; [exact Ht4 | apply Forall_remove_first, Hpool|].
  pose proof (length_remove_first x pool Hx). lia.
Qed.

Lemma hiring_decision_tracked (ws0 : list Worker) (fs0 : list Firm)
    (h : Model) (self : nat) (Q : unit -> World -> Prop) (s : World) :
  tracked ws0 fs0 h s -> (self < length fs0)%nat ->
  (forall s', tracked ws0 fs0 h s' -> Q tt s') ->
  wp (hiring_decision self) Q s.
Proof.
  intros Ht Hs HQ. unfold hiring_decision.
  pose proof (tracked_wf _ _ _ _ Ht) as Hwf.
  destruct (tracked_firm _ _ _ s self Ht Hs) as (f & Hf & Hfok & Hfb).
  apply wp_bind, (wp_firm_at self f); [exact Hf|].
  destruct (Z.of_nat (length (workers f)) <? max_workers f)%Z;
    [|apply wp_ret, HQ, Ht].
  apply wp_bind, wp_get_model.
  destruct (unemployed_workers (model s)) as [|i pool] eqn:E;
    [apply wp_ret, HQ, Ht|].
  apply (hiring_loop_tracked ws0 fs0 h); try assumption.
  - rewrite <- E. apply (wf_unemployed _ _ _ Hwf).
  - apply Nat.le_min_r.
Qed.

Lemma _make_employment_decisions_tracked (ws0 : list Worker) (fs0 : list Firm)
    (h : Model) (self : nat) (Q : unit -> World -> Prop) (s : World) :
  tracked ws0 fs0 h s -> (self < length fs0)%nat ->
  (forall s', tracked ws0 fs0 h s' -> Q tt s') ->
  wp (_make_employment_decisions self) Q s.
Proof.
  intros Ht Hs HQ. unfold _make_employment_decisions.
  apply wp_bind, (firing_decision_tracked ws0 fs0 h); try assumption.
  intros s1 Ht1. apply (hiring_decision_tracked ws0 fs0 h); assumption.
Qed.

(** *** A firm's week *)

Lemma produce_tracked (ws0 : list Worker) (fs0 : list Firm) (h : Model)
    (self : nat) (roster : list nat) (total : Q)
    (Q : Q -> World -> Prop) (s : World) :
  tracked ws0 fs0 h s -> (self < length fs0)%nat ->
  Forall (fun i => (i < length ws0)%nat) roster ->
  (forall v s', tracked ws0 fs0 h s' -> Q v s') ->
  wp (produce self roster total) Q s.
Proof.
  intros Ht Hs Hr HQ. revert total s Ht.
  induction Hr as [|i roster Hi _ IH]; intros total s Ht; cbn [produce];
    [apply wp_ret, HQ, Ht|].
  pose proof (tracked_wf _ _ _ _ Ht) as Hwf.
  destruct (wf_worker _ _ s i Hwf Hi) as (w & Hw & (_ & Hp)).
  apply wp_bind, (wp_worker_at i w); [exact Hw|].
  apply wp_bind,
    (calculate_worker_wage_offer_spec (length ws0) (length fs0));
    try assumption.
  intros offer s1 Hm1 Hg1 Hoffer.
  assert (Ht1 : tracked ws0 fs0 h s1)
    by (eapply tracked_same_model; eassumption).
  assert (Hh : 0 < work_hours w) by apply Hp.
  apply wp_bind, (wp_lift _ (offer / work_hours w)); [apply pydiv_ok; lra|].
  apply wp_bind, (call_work_for_firm_tracked ws0 fs0 h); try assumption.
  { apply Qdiv_nonneg; assumption. }
  intros v s2 Ht2 _.
  destruct (tracked_worker _ _ _ s2 i Ht2 Hi) as (w2 & Hw2 & _ & (Hwage & _)).
  apply wp_bind, (wp_worker_at i w2); [exact Hw2|].
  destruct (tracked_firm _ _ _ s2 self Ht2 Hs) as (f & Hf & Hfok & (Hpaid & Hlen)).
  apply wp_bind, (wp_firm_at self f); [exact Hf|].
  apply wp_bind, wp_set_firm. apply IH.
  apply (tracked_set_firm ws0 fs0 h s2 self f); try assumption.
  - split; mproj; [lra | exact Hlen].
  - repeat split.
Qed.

Lemma settle_tracked (ws0 : list Worker) (fs0 : list Firm) (h : Model)
    (self : nat) (total : Q) (Q : unit -> World -> Prop) (s : World) :
  tracked ws0 fs0 h s -> (self < length fs0)%nat ->
  (forall s', tracked ws0 fs0 h s' -> Q tt s') ->
  wp (settle self total) Q s.
Proof.
  intros Ht Hs HQ. unfold settle.
  destruct (tracked_firm _ _ _ s self Ht Hs) as (f & Hf & Hfok & Hfb).
  apply wp_bind, (wp_firm_at self f); [exact Hf|].
  apply wp_set_firm, HQ.
  apply (tracked_set_firm ws0 fs0 h s self f); try assumption.
  repeat split.
Qed.

Lemma firm_step_tracked (ws0 : list Worker) (fs0 : list Firm) (h : Model)
    (self : nat) (Q : unit -> World -> Prop) (s : World) :
  tracked ws0 fs0 h s -> (self < length fs0)%nat ->
  (forall s', tracked ws0 fs0 h s' -> Q tt s') ->
  wp (SimpleFirmAgent.step self) Q s.
Proof.
  intros Ht Hs HQ. unfold SimpleFirmAgent.step.
  destruct (tracked_firm _ _ _ s self Ht Hs) as (f & Hf & Hfok & (Hpaid & Hlen)).
  apply wp_bind, (wp_firm_at self f); [exact Hf|].
  apply wp_bind, wp_set_firm.
  match goal with
  | |- wp _ _ ?st => assert (Ht1 : tracked ws0 fs0 h st);
      [|revert Ht1; generalize st; intros s1 Ht1]
  end.
  { apply (tracked_set_firm ws0 fs0 h s self f); try assumption.
    - split; mproj; [lra | exact Hlen].
    - repeat split. }
  destruct (tracked_firm _ _ _ s1 self Ht1 Hs) as (f1 & Hf1 & Hfok1 & _).
  apply wp_bind, (wp_firm_at self f1); [exact Hf1|].
  apply wp_bind, (produce_tracked ws0 fs0 h); try assumption; [apply Hfok1|].
  intros total s2 Ht2.
  apply wp_bind, (settle_tracked ws0 fs0 h); try assumption.
  intros s3 Ht3. apply (_make_employment_decisions_tracked ws0 fs0 h); assumption.
Qed.

(** *** A worker's week *)

Lemma worker_step_bankrupt (w : Worker) (g : Rng) (w' : Worker) (g' : Rng) :
  worker_ok w -> SimpleWorkerAgent.step w g = Ok (w', g') ->
  is_bankrupt w' = is_bankrupt w.
Proof.
  intros [Hn Hp] Hstep. unfold SimpleWorkerAgent.step in Hstep.
  destruct (calculate_financial_stress_total w Hp) as [st Hst].
  rewrite Hst in Hstep. cbn [rbind snd] in Hstep.
  set (w0 := set_financial_stress st w) in *.
  set (w1 := pay_basic_needs w0) in *.
  set (w2 := handle_debt_mechanics w1) in *.
  set (w3 := wealth_decay w2) in *.
  assert (B1 : is_bankrupt w1 = is_bankrupt w).
  { unfold w1, pay_basic_needs. destruct (negb (is_employed w0)); wproj;
      destruct (Qgeb _ _); reflexivity. }
  assert (N1 : nonneg w1) by (apply pay_basic_needs_nonneg; exact Hn).
  assert (P1 : basic_needs w1 = basic_needs w).
  { pose proof (pay_basic_needs_same_params w0) as H. apply H. }
  assert (B2 : is_bankrupt w2 = is_bankrupt w1).
  { apply (debt_service_effect w1); [apply N1|].
    rewrite P1. apply Qlt_le_weak, Hp. }
  assert (B3 : is_bankrupt w3 = is_bankrupt w2).
  { unfold w3, wealth_decay. destruct (_ && _); reflexivity. }
  assert (B4 : is_bankrupt (fst (wealth_growth w3 g)) = is_bankrupt w3).
  { unfold wealth_growth. destruct (_ && _); [|reflexivity].
    destruct (rng_random g) as [u g1]. destruct (Qltb u 0.3); [|reflexivity].
    destruct (rng_uniform 1.001 1.003 g1). reflexivity. }
  injection Hstep as Hstep. rewrite Hstep in B4. cbn [fst] in B4. congruence.
Qed.

Lemma worker_step_history (w : Worker) (g : Rng) :
  rng_ok g -> worker_ok w -> worker_books w ->
  exists w' g',
    SimpleWorkerAgent.step w g = Ok (w', g') /\
    worker_ok w' /\ rng_ok g' /\ worker_history w w' /\ worker_books w'.
Proof.
  intros Hg Hok (Bw & B1 & B2).
  destruct (worker_step_ok w g Hg Hok) as (w' & g' & Hstep & Hok' & Hsp & Hg').
  pose proof (worker_step_bankrupt w g w' g' Hok Hstep) as Hb.
  destruct Hok as [Hn Hp].
  destruct (worker_step_frame w g ltac:(apply Hp) ltac:(apply Hp))
    as (w2 & g2 & Hstep2 & (_ & _ & Jw & Je & Jt) & _).
  rewrite Hstep in Hstep2. injection Hstep2 as <- <-.
  exists w', g'. split; [exact Hstep|]. split; [exact Hok'|].
  split; [exact Hg'|].
  split.
  - split; [exact Hsp|]. split; [exact Hb|]. rewrite Je, Jt. split; lra.
  - unfold worker_books. rewrite Jw, Je, Jt. repeat split; assumption.
Qed.

Lemma call_worker_step_tracked (ws0 : list Worker) (fs0 : list Firm)
    (h : Model) (i : nat) (Q : unit -> World -> Prop) (s : World) :
  tracked ws0 fs0 h s -> (i < length ws0)%nat ->
  (forall s', tracked ws0 fs0 h s' -> Q tt s') ->
  wp (call_worker_step i) Q s.
Proof.
  intros Ht Hi HQ. unfold call_worker_step.
  destruct (tracked_worker _ _ _ s i Ht Hi) as (w & Hw & Hok & Hb).
  apply wp_bind, (wp_worker_at i w); [exact Hw|].
  destruct (worker_step_history w (rng s)
              (wf_rng_ok _ _ _ (tracked_wf _ _ _ _ Ht)) Hok Hb)
    as (w' & g' & Hstep & Hok' & Hg' & Hhist & Hb').
  apply wp_bind. unfold wp at 1. rewrite Hstep.
  apply wp_set_worker, HQ.
  apply (tracked_set_worker ws0 fs0 h (mkWorld (model s) g') i w w');
    try assumption.
  apply tracked_rng; assumption.
Qed.

Lemma step_workers_tracked (ws0 : list Worker) (fs0 : list Firm) (h : Model)
    (refs : list nat) (Q : unit -> World -> Prop) (s : World) :
  tracked ws0 fs0 h s -> Forall (fun i => (i < length ws0)%nat) refs ->
  (forall s', tracked ws0 fs0 h s' -> Q tt s') ->
  wp (step_workers refs) Q s.
Proof.
  intros Ht Hr HQ. revert s Ht.
  induction Hr as [|i refs Hi _ IH]; intros s Ht; cbn [step_workers];
    [apply wp_ret, HQ, Ht|].
  apply wp_bind, (call_worker_step_tracked ws0 fs0 h);
    [exact Ht | exact Hi | exact IH].
Qed.

Lemma step_firms_tracked (ws0 : list Worker) (fs0 : list Firm) (h : Model)
    (refs : list nat) (Q : unit -> World -> Prop) (s : World) :
  tracked ws0 fs0 h s -> Forall (fun i => (i < length fs0)%nat) refs ->
  (forall s', tracked ws0 fs0 h s' -> Q tt s') ->
  wp (step_firms refs) Q s.
Proof.
  intros Ht Hr HQ. revert s Ht.
  induction Hr as [|i refs Hi _ IH]; intros s Ht; cbn [step_firms];
    [apply wp_ret, HQ, Ht|].
  apply wp_bind, (firm_step_tracked ws0 fs0 h);
    [exact Ht | exact Hi | exact IH].
Qed.

(** *** The collector *)

Lemma collect_stress_history (ws : list Worker) :
  Forall worker_books ws ->
  Forall worker_books (collect_stress ws) /\
  Forall2 worker_history ws (collect_stress ws).
Proof.
  induction 1 as [|w ws Hw Hws [IH1 IH2]]; cbn [collect_stress];
    [split; constructor|].
  destruct (calculate_financial_stress w) as [[v w']|e] eqn:E.
  - apply calculate_financial_stress_shape in E. subst w'.
    split; constructor; try assumption.
    split; [repeat split | split; [reflexivity | split; cbn; lra]].
  - split; [constructor; assumption|].
    constructor; [apply worker_history_refl|].
    apply Forall2_refl, worker_history_refl.
Qed.

Lemma collect_tracked (ws0 : list Worker) (fs0 : list Firm) (h : Model)
    (Q : unit -> World -> Prop) (s : World) :
  tracked ws0 fs0 h s -> (forall s', tracked ws0 fs0 h s' -> Q tt s') ->
  wp collect Q s.
Proof.
  intros Ht HQ.
  pose proof (collect_spec _ _ (fun _ s' => wf (length ws0) (length fs0) s') s
                (tracked_wf _ _ _ _ Ht) (fun _ H => H)) as Hwf'.
  unfold collect in *. apply wp_modify_model, HQ.
  unfold wp, modify_model in Hwf'.
  destruct Ht as ((Hwf & Hwb & Hfb & Hp) & Hwh & Hfs & Hhd).
  destruct (collect_stress_history _ Hwb) as [Hb' Hh'].
  assert (Hlen : length (collect_stress (worker_agents (model s)))
                 = length (worker_agents (model s))).
  { symmetry. eapply Forall2_length, Hh'. }
  split; [split; [|split; [|split]] | split; [|split]]; mproj.
  - exact Hwf'.
  - exact Hb'.
  - exact Hfb.
  - unfold partitioned in *. mproj. rewrite Hlen. exact Hp.
  - eapply Forall2_trans; [exact worker_history_trans | exact Hwh | exact Hh'].
  - exact Hfs.
  - exact Hhd.
Qed.

(** *** The economy's week, and any number of weeks *)

Lemma tracked_reheader (ws0 : list Worker) (fs0 : list Firm) (h h2 : Model)
    (s : World) :
  tracked ws0 fs0 h s -> same_header h2 h -> tracked ws0 fs0 h2 s.
Proof.
  intros (Hs & Hw & Hf & (A1 & A2 & A3 & A4 & A5)) (B1 & B2 & B3 & B4 & B5).
  split; [exact Hs|]. split; [exact Hw|]. split; [exact Hf|].
  unfold same_header. repeat split; congruence.
Qed.

Lemma tracked_set_price (ws0 : list Worker) (fs0 : list Firm) (h : Model)
    (s : World) (p : Q) (g : Rng) :
  tracked ws0 fs0 h s -> rng_ok g ->
  tracked ws0 fs0 (set_price_index p h)
    (mkWorld (set_price_index p (model s)) g).
Proof.
  intros (((_ & Hn & Hk & Hws & Hfs & Hu) & Hwb & Hfb & Hp) & Hwh & Hfst
          & (A1 & A2 & A3 & A4 & A5)) Hg.
  split; [split; [|split; [|split]] | split; [|split]]; mproj;
    try assumption.
  - wf_split; assumption.
  - unfold same_header. mproj. repeat split; assumption.
Qed.

Lemma model_step_tracked (root52 : Q -> Q) (ws0 : list Worker)
    (fs0 : list Firm) (h : Model) (Q : unit -> World -> Prop) (s : World) :
  tracked ws0 fs0 h s ->
  (forall noise s',
      -0.001 <= noise -> noise <= 0.001 ->
      tracked ws0 fs0
        (set_price_index
           (price_index h * (1 + (root52 (1 + inflation_rate h) - 1) + noise)) h)
        s' ->
      Q tt s') ->
  wp (SimpleCapitalistModel.step root52) Q s.
Proof.
  intros Ht HQ. unfold SimpleCapitalistModel.step.
  pose proof (tracked_wf _ _ _ _ Ht) as Hwf.
  apply wp_bind, wp_get_model.
  apply wp_bind, wp_uniform; [apply Hwf | lra|]. intros noise g Hg Hlo Hhi.
  apply wp_bind, wp_modify_model. mproj.
  assert (Ehead : price_index (model s) = price_index h /\
                  inflation_rate (model s) = inflation_rate h).
  { destruct Ht as (_ & _ & _ & (_ & _ & _ & A4 & A5)). split; assumption. }
  destruct Ehead as [-> ->].
  match goal with
  | |- wp _ _ (mkWorld (set_price_index ?p _) _) =>
      pose proof (tracked_set_price ws0 fs0 h s p g Ht Hg) as Ht1;
      revert Ht1;
      generalize (mkWorld (set_price_index p (model s)) g); intros s1 Ht1
  end.
  pose proof (tracked_wf _ _ _ _ Ht1) as Hwf1.
  apply wp_bind, wp_get_model.
  assert (Hn : length (worker_agents (model s1)) = length ws0) by apply Hwf1.
  rewrite Hn.
  apply wp_bind, (step_workers_tracked ws0 fs0 _ _ _ s1 Ht1);
    [apply Forall_seq_lt|].
  intros s2 Ht2.
  assert (Hk : length (firm_agents (model s1)) = length fs0) by apply Hwf1.
  rewrite Hk.
  apply wp_bind, (step_firms_tracked ws0 fs0 _ _ _ s2 Ht2);
    [apply Forall_seq_lt|].
  intros s3 Ht3. apply (collect_tracked ws0 fs0 _ _ s3 Ht3).
  intros s4 Ht4. apply (HQ noise s4 Hlo Hhi Ht4).
Qed.

Lemma run_tracked (root52 : Q -> Q) (ws0 : list Worker) (fs0 : list Firm)
    (num_steps : nat) (h : Model) (Q : unit -> World -> Prop) (s : World) :
  tracked ws0 fs0 h s ->
  (forall p s',
      tracked ws0 fs0 (set_price_index p h) s' ->
      (0.001 < root52 (1 + inflation_rate h) -> 0 < price_index h -> 0 < p) ->
      Q tt s') ->
  wp (run root52 num_steps) Q s.
Proof.
  revert h s Q.
  induction num_steps as [|m IH]; intros h s Q Ht HQ; cbn [run].
  - apply wp_ret, (HQ (price_index h)); [|intros _ Hp; exact Hp].
    apply (tracked_reheader ws0 fs0 h); [exact Ht|]. repeat split.
  - apply wp_bind, (model_step_tracked root52 ws0 fs0 h); [exact Ht|].
    intros noise s1 Hlo Hhi Ht1.
    apply (IH _ s1 Q Ht1). intros p s' Ht' Hpos.
    apply (HQ p s').
    + apply (tracked_reheader ws0 fs0 _ _ s' Ht'). repeat split.
    + intros Hroot Hp. mproj. apply Hpos; [exact Hroot|].
      apply Qmult_lt_0_compat; [exact Hp | lra].
Qed.

(** A sound world is tracked from itself. *)
Lemma sound_tracked (n k : nat) (s : World) :
  sound n k s ->
  tracked (worker_agents (model s)) (firm_agents (model s)) (model s) s.
Proof.
  intros Hs.
  assert (Hn : length (worker_agents (model s)) = n) by apply Hs.
  assert (Hk : length (firm_agents (model s)) = k) by apply Hs.
  split; [rewrite Hn, Hk; exact Hs|].
  split; [apply Forall2_refl, worker_history_refl|].
  split; [apply Forall2_refl, firm_static_refl | repeat split].
Qed.

Lemma tracked_sound (n k : nat) (s s' : World) (h : Model) :
  sound n k s ->
  tracked (worker_agents (model s)) (firm_agents (model s)) h s' ->
  sound n k s'.
Proof.
  intros Hs (Hs' & _).
  assert (Hn : length (worker_agents (model s)) = n) by apply Hs.
  assert (Hk : length (firm_agents (model s)) = k) by apply Hs.
  rewrite Hn, Hk in Hs'. exact Hs'.
Qed.

(** Any number of weeks from a sound world: the run returns, the world
    stays sound, and every worker and firm is related to what it was. *)
Lemma run_ledger (root52 : Q -> Q) (n k : nat) (s : World) (num_steps : nat) :
  sound n k s ->
  exists s',
    run root52 num_steps s = Ok (tt, s') /\ sound n k s' /\
    Forall2 worker_history (worker_agents (model s)) (worker_agents (model s')) /\
    Forall2 firm_static (firm_agents (model s)) (firm_agents (model s')) /\
    same_header (set_price_index (price_index (model s')) (model s)) (model s') /\
    (0.001 < root52 (1 + inflation_rate (model s)) ->
     0 < price_index (model s) -> 0 < price_index (model s')).
Proof.
  intros Hs.
  pose proof (run_tracked root52 _ _ num_steps (model s)
    (fun _ s' =>
       sound n k s' /\
       Forall2 worker_history (worker_agents (model s)) (worker_agents (model s')) /\
       Forall2 firm_static (firm_agents (model s)) (firm_agents (model s')) /\
       same_header (set_price_index (price_index (model s')) (model s)) (model s') /\
       (0.001 < root52 (1 + inflation_rate (model s)) ->
        0 < price_index (model s) -> 0 < price_index (model s')))
    s (sound_tracked n k s Hs)) as Hrun.
  apply wp_run in Hrun.
  - destruct Hrun as ([] & s' & Hrun & H). exists s'. split; assumption.
  - intros p s' Ht Hpos.
    split; [apply (tracked_sound n k s s' _ Hs Ht)|].
    destruct Ht as (_ & Hw & Hf & (A1 & A2 & A3 & A4 & A5)).
    mproj.
    split; [exact Hw|]. split; [exact Hf|].
    split; [unfold same_header; mproj; repeat split; assumption|].
    rewrite A4. exact Hpos.
Qed.

Lemma scenario_D_sound : sound 6 1 scenario_D.
Proof.
  split; [apply scenario_D_wf|].
  split; [repeat constructor; vm_compute; discriminate|].
  split; [repeat constructor; vm_compute; discriminate|].
  apply Permutation_refl.
Qed.

(** No run ever declares a worker bankrupt.  From a sound world (a
    well-formed one whose books are in order), any number of weeks run to
    completion, and every worker ends with the bankruptcy flag it started
    with and with the attributes set at construction unchanged; the
    population itself is the same. *)
Theorem bankruptcy_is_never_declared (root52 : Q -> Q) (n k : nat) (s : World)
    (num_steps : nat) (Hs : sound n k s) :
  exists s',
    run root52 num_steps s = Ok (tt, s') /\
    length (worker_agents (model s')) = length (worker_agents (model s)) /\
    Forall2 (fun w w' => is_bankrupt w' = is_bankrupt w /\ same_params w w')
      (worker_agents (model s)) (worker_agents (model s')).
Proof.
  destruct (run_ledger root52 n k s num_steps Hs) as (s' & Hrun & _ & Hw & _).
  exists s'. split; [exact Hrun|].
  split; [symmetry; eapply Forall2_length, Hw|].
  eapply Forall2_impl; [|exact Hw].
  intros w w' (Hp & Hb & _). split; assumption.
Qed.

Lemma bankruptcy_witness :
  exists s',
    run Scenarios.root52 3 scenario_D = Ok (tt, s') /\
    length (worker_agents (model s')) = 6%nat.
Proof.
  destruct (bankruptcy_is_never_declared Scenarios.root52 6 1 scenario_D 3
              scenario_D_sound) as (s' & H1 & H2 & _).
  exists s'. split; assumption.
Defined.

(** Over any run from a sound world, a worker's lifetime totals of wages
    and taxes never decrease, no wage is ever negative, and the taxes paid
    stay between 5% and 30% of the wages earned, the two ends of the tax
    brackets. *)
Theorem lifetime_taxes_stay_within_the_brackets (root52 : Q -> Q) (n k : nat)
    (s : World) (num_steps : nat) (Hs : sound n k s) :
  exists s',
    run root52 num_steps s = Ok (tt, s') /\
    Forall2 (fun w w' => total_wages_earned w <= total_wages_earned w' /\
                         total_taxes_paid w <= total_taxes_paid w')
      (worker_agents (model s)) (worker_agents (model s')) /\
    Forall (fun w => 0 <= wage w /\
                     0.05 * total_wages_earned w <= total_taxes_paid w /\
                     total_taxes_paid w <= 0.30 * total_wages_earned w)
      (worker_agents (model s')).
Proof.
  destruct (run_ledger root52 n k s num_steps Hs)
    as (s' & Hrun & (_ & Hb & _) & Hw & _).
  exists s'. split; [exact Hrun|].
  split; [|exact Hb].
  eapply Forall2_impl; [|exact Hw].
  intros w w' (_ & _ & He & Htax). split; assumption.
Qed.

Lemma lifetime_taxes_witness :
  exists s',
    run Scenarios.root52 3 scenario_D = Ok (tt, s') /\
    Forall (fun w => 0 <= wage w /\
                     0.05 * total_wages_earned w <= total_taxes_paid w /\
                     total_taxes_paid w <= 0.30 * total_wages_earned w)
      (worker_agents (model s')).
Proof.
  destruct (lifetime_taxes_stay_within_the_brackets Scenarios.root52 6 1
              scenario_D 3 scenario_D_sound) as (s' & H1 & _ & H2).
  exists s'. split; assumption.
Defined.

(** Over any run from a sound world, no firm's roster grows beyond its
    capacity by more than one entry, the capacity and the other attributes
    drawn at construction never change, and the wage bill on the books is
    never negative. *)
Theorem roster_stays_within_capacity_plus_one (root52 : Q -> Q) (n k : nat)
    (s : World) (num_steps : nat) (Hs : sound n k s) :
  exists s',
    run root52 num_steps s = Ok (tt, s') /\
    Forall (fun f => (Z.of_nat (length (workers f)) <= max_workers f + 1)%Z /\
                     0 <= wages_paid f)
      (firm_agents (model s')) /\
    Forall2 (fun f f' => max_workers f' = max_workers f /\
                         wage_rates f' = wage_rates f /\
                         tax_rate f' = tax_rate f /\
                         preferred_skill_mix f' = preferred_skill_mix f)
      (firm_agents (model s)) (firm_agents (model s')).
Proof.
  destruct (run_ledger root52 n k s num_steps Hs)
    as (s' & Hrun & (_ & _ & Hb & _) & _ & Hf & _).
  exists s'. split; [exact Hrun|].
  split.
  - eapply Forall_impl; [|exact Hb]. intros f [H1 H2]. split; assumption.
  - eapply Forall2_impl; [|exact Hf].
    intros f f' (_ & H1 & H2 & H3 & H4 & _). repeat split; assumption.
Qed.

Lemma roster_capacity_witness :
  exists s',
    run Scenarios.root52 3 scenario_D = Ok (tt, s') /\
    Forall (fun f => (Z.of_nat (length (workers f)) <= max_workers f + 1)%Z /\
                     0 <= wages_paid f)
      (firm_agents (model s')).
Proof.
  destruct (roster_stays_within_capacity_plus_one Scenarios.root52 6 1
              scenario_D 3 scenario_D_sound) as (s' & H1 & H2 & _).
  exists s'. split; assumption.
Defined.

(** *** The unemployment statistics *)

Lemma count_long_term_bounds (ws : list Worker) (refs : list nat) (acc : nat) :
  Forall (fun i => (i < length ws)%nat) refs ->
  exists c, count_long_term ws refs acc = Ok c /\
            (acc <= c <= acc + length refs)%nat.
Proof.
  intros H. revert acc.
  induction H as [|i refs Hi _ IH]; intros acc; cbn [count_long_term length].
  - exists acc. split; [reflexivity | lia].
  - destruct (nth_error_lt ws i Hi) as [w ->].
    destruct (IH (if (12 <? weeks_unemployed w)%Z then (acc + 1)%nat else acc))
      as (c & -> & Hc).
    exists c. split; [reflexivity|].
    destruct (12 <? weeks_unemployed w)%Z; lia.
Qed.

Lemma of_nat_le (a b : nat) : (a <= b)%nat -> of_nat a <= of_nat b.
Proof. intros H. unfold of_nat. rewrite <- Zle_Qle. lia. Qed.

Lemma Qdiv_le_compat (a b c : Q) : a <= b -> 0 < c -> a / c <= b / c.
Proof.
  intros Hab Hc. unfold Qdiv. apply Qmult_le_compat_r; [exact Hab|].
  apply Qlt_le_weak, Qinv_lt_0_compat, Hc.
Qed.

(** The employment lists stay a partition of the workers, and the
    unemployment statistics add up.  After any run from a sound world the
    lists of employed and unemployed workers together list every worker
    exactly once; [get_unemployment_stats] returns; its employed and
    unemployed counts add up to the number of workers; the long-term
    unemployed are among the unemployed; and both rates lie between 0
    and 1, the long-term one below the other. *)
Theorem unemployment_statistics_add_up (root52 : Q -> Q) (n k : nat)
    (s : World) (num_steps : nat) (Hs : sound n k s) :
  exists s' stats,
    run root52 num_steps s = Ok (tt, s') /\
    Permutation
      (employed_workers (model s') ++ unemployed_workers (model s'))
      (seq 0 n) /\
    get_unemployment_stats (model s') = Ok stats /\
    total_workers stats = n /\
    (employed_count stats + unemployed_count stats = total_workers stats)%nat /\
    (long_term_unemployed stats <= unemployed_count stats)%nat /\
    0 <= long_term_unemployment_rate stats /\
    long_term_unemployment_rate stats <= unemployment_rate stats /\
    unemployment_rate stats <= 1.
Proof.
  destruct (run_ledger root52 n k s num_steps Hs)
    as (s' & Hrun & (Hwf & _ & _ & Hp) & _).
  unfold partitioned in Hp.
  assert (Hn : length (worker_agents (model s')) = n) by apply Hwf.
  rewrite Hn in Hp.
  assert (Hlen : (length (employed_workers (model s'))
                  + length (unemployed_workers (model s')) = n)%nat).
  { rewrite <- length_app, (Permutation_length Hp). apply length_seq. }
  assert (Hrefs : Forall (fun i => (i < length (worker_agents (model s')))%nat)
                    (unemployed_workers (model s'))).
  { rewrite Hn. apply (wf_unemployed _ _ _ Hwf). }
  destruct (count_long_term_bounds _ _ 0%nat Hrefs) as (c & Hc & Hc0 & Hc1).
  cbn [Nat.add] in Hc1.
  assert (Hstats : exists stats,
    get_unemployment_stats (model s') = Ok stats /\
    total_workers stats = n /\
    (employed_count stats + unemployed_count stats = total_workers stats)%nat /\
    (long_term_unemployed stats <= unemployed_count stats)%nat /\
    0 <= long_term_unemployment_rate stats /\
    long_term_unemployment_rate stats <= unemployment_rate stats /\
    unemployment_rate stats <= 1).
  { unfold get_unemployment_stats, get_workers. rewrite Hc, Hn. cbn [rbind].
    destruct n as [|n'].
    { cbn [Nat.ltb Nat.leb rbind].
      eexists. split; [reflexivity|].
      cbn [total_workers employed_count unemployed_count long_term_unemployed
           long_term_unemployment_rate unemployment_rate].
      repeat split; try lia; lra. }
    assert (Hpos : 0 < of_nat (S n')) by (apply of_nat_pos; lia).
    assert (Hnz : ~ of_nat (S n') == 0) by lra.
    change (0 <? S n')%nat with true. cbv iota.
    rewrite !(pydiv_ok _ _ Hnz). cbn [rbind].
    eexists. split; [reflexivity|].
    cbn [total_workers employed_count unemployed_count long_term_unemployed
         long_term_unemployment_rate unemployment_rate].
    split; [reflexivity|]. split; [exact Hlen|]. split; [exact Hc1|].
    split; [apply Qdiv_nonneg; [apply of_nat_nonneg | exact Hpos]|].
    split; [apply Qdiv_le_compat; [apply of_nat_le, Hc1 | exact Hpos]|].
    apply Qdiv_le_1; [apply of_nat_le; lia | exact Hpos]. }
  destruct Hstats as (stats & Hstats).
  exists s', stats. split; [exact Hrun|]. split; [exact Hp | exact Hstats].
Qed.

Lemma unemployment_statistics_witness :
  exists s' stats,
    run Scenarios.root52 3 scenario_D = Ok (tt, s') /\
    get_unemployment_stats (model s') = Ok stats /\
    total_workers stats = 6%nat.
Proof.
  destruct (unemployment_statistics_add_up Scenarios.root52 6 1 scenario_D 3
              scenario_D_sound) as (s' & stats & H1 & _ & H2 & H3 & _).
  exists s', stats. repeat split; assumption.
Defined.

(** *** Prices *)

(** The price index stays positive.  From a sound world with a positive
    price index, and for any reading of [x ** (1/52)] that maps
    [1 + inflation_rate] above 0.001, the index is positive after any
    number of weeks and the inflation rate is never changed; so
    [get_real_wage] divides by a positive number and returns a
    non-negative real wage for every worker. *)
Theorem price_index_stays_positive (root52 : Q -> Q) (n k : nat) (s : World)
    (num_steps : nat) (Hs : sound n k s)
    (Hprice : 0 < price_index (model s))
    (Hroot : 0.001 < root52 (1 + inflation_rate (model s))) :
  exists s',
    run root52 num_steps s = Ok (tt, s') /\
    0 < price_index (model s') /\
    inflation_rate (model s') = inflation_rate (model s) /\
    Forall (fun w => exists real, get_real_wage (model s') w = Ok real /\
                                  0 <= real)
      (worker_agents (model s')).
Proof.
  destruct (run_ledger root52 n k s num_steps Hs)
    as (s' & Hrun & (_ & Hb & _) & _ & _ & (_ & _ & _ & _ & Hi) & Hpos).
  specialize (Hpos Hroot Hprice).
  exists s'. split; [exact Hrun|]. split; [exact Hpos|].
  split; [exact Hi|].
  eapply Forall_impl; [|exact Hb].
  intros w (Hw & _). unfold get_real_wage.
  rewrite pydiv_ok by lra. eexists. split; [reflexivity|].
  apply Qdiv_nonneg; assumption.
Qed.

Lemma price_index_witness :
  exists s',
    run Scenarios.root52 3 scenario_D = Ok (tt, s') /\
    0 < price_index (model s').
Proof.
  destruct (price_index_stays_positive Scenarios.root52 6 1 scenario_D 3
              scenario_D_sound)
    as (s' & H1 & H2 & _).
  - reflexivity.
  - reflexivity.
  - exists s'. split; assumption.
Defined.

(** One week moves the price index by inflation and noise only: after
    [step] from a sound world the index is the old one times
    [1 + weekly_inflation + noise] with the noise within 0.001 of 0,
    whatever the workers and the firms did in that week, and the other
    parameters of the model are as they were. *)
Theorem a_week_moves_prices_by_inflation_and_noise (root52 : Q -> Q)
    (n k : nat) (s : World) (Hs : sound n k s) :
  exists s' noise,
    SimpleCapitalistModel.step root52 s = Ok (tt, s') /\
    -0.001 <= noise /\ noise <= 0.001 /\
    price_index (model s')
    = price_index (model s)
      * (1 + (root52 (1 + inflation_rate (model s)) - 1) + noise) /\
    inflation_rate (model s') = inflation_rate (model s) /\
    num_workers (model s') = num_workers (model s) /\
    num_firms (model s') = num_firms (model s).
Proof.
  pose proof (model_step_tracked root52 _ _ (model s)
    (fun _ s' =>
       exists noise,
         -0.001 <= noise /\ noise <= 0.001 /\
         price_index (model s')
         = price_index (model s)
           * (1 + (root52 (1 + inflation_rate (model s)) - 1) + noise) /\
         inflation_rate (model s') = inflation_rate (model s) /\
         num_workers (model s') = num_workers (model s) /\
         num_firms (model s') = num_firms (model s))
    s (sound_tracked n k s Hs)) as Hstep.
  apply wp_run in Hstep.
  - destruct Hstep as ([] & s' & Hstep & noise & H).
    exists s', noise. split; assumption.
  - intros noise s' Hlo Hhi (_ & _ & _ & (A1 & A2 & _ & A4 & A5)). mproj.
    exists noise. repeat split; assumption.
Qed.

Lemma a_week_of_prices_witness :
  exists s' noise,
    SimpleCapitalistModel.step Scenarios.root52 scenario_D = Ok (tt, s') /\
    -0.001 <= noise /\ noise <= 0.001.
Proof.
  destruct (a_week_moves_prices_by_inflation_and_noise Scenarios.root52 6 1
              scenario_D scenario_D_sound)
    as (s' & noise & H1 & H2 & H3 & _).
  exists s', noise. repeat split; assumption.
Defined.

(** *** The constructed economy *)

Lemma worker_init_books (uid : Z) (g : Rng) :
  worker_books (fst (SimpleWorkerAgent.init uid 40 g)) /\
  is_bankrupt (fst (SimpleWorkerAgent.init uid 40 g)) = false /\
  is_employed (fst (SimpleWorkerAgent.init uid 40 g)) = false.
Proof.
  unfold SimpleWorkerAgent.init.
  destruct (_determine_skill_level g) as [skill g1].
  destruct (_get_initial_wealth skill g1) as [wealth0 g2].
  destruct (rng_uniform 5000 15000 g2) as [capacity g3].
  destruct (rng_uniform 0.10 0.26 g3) as [rate g4].
  destruct (_get_productivity skill g4) as [prod g5].
  destruct (_determine_firm_ownership skill g5) as [owner g6].
  cbn [fst]. unfold worker_books. wproj.
  split; [|split; reflexivity]. split; [lra | split; lra].
Qed.

Lemma create_workers_books (n : nat) (i : Z) (g : Rng) :
  Forall (fun w => worker_books w /\ is_bankrupt w = false /\
                   is_employed w = false)
    (fst (create_workers n i g)).
Proof.
  revert i g. induction n as [|n IH]; intros i g; cbn [create_workers];
    [constructor|].
  pose proof (worker_init_books i g) as Hw.
  destruct (SimpleWorkerAgent.init i 40 g) as [w g1]. cbn [fst] in Hw.
  specialize (IH (i + 1)%Z g1).
  destruct (create_workers n (i + 1) g1) as [ws g2]. cbn [fst] in *.
  constructor; assumption.
Qed.

Lemma create_firms_books (k : nat) (uid : Z) (g : Rng) (fs : list Firm)
    (g' : Rng) :
  rng_ok g -> create_firms k uid g = Ok (fs, g') ->
  Forall (fun f => firm_books f /\ workers f = []) fs.
Proof.
  revert uid g fs g'.
  induction k as [|k IH]; intros uid g fs g' Hg H; cbn [create_firms] in H.
  - injection H as <- <-. constructor.
  - destruct (firm_init_drawn uid g Hg)
      as (f & Hf & _ & Hr & _ & _ & Hp & _ & Hmax & _).
    rewrite Hf in H. cbn [rbind] in H.
    assert (Hg1 : rng_ok (mkRng (draws g) (15 + cursor g)))
      by (intros j; apply (Hg j)).
    destruct (create_firms k (uid + 1) (mkRng (draws g) (15 + cursor g)))
      as [[rest g2]|e] eqn:E; cbn [rbind] in H; [|discriminate].
    injection H as <- <-.
    constructor; [|apply (IH _ _ _ _ Hg1 E)].
    split; [|exact Hr]. split; [rewrite Hp; lra|].
    rewrite Hr. cbn [length]. lia.
Qed.

Lemma collect_stress_Forall (P : Worker -> Prop) (ws : list Worker) :
  (forall v w, P w -> P (set_financial_stress v w)) ->
  Forall P ws -> Forall P (collect_stress ws).
Proof.
  intros HP. induction 1 as [|w ws Hw Hws IH]; cbn [collect_stress];
    [constructor|].
  destruct (calculate_financial_stress w) as [[v w']|e] eqn:E.
  - apply calculate_financial_stress_shape in E. subst w'.
    constructor; [apply HP, Hw | exact IH].
  - constructor; assumption.
Qed.

(** The economy the constructor returns is sound. *)
Lemma init_sound (num_workers num_firms num_owners : Z) (g : Rng) :
  rng_ok g -> num_workers <> 0%Z ->
  exists world,
    SimpleCapitalistModel.init num_workers num_firms num_owners g = Ok world /\
    sound (Z.to_nat num_workers) (Z.to_nat num_firms) world /\
    Forall (fun w => is_bankrupt w = false /\ is_employed w = false)
      (worker_agents (model world)) /\
    Forall (fun f => workers f = []) (firm_agents (model world)) /\
    employed_workers (model world) = [] /\
    price_index (model world) = 1.0 /\
    inflation_rate (model world) = 0.02.
Proof.
  intros Hg Hnw.
  destruct (init_ok num_workers num_firms num_owners g Hg Hnw)
    as (world0 & Hinit0 & Hwf0 & _).
  unfold SimpleCapitalistModel.init in *.
  pose proof (create_workers_books (Z.to_nat num_workers) 0%Z g) as Hwb.
  destruct (create_workers_ok (Z.to_nat num_workers) 0%Z g Hg)
    as (Hws & Hlen & Hg1).
  destruct (create_workers (Z.to_nat num_workers) 0 g) as [ws g1].
  cbn [fst snd] in *.
  destruct (create_firms (Z.to_nat num_firms) num_workers g1)
    as [[fs g2]|e] eqn:Efirms; cbn [rbind] in *; [|discriminate].
  pose proof (create_firms_books _ _ _ _ _ Hg1 Efirms) as Hfb.
  unfold collect, modify_model in *. cbn [rbind snd model rng] in *.
  rewrite pydiv_ok in *
    by (change 0 with (inject_Z 0); rewrite inject_Z_injective; exact Hnw).
  cbn [rbind] in *. injection Hinit0 as <-.
  eexists. split; [reflexivity|].
  destruct (collect_stress_ok ws Hws) as [_ Hc2].
  split; [split; [exact Hwf0 | split; [|split]]|]; mproj.
  - apply collect_stress_Forall; [intros v w H; exact H|].
    eapply Forall_impl; [|exact Hwb]. intros w H. apply H.
  - eapply Forall_impl; [|exact Hfb]. intros f H. apply H.
  - unfold partitioned. mproj. rewrite Hc2, Hlen. apply Permutation_refl.
  - split.
    { apply collect_stress_Forall; [intros v w H; exact H|].
      eapply Forall_impl; [|exact Hwb]. intros w H. apply H. }
    split.
    { eapply Forall_impl; [|exact Hfb]. intros f H. apply H. }
    repeat split.
Qed.

(** Every economy the constructor returns keeps its books through any
    number of weeks: construction succeeds for every number of firms and
    every number of workers other than 0, with nobody employed or
    bankrupt, empty rosters and a price index of 1; any number of weeks
    then run to completion, and at the end nobody is bankrupt, the
    employment lists list every worker exactly once between them, no
    roster holds more than its capacity plus one, and the price index is
    positive for any reading of [x ** (1/52)] that maps 1.02 above
    0.001. *)
Theorem every_constructed_economy_keeps_its_books (root52 : Q -> Q)
    (num_workers num_firms num_owners : Z) (g : Rng) (num_steps : nat)
    (Hg : rng_ok g) (Hworkers : num_workers <> 0%Z) :
  exists world world',
    SimpleCapitalistModel.init num_workers num_firms num_owners g = Ok world /\
    Forall (fun w => is_bankrupt w = false /\ is_employed w = false)
      (worker_agents (model world)) /\
    Forall (fun f => workers f = []) (firm_agents (model world)) /\
    price_index (model world) = 1.0 /\
    run root52 num_steps world = Ok (tt, world') /\
    Forall (fun w => is_bankrupt w = false) (worker_agents (model world')) /\
    Permutation
      (employed_workers (model world') ++ unemployed_workers (model world'))
      (seq 0 (Z.to_nat num_workers)) /\
    Forall (fun f => (Z.of_nat (length (workers f)) <= max_workers f + 1)%Z)
      (firm_agents (model world')) /\
    (0.001 < root52 (1 + 0.02) -> 0 < price_index (model world')).
Proof.
  destruct (init_sound num_workers num_firms num_owners g Hg Hworkers)
    as (world & Hinit & Hs & Hfresh & Hempty & _ & Hprice & Hinfl).
  destruct (run_ledger root52 _ _ world num_steps Hs)
    as (world' & Hrun & (Hwf & _ & Hfb & Hp) & Hw & _ & _ & Hpos).
  exists world, world'.
  split; [exact Hinit|]. split; [exact Hfresh|]. split; [exact Hempty|].
  split; [exact Hprice|]. split; [exact Hrun|].
  split.
  { clear - Hfresh Hw. induction Hw as [|w w' ws ws' Hh _ IH]; [constructor|].
    inversion Hfresh; subst. constructor; [|apply IH; assumption].
    destruct Hh as (_ & Hb & _). rewrite Hb.
    match goal with H : _ /\ _ |- _ => apply H end. }
  split.
  { unfold partitioned in Hp.
    assert (Hn : length (worker_agents (model world')) = Z.to_nat num_workers)
      by apply Hwf.
    rewrite Hn in Hp. exact Hp. }
  split.
  { eapply Forall_impl; [|exact Hfb]. intros f H. apply H. }
  intros Hroot. apply Hpos; [rewrite Hinfl; exact Hroot|].
  rewrite Hprice. reflexivity.
Qed.

Lemma constructed_economy_witness :
  exists world world',
    SimpleCapitalistModel.init 2 1 0 broke_rng = Ok world /\
    run Scenarios.root52 5 world = Ok (tt, world') /\
    Forall (fun w => is_bankrupt w = false) (worker_agents (model world')).
Proof.
  destruct (every_constructed_economy_keeps_its_books Scenarios.root52
              2 1 0 broke_rng 5 broke_rng_ok)
    as (world & world' & H1 & _ & _ & _ & H2 & H3 & _).
  - discriminate.
  - exists world, world'. repeat split; assumption.
Defined.

End RunLedger.
